(** * discord-notify: the daemon's request/response coordination

    A shallow embedding of the daemon of [llm-cli/discord-notify]:
    - [src/shared/types.ts], [src/shared/protocol.ts] : the data model and
      the messages of the IPC protocol;
    - class [PendingManager] (imported as [./pending.js]; its text follows
      that of [Server] in [src/daemon/server.ts]) : stores, timers, events;
    - class [DiscordHandler] ([src/daemon/discord.ts]) : reply and button
      routing;
    - class [Server] ([src/daemon/server.ts]) : IPC clients, acks,
      notifications.

    Conventions of the embedding.
    - A JS object used as a dictionary ([Record<string, X>]) is a
      [gmap string X]; the keys the daemon uses are UUIDs and Discord
      snowflakes, so inherited keys of [Object.prototype] are not modelled.
    - An optional field [x?: T] is an [option T]; truthiness tests of the
      source ([if (x)], [x || d]) are written out: the empty string, [0] and
      [undefined] are falsy.
    - JS numbers that the daemon handles (milliseconds, pids, indices) are
      integers and are modelled in [Z].
    - [Date.now()] and [randomUUID()] are read from the environment: the
      values they return are arguments of the operations that call them.
    - The Node runtime keeps the set of armed timers; [setTimeout] adds one
      and returns a handle, [clearTimeout] removes it, firing removes it and
      runs the callback.  The runtime's timer table is the field
      [scheduled]; the manager's own [timers] map only holds handles.
    - [EventEmitter.emit] is a log: the manager's operations return the
      list of events they emit, and the Discord handlers the list of their
      [Output]s (events and calls to Discord), in program order.
    - A handler that awaits an outside call ([sendMessage],
      [interaction.update], [resumeAndInject]) is cut at the [await]: the
      part before and the part after are separate steps of the daemon, and
      other handlers may run in between.
    - The daemon's process can die while [processResponse] awaits
      [resumeAndInject] (see [Resume]); a run of the transition system then
      ends with that handler suspended. *)

From stdpp Require Import gmap strings list fin_maps.
From Stdlib Require Import Ascii ZArith.
From Stdlib Require DecimalString DecimalNat.

Local Open Scope string_scope.
Local Open Scope list_scope.
Local Open Scope stdpp_scope.
Local Open Scope nat_scope.

(** ** JavaScript helpers *)

Module JS.

(** Truthiness of a [string | undefined]. *)
Definition truthy (o : option string) : bool :=
  match o with
  | Some s => negb (String.eqb s "")
  | None => false
  end.

(** [n || d] on [number | undefined]: [0] and [undefined] are falsy. *)
Definition num_or (o : option Z) (d : Z) : Z :=
  match o with
  | Some n => if (n =? 0)%Z then d else n
  | None => d
  end.

(** [b || false] on [boolean | undefined]. *)
Definition bool_or_false (o : option bool) : bool :=
  match o with
  | Some b => b
  | None => false
  end.

(** [s.split(c)] for a one-character separator: the pieces between the
    separators, in order; the empty string gives one empty piece. *)
Fixpoint split_aux (c : ascii) (cur : string) (s : string) : list string :=
  match s with
  | EmptyString => [String.rev cur]
  | String a s' =>
      if Ascii.eqb a c
      then String.rev cur :: split_aux c EmptyString s'
      else split_aux c (String a cur) s'
  end.

Definition split (c : ascii) (s : string) : list string :=
  split_aux c EmptyString s.

(** White space skipped by [parseInt] (code units below 256: TAB, LF, VT,
    FF, CR, SP and NBSP). *)
Definition is_space (a : ascii) : bool :=
  let n := nat_of_ascii a in
  ((9 <=? n)%nat && (n <=? 13)%nat) || (n =? 32)%nat || (n =? 160)%nat.

Definition digit_of (a : ascii) : option Z :=
  let n := nat_of_ascii a in
  if (48 <=? n)%nat && (n <=? 57)%nat then Some (Z.of_nat n - 48)%Z else None.

Fixpoint skip_space (s : string) : string :=
  match s with
  | String a s' => if is_space a then skip_space s' else s
  | EmptyString => s
  end.

(** The longest prefix of decimal digits, read most significant first. *)
Fixpoint digits (acc : Z) (s : string) : Z :=
  match s with
  | String a s' =>
      match digit_of a with
      | Some d => digits (10 * acc + d)%Z s'
      | None => acc
      end
  | EmptyString => acc
  end.

Definition unsigned (s : string) : option Z :=
  match s with
  | String a _ =>
      match digit_of a with
      | Some _ => Some (digits 0 s)
      | None => None
      end
  | EmptyString => None
  end.

(** [parseInt(s, 10)]: leading white space, an optional sign, then the
    longest run of decimal digits; [None] is [NaN].  The value is exact,
    where JS rounds above [2^53]; [index] below rejects such numbers either
    way. *)
Definition parseInt (s : string) : option Z :=
  match skip_space s with
  | String "-" s' => Z.opp <$> unsigned s'
  | String "+" s' => unsigned s'
  | s' => unsigned s'
  end.

(** [arr[i]] for a number [i] produced by [parseInt]: an array has at
    most [2^32 - 1] elements, and any other key is absent ([NaN], negative
    numbers, numbers past the end).  [-0] is [0]. *)
Definition index {A} (arr : list A) (i : option Z) : option A :=
  match i with
  | Some n =>
      if (0 <=? n)%Z && (n <? 2 ^ 32 - 1)%Z then arr !! Z.to_nat n else None
  | None => None
  end.

End JS.

(** ** Data model ([src/shared/types.ts]) *)

Record Config := {
  socketPath : string;
  dataDir : string;
  discord_token : string;
  discord_userId : string;
  timeouts_defaultAsk : Z;
  timeouts_maxAsk : Z
}.

Record SessionInfo := {
  si_pid : Z;
  si_sessionId : option string;
  si_sessionName : option string;
  si_cwd : string;
  si_projectName : option string
}.

Inductive RequestType := TSend | TAsk.

Record PendingRequest := {
  req_id : string;
  req_type : RequestType;
  req_message : string;
  req_options : option (list string);
  req_sessionInfo : SessionInfo;
  req_discordMessageId : option string;
  req_createdAt : Z;
  req_timeout : Z;
  req_noWait : bool
}.

Inductive PendingStatus := StPending | StAnswered | StTimeout | StError.

Record PendingResponse := {
  res_requestId : string;
  res_status : PendingStatus;
  res_response : option string;
  res_answeredAt : option Z;
  res_error : option string
}.

Record PendingStore := {
  requests : gmap string PendingRequest;
  responses : gmap string PendingResponse
}.

Record TerminalInfo := {
  ti_pid : Z;
  ti_kittyWindowId : option Z;
  ti_sessionId : option string;
  ti_cwd : string;
  ti_active : bool
}.

Record SessionStore := {
  messageToRequest : gmap string string;
  requestToTerminal : gmap string TerminalInfo
}.

#[global] Instance RequestType_eq_dec : EqDecision RequestType.
Proof. solve_decision. Defined.
#[global] Instance PendingStatus_eq_dec : EqDecision PendingStatus.
Proof. solve_decision. Defined.

(** A status is terminal when it is not [pending]. *)
Definition terminal (st : PendingStatus) : bool :=
  match st with
  | StPending => false
  | _ => true
  end.


(** ** The environment: files and timers *)

(** What the calls [existsSync], [readFileSync] and [JSON.parse] make of a
    backing file.  [JSON.stringify] followed by [JSON.parse] gives back the
    store that was saved, so a saved file is [Holds store].  The loaders
    return what [JSON.parse] returns under the type of a store; JSON text of
    another shape is not a state of this model.  Writing a file is taken
    not to throw; a file that is [Unreadable] (a directory, a file without
    permission) stays so when it is written, so what the files hold after a
    write is stated below only for files that are not [Unreadable] at the
    start. *)
Inductive File (A : Type) :=
| Missing            (* no such file: [existsSync] is false *)
| Unreadable         (* the file exists and [readFileSync] throws *)
| Unparseable        (* the content is not JSON: [JSON.parse] throws *)
| Holds (a : A).     (* [JSON.parse] returns [a] *)
Arguments Missing {A}.
Arguments Unreadable {A}.
Arguments Unparseable {A}.
Arguments Holds {A} a.

Inductive Content (A : Type) := Garbage | Doc (a : A).
Arguments Garbage {A}.
Arguments Doc {A} a.

(** A computation that returns or throws. *)
Inductive Result (A : Type) := Ok (a : A) | Throw.
Arguments Ok {A} a.
Arguments Throw {A}.

Definition bind {A B} (r : Result A) (k : A -> Result B) : Result B :=
  match r with
  | Ok a => k a
  | Throw => Throw
  end.

(** [try { body } catch { handler }]. *)
Definition try_catch {A} (body handler : Result A) : Result A :=
  match body with
  | Ok a => Ok a
  | Throw => handler
  end.

Definition existsSync {A} (f : File A) : bool :=
  match f with
  | Missing => false
  | _ => true
  end.

Definition readFileSync {A} (f : File A) : Result (Content A) :=
  match f with
  | Missing | Unreadable => Throw
  | Unparseable => Ok Garbage
  | Holds a => Ok (Doc a)
  end.

Definition JSON_parse {A} (c : Content A) : Result A :=
  match c with
  | Garbage => Throw
  | Doc a => Ok a
  end.

(** [writeFileSync(path, JSON.stringify(a, null, 2))]. *)
Definition writeFileSync {A} (f : File A) (a : A) : File A :=
  match f with
  | Unreadable => Unreadable
  | _ => Holds a
  end.

Record Disk := {
  pendingFile : File PendingStore;    (* <dataDir>/pending.json *)
  sessionsFile : File SessionStore    (* <dataDir>/sessions.json *)
}.

(** An armed timer of the runtime: [setTimeout(() => handleTimeout(requestId),
    timeout)]; [tm_delay] is the argument [timeout] as it was passed. *)
Record Timer := {
  tm_handle : nat;
  tm_request : string;
  tm_delay : Z
}.

(** The delay after which the runtime fires a timer: Node takes the
    argument of [setTimeout] when it lies between 1 and [2^31 - 1], and 1 ms
    otherwise. *)
Definition armed_delay (t : Timer) : Z :=
  if (1 <=? tm_delay t)%Z && (tm_delay t <=? 2 ^ 31 - 1)%Z
  then tm_delay t
  else 1%Z.

(** The events a [PendingManager] emits. *)
Inductive Emitted :=
| EmitResponse (requestId response : string) (answeredAt : Z)
| EmitTimeout (requestId : string).

(** ** [PendingManager] *)

Record PendingManager := {
  pendingStore : PendingStore;
  sessionStore : SessionStore;
  timers : gmap string nat;      (* [Map<string, NodeJS.Timeout>] *)
  scheduled : list Timer;        (* the runtime's armed timers *)
  next_handle : nat;             (* the next handle [setTimeout] returns *)
  disk : Disk
}.

Definition emptyPendingStore : PendingStore :=
  {| requests := ∅; responses := ∅ |}.

Definition emptySessionStore : SessionStore :=
  {| messageToRequest := ∅; requestToTerminal := ∅ |}.

Definition loadPendingStore (d : Disk) : Result PendingStore :=
  if existsSync (pendingFile d)
  then try_catch (bind (readFileSync (pendingFile d)) JSON_parse)
                 (Ok emptyPendingStore)
  else Ok emptyPendingStore.

Definition loadSessionStore (d : Disk) : Result SessionStore :=
  if existsSync (sessionsFile d)
  then try_catch (bind (readFileSync (sessionsFile d)) JSON_parse)
                 (Ok emptySessionStore)
  else Ok emptySessionStore.

(** [new PendingManager(config)] in a process whose runtime has no timer
    armed yet and whose next timer handle is [h0]. *)
Definition PendingManager_new (cfg : Config) (h0 : nat) (d : Disk)
  : Result PendingManager :=
  bind (loadPendingStore d) (fun ps =>
  bind (loadSessionStore d) (fun ss =>
  Ok {| pendingStore := ps; sessionStore := ss; timers := ∅;
        scheduled := []; next_handle := h0; disk := d |})).

Definition with_pendingStore (ps : PendingStore) (pm : PendingManager) :=
  {| pendingStore := ps; sessionStore := sessionStore pm;
     timers := timers pm; scheduled := scheduled pm;
     next_handle := next_handle pm; disk := disk pm |}.

Definition with_sessionStore (ss : SessionStore) (pm : PendingManager) :=
  {| pendingStore := pendingStore pm; sessionStore := ss;
     timers := timers pm; scheduled := scheduled pm;
     next_handle := next_handle pm; disk := disk pm |}.

Definition with_disk (d : Disk) (pm : PendingManager) :=
  {| pendingStore := pendingStore pm; sessionStore := sessionStore pm;
     timers := timers pm; scheduled := scheduled pm;
     next_handle := next_handle pm; disk := d |}.

Definition with_requests (rs : gmap string PendingRequest) (pm : PendingManager) :=
  with_pendingStore
    {| requests := rs; responses := responses (pendingStore pm) |} pm.

Definition with_responses (rs : gmap string PendingResponse) (pm : PendingManager) :=
  with_pendingStore
    {| requests := requests (pendingStore pm); responses := rs |} pm.

Definition with_messageToRequest (m : gmap string string) (pm : PendingManager) :=
  with_sessionStore
    {| messageToRequest := m;
       requestToTerminal := requestToTerminal (sessionStore pm) |} pm.

Definition with_requestToTerminal (m : gmap string TerminalInfo) (pm : PendingManager) :=
  with_sessionStore
    {| messageToRequest := messageToRequest (sessionStore pm);
       requestToTerminal := m |} pm.

Definition savePendingStore (pm : PendingManager) : PendingManager :=
  with_disk {| pendingFile := writeFileSync (pendingFile (disk pm)) (pendingStore pm);
               sessionsFile := sessionsFile (disk pm) |} pm.

Definition saveSessionStore (pm : PendingManager) : PendingManager :=
  with_disk {| pendingFile := pendingFile (disk pm);
               sessionsFile := writeFileSync (sessionsFile (disk pm)) (sessionStore pm) |} pm.

(** The optional last argument of [createRequest]. *)
Record CreateOptions := {
  co_options : option (list string);
  co_timeout : option Z;
  co_noWait : option bool
}.

(** [createRequest(type, message, sessionInfo, options?)]; [id] is the
    value of [randomUUID()] and [now] that of [Date.now()]. *)
Definition createRequest (cfg : Config) (id : string) (now : Z)
    (type : RequestType) (message : string) (sessionInfo : SessionInfo)
    (options : option CreateOptions) (pm : PendingManager)
  : PendingManager * PendingRequest :=
  let request :=
    {| req_id := id;
       req_type := type;
       req_message := message;
       req_options := options ≫= co_options;
       req_sessionInfo := sessionInfo;
       req_discordMessageId := None;
       req_createdAt := now;
       req_timeout := JS.num_or (options ≫= co_timeout) (timeouts_defaultAsk cfg);
       req_noWait := JS.bool_or_false (options ≫= co_noWait) |} in
  let pm := with_requests (<[id := request]> (requests (pendingStore pm))) pm in
  let pm := savePendingStore pm in
  let pm :=
    with_requestToTerminal
      (<[id := {| ti_pid := si_pid sessionInfo;
                  ti_kittyWindowId := None;
                  ti_sessionId := si_sessionId sessionInfo;
                  ti_cwd := si_cwd sessionInfo;
                  ti_active := true |}]>
         (requestToTerminal (sessionStore pm))) pm in
  let pm := saveSessionStore pm in
  (pm, request).

(** [timeout] is recorded as it is passed to [setTimeout]; the delay that
    the runtime makes of it is [armed_delay]. *)
Definition startTimeout (requestId : string) (timeout : Z)
    (pm : PendingManager) : PendingManager :=
  let timer := {| tm_handle := next_handle pm;
                  tm_request := requestId;
                  tm_delay := timeout |} in
  {| pendingStore := pendingStore pm; sessionStore := sessionStore pm;
     timers := <[requestId := tm_handle timer]> (timers pm);
     scheduled := scheduled pm ++ [timer];
     next_handle := S (next_handle pm);
     disk := disk pm |}.

(** The runtime's [clearTimeout(handle)]. *)
Definition disarm (h : nat) (l : list Timer) : list Timer :=
  filter (fun t => tm_handle t ≠ h) l.

Definition clearTimeout (requestId : string) (pm : PendingManager)
  : PendingManager :=
  match timers pm !! requestId with
  | Some timer =>
      {| pendingStore := pendingStore pm; sessionStore := sessionStore pm;
         timers := delete requestId (timers pm);
         scheduled := disarm timer (scheduled pm);
         next_handle := next_handle pm;
         disk := disk pm |}
  | None => pm
  end.

Definition with_discordMessageId (mid : string) (r : PendingRequest) :=
  {| req_id := req_id r; req_type := req_type r; req_message := req_message r;
     req_options := req_options r; req_sessionInfo := req_sessionInfo r;
     req_discordMessageId := Some mid; req_createdAt := req_createdAt r;
     req_timeout := req_timeout r; req_noWait := req_noWait r |}.

Definition setDiscordMessageId (requestId discordMessageId : string)
    (pm : PendingManager) : PendingManager :=
  match requests (pendingStore pm) !! requestId with
  | Some request =>
      let request := with_discordMessageId discordMessageId request in
      let pm := with_requests
                  (<[requestId := request]> (requests (pendingStore pm))) pm in
      let pm := savePendingStore pm in
      let pm := with_messageToRequest
                  (<[discordMessageId := requestId]>
                     (messageToRequest (sessionStore pm))) pm in
      let pm := saveSessionStore pm in
      if bool_decide (req_type request = TAsk) && negb (req_noWait request)
      then startTimeout requestId (req_timeout request) pm
      else pm
  | None => pm
  end.

Definition getRequest (requestId : string) (pm : PendingManager)
  : option PendingRequest :=
  requests (pendingStore pm) !! requestId.

Definition getRequestByMessageId (discordMessageId : string)
    (pm : PendingManager) : option PendingRequest :=
  match messageToRequest (sessionStore pm) !! discordMessageId with
  | Some requestId =>
      if JS.truthy (Some requestId)
      then requests (pendingStore pm) !! requestId
      else None
  | None => None
  end.

Definition getTerminal (requestId : string) (pm : PendingManager)
  : option TerminalInfo :=
  requestToTerminal (sessionStore pm) !! requestId.

(** [setResponse(requestId, response)]; [now] and [now'] are the two
    readings of [Date.now()], for the stored and for the emitted record. *)
Definition setResponse (now now' : Z) (requestId response : string)
    (pm : PendingManager) : PendingManager * list Emitted :=
  let pm := clearTimeout requestId pm in
  let pm :=
    with_responses
      (<[requestId := {| res_requestId := requestId;
                         res_status := StAnswered;
                         res_response := Some response;
                         res_answeredAt := Some now;
                         res_error := None |}]>
         (responses (pendingStore pm))) pm in
  let pm := savePendingStore pm in
  (pm, [EmitResponse requestId response now']).

Definition handleTimeout (requestId : string) (pm : PendingManager)
  : PendingManager * list Emitted :=
  let pm :=
    {| pendingStore := pendingStore pm; sessionStore := sessionStore pm;
       timers := delete requestId (timers pm);
       scheduled := scheduled pm;
       next_handle := next_handle pm;
       disk := disk pm |} in
  let pm :=
    with_responses
      (<[requestId := {| res_requestId := requestId;
                         res_status := StTimeout;
                         res_response := None;
                         res_answeredAt := None;
                         res_error := None |}]>
         (responses (pendingStore pm))) pm in
  let pm := savePendingStore pm in
  (pm, [EmitTimeout requestId]).

(** The runtime fires the armed timer with handle [h]: the timer leaves the
    runtime's table and its callback runs.  A handle that is not armed
    fires nothing. *)
Definition fire (h : nat) (pm : PendingManager)
  : PendingManager * list Emitted :=
  match list_find (fun t => tm_handle t = h) (scheduled pm) with
  | Some (_, t) =>
      handleTimeout (tm_request t)
        {| pendingStore := pendingStore pm; sessionStore := sessionStore pm;
           timers := timers pm;
           scheduled := disarm h (scheduled pm);
           next_handle := next_handle pm;
           disk := disk pm |}
  | None => (pm, [])
  end.

Definition with_active (active : bool) (t : TerminalInfo) :=
  {| ti_pid := ti_pid t; ti_kittyWindowId := ti_kittyWindowId t;
     ti_sessionId := ti_sessionId t; ti_cwd := ti_cwd t;
     ti_active := active |}.

Definition updateTerminalActive (requestId : string) (active : bool)
    (pm : PendingManager) : PendingManager :=
  match requestToTerminal (sessionStore pm) !! requestId with
  | Some terminal =>
      saveSessionStore
        (with_requestToTerminal
           (<[requestId := with_active active terminal]>
              (requestToTerminal (sessionStore pm))) pm)
  | None => pm
  end.

Definition cleanup (requestId : string) (pm : PendingManager)
  : PendingManager :=
  let pm := clearTimeout requestId pm in
  let request := requests (pendingStore pm) !! requestId in
  let pm :=
    match request ≫= req_discordMessageId with
    | Some mid =>
        if JS.truthy (Some mid)
        then with_messageToRequest
               (delete mid (messageToRequest (sessionStore pm))) pm
        else pm
    | None => pm
    end in
  let pm := with_requests (delete requestId (requests (pendingStore pm))) pm in
  let pm := with_responses (delete requestId (responses (pendingStore pm))) pm in
  let pm := with_requestToTerminal
              (delete requestId (requestToTerminal (sessionStore pm))) pm in
  let pm := savePendingStore pm in
  saveSessionStore pm.

(** The recorded status of a request: that of its response entry, and
    [pending] while there is none. *)
Definition status (requestId : string) (pm : PendingManager) : PendingStatus :=
  match responses (pendingStore pm) !! requestId with
  | Some r => res_status r
  | None => StPending
  end.

(** The armed timers whose callback is [handleTimeout(requestId)]. *)
Definition live_timers (requestId : string) (pm : PendingManager) : list Timer :=
  filter (fun t => tm_request t = requestId) (scheduled pm).

(** ** [DiscordHandler] ([src/daemon/discord.ts]) *)

(** What the handlers read of a Discord [Message]. *)
Record Message := {
  msg_author_bot : bool;                      (* [message.author.bot] *)
  msg_channel_isDMBased : bool;               (* [message.channel.isDMBased()] *)
  msg_author_id : string;                     (* [message.author.id] *)
  msg_reference_messageId : option string;    (* [message.reference?.messageId] *)
  msg_content : string                        (* [message.content] *)
}.

Record ButtonInteraction := {
  customId : string
}.

(** Effects of a handler, in program order: events of the manager, calls
    to the outside ([interaction.update], [resumeAndInject]), and the death
    of the daemon's process, after which nothing follows.  A failure of
    [interaction.update] is caught by [handleButton]. *)
Inductive Output :=
| Emit (e : Emitted)
| InteractionUpdate (label : string)
| ResumeAndInject (sessionId cwd message : string)
| DaemonDies.

(** How [await this.resumeAndInject(..)] ends.  The function catches what
    its body throws, but [spawn("kitty", ..)] reports a program that cannot
    be started (no [kitty] executable) by an ["error"] event of the child
    process, for which no listener is registered: the event is raised as an
    uncaught exception while [resumeAndInject] waits its 3000 ms, and the
    daemon dies there. *)
Inductive Resume :=
| Returns
| Dies.

Module DiscordHandler.

(** [processResponse] up to the point where it either suspends on
    [await this.resumeAndInject(sessionId, cwd, response)] (the result
    carries [sessionId] and [cwd]) or goes on to [setResponse].
    [alive] is [isProcessAlive]. *)
Definition processResponse_head (alive : Z -> bool) (requestId : string)
    (pm : PendingManager) : PendingManager * option (string * string) :=
  match getTerminal requestId pm with
  | Some terminal =>
      if negb (alive (ti_pid terminal))
      then
        let pm := updateTerminalActive requestId false pm in
        if JS.truthy (ti_sessionId terminal)
        then (pm, (fun sid => (sid, ti_cwd terminal)) <$> ti_sessionId terminal)
        else (pm, None)
      else (pm, None)
  | None => (pm, None)
  end.

(** [processResponse] when nothing else runs while it is suspended;
    [resume] is how [resumeAndInject] ends if it is called. *)
Definition processResponse (resume : Resume) (alive : Z -> bool) (now now' : Z)
    (requestId response : string) (pm : PendingManager)
  : PendingManager * list Output :=
  let '(pm, attempt) := processResponse_head alive requestId pm in
  match attempt with
  | Some (sessionId, cwd) =>
      match resume with
      | Returns =>
          let '(pm, evs) := setResponse now now' requestId response pm in
          (pm, ResumeAndInject sessionId cwd response :: (Emit <$> evs))
      | Dies => (pm, [ResumeAndInject sessionId cwd response; DaemonDies])
      end
  | None =>
      let '(pm, evs) := setResponse now now' requestId response pm in
      (pm, Emit <$> evs)
  end.

(** The checks of [handleMessage]: the request a message answers, if the
    message passes all of them. *)
Definition handleMessage_head (userId : string) (message : Message)
    (pm : PendingManager) : option PendingRequest :=
  if msg_author_bot message then None
  else if negb (msg_channel_isDMBased message) then None
  else if negb (String.eqb (msg_author_id message) userId) then None
  else if negb (JS.truthy (msg_reference_messageId message)) then None
  else msg_reference_messageId message ≫= fun originalMessageId =>
       getRequestByMessageId originalMessageId pm.

Definition handleMessage (userId : string) (resume : Resume)
    (alive : Z -> bool) (now now' : Z)
    (message : Message) (pm : PendingManager)
  : PendingManager * list Output :=
  match handleMessage_head userId message pm with
  | Some request =>
      processResponse resume alive now now' (req_id request)
        (msg_content message) pm
  | None => (pm, [])
  end.

(** The checks of [handleButton]: the request id and the answer of a
    click that passes all of them. *)
Definition handleButton_head (interaction : ButtonInteraction)
    (pm : PendingManager) : option (string * string) :=
  match JS.split ":" (customId interaction) with
  | [p0; requestId; optionIndexStr] =>
      if negb (String.eqb p0 "req") then None
      else
        let optionIndex := JS.parseInt optionIndexStr in
        match getRequest requestId pm with
        | Some request =>
            match req_options request with
            | Some options =>
                match JS.index options optionIndex with
                | Some response =>
                    if JS.truthy (Some response)
                    then Some (requestId, response)
                    else None
                | None => None
                end
            | None => None
            end
        | None => None
        end
  | _ => None
  end.

(** [handleButton] when nothing else runs while it is suspended on
    [interaction.update]. *)
Definition handleButton (resume : Resume) (alive : Z -> bool) (now now' : Z)
    (interaction : ButtonInteraction) (pm : PendingManager)
  : PendingManager * list Output :=
  match handleButton_head interaction pm with
  | Some (requestId, response) =>
      let '(pm, out) :=
        processResponse resume alive now now' requestId response pm in
      (pm, InteractionUpdate response :: out)
  | None => (pm, [])
  end.

End DiscordHandler.

(** ** [Server] and the protocol messages *)

Inductive ClientMessage :=
| CSend (message : string) (sessionInfo : SessionInfo)
| CAsk (message : string) (options : option (list string))
       (sessionInfo : SessionInfo) (timeout : option Z) (noWait : bool)
| CStatus (requestId : string)
| CCancel (requestId : string).

Inductive ServerMessage :=
| Ack (requestId discordMessageId : string)
| Response (requestId response : string) (answeredAt : Z)
| Timeout (requestId : string)
| Error (requestId : option string) (code message : string).

(** A line received on a socket, as [JSON.parse] and the [switch] on
    [message.type] see it. *)
Inductive Line :=
| BadJson
| UnknownType
| Msg (m : ClientMessage).

(** A [Socket] object is identified by a number. *)
Record ConnectedClient := {
  cl_socket : nat;
  cl_requestId : option string
}.

(** A handler suspended on an [await] of an outside call. *)
Inductive Continuation :=
| AwaitSendMessage (socket : nat) (requestId : string)
| AwaitUpdate (requestId response : string)
| AwaitResume (requestId response : string).

#[global] Instance Continuation_eq_dec : EqDecision Continuation.
Proof. solve_decision. Defined.

Record Server := {
  clients : list ConnectedClient;       (* [Map<Socket, ConnectedClient>], in insertion order *)
  pendingManager : PendingManager;
  wire : list (nat * ServerMessage);    (* the calls of [socket.write], oldest first *)
  awaiting : list Continuation          (* the suspended handlers *)
}.

Module Server.

Definition with_pendingManager (pm : PendingManager) (s : Server) :=
  {| clients := clients s; pendingManager := pm;
     wire := wire s; awaiting := awaiting s |}.

Definition with_clients (cs : list ConnectedClient) (s : Server) :=
  {| clients := cs; pendingManager := pendingManager s;
     wire := wire s; awaiting := awaiting s |}.

Definition with_awaiting (ks : list Continuation) (s : Server) :=
  {| clients := clients s; pendingManager := pendingManager s;
     wire := wire s; awaiting := ks |}.

Definition send (socket : nat) (message : ServerMessage) (s : Server) :=
  {| clients := clients s; pendingManager := pendingManager s;
     wire := wire s ++ [(socket, message)]; awaiting := awaiting s |}.

(** [new Server(config)]. *)
Definition new (cfg : Config) (h0 : nat) (d : Disk) : Result Server :=
  bind (PendingManager_new cfg h0 d) (fun pm =>
  Ok {| clients := []; pendingManager := pm; wire := []; awaiting := [] |}).

Definition notifyClient (requestId : string) (message : ServerMessage)
    (s : Server) : Server :=
  match list_find (fun c => cl_requestId c = Some requestId) (clients s) with
  | Some (_, client) => send (cl_socket client) message s
  | None => s
  end.

(** The listeners registered in the constructor. *)
Definition forward (e : Emitted) (s : Server) : Server :=
  match e with
  | EmitResponse requestId response answeredAt =>
      notifyClient requestId (Response requestId response answeredAt) s
  | EmitTimeout requestId =>
      notifyClient requestId (Timeout requestId) s
  end.

Definition forward_all (evs : list Emitted) (s : Server) : Server :=
  foldl (fun s e => forward e s) s evs.

(** [clients.set(socket, { socket })]. *)
Fixpoint map_set (socket : nat) (c : ConnectedClient)
    (cs : list ConnectedClient) : list ConnectedClient :=
  match cs with
  | [] => [c]
  | c' :: cs' =>
      if decide (cl_socket c' = socket) then c :: cs'
      else c' :: map_set socket c cs'
  end.

Definition handleConnection (socket : nat) (s : Server) : Server :=
  with_clients
    (map_set socket {| cl_socket := socket; cl_requestId := None |} (clients s)) s.

(** The socket's ["close"] and ["error"] listeners. *)
Definition handleClose (socket : nat) (s : Server) : Server :=
  with_clients (filter (fun c => cl_socket c ≠ socket) (clients s)) s.

(** [handleSend] up to [await this.discordHandler.sendMessage(request)]. *)
Definition handleSend_head (cfg : Config) (id : string) (now : Z)
    (socket : nat) (message : string) (sessionInfo : SessionInfo)
    (s : Server) : Server :=
  let '(pm, request) :=
    createRequest cfg id now TSend message sessionInfo
      (Some {| co_options := None; co_timeout := None; co_noWait := Some true |})
      (pendingManager s) in
  let s := with_pendingManager pm s in
  with_awaiting (awaiting s ++ [AwaitSendMessage socket (req_id request)]) s.

(** [handleAsk] up to [await this.discordHandler.sendMessage(request)]. *)
Definition handleAsk_head (cfg : Config) (id : string) (now : Z)
    (socket : nat) (message : string) (options : option (list string))
    (sessionInfo : SessionInfo) (timeout : option Z) (noWait : bool)
    (s : Server) : Server :=
  let '(pm, request) :=
    createRequest cfg id now TAsk message sessionInfo
      (Some {| co_options := options; co_timeout := timeout;
               co_noWait := Some noWait |})
      (pendingManager s) in
  let s := with_pendingManager pm s in
  let s :=
    with_clients
      ((fun c => if decide (cl_socket c = socket)
                 then {| cl_socket := cl_socket c;
                         cl_requestId := Some (req_id request) |}
                 else c) <$> clients s) s in
  with_awaiting (awaiting s ++ [AwaitSendMessage socket (req_id request)]) s.

(** The rest of [handleSend] and of [handleAsk], once [sendMessage] has
    returned the id of the delivered message. *)
Definition handle_delivered (socket : nat) (requestId discordMessageId : string)
    (s : Server) : Server :=
  let s := with_pendingManager
             (setDiscordMessageId requestId discordMessageId (pendingManager s)) s in
  send socket (Ack requestId discordMessageId) s.

(** [sendMessage] threw: the [catch] of [handleMessage] reports it. *)
Definition handle_failed (socket : nat) (errmsg : string) (s : Server) : Server :=
  send socket (Error None "INTERNAL_ERROR" errmsg) s.

Definition handleStatus (socket : nat) (requestId : string) (s : Server) : Server :=
  match getRequest requestId (pendingManager s) with
  | None => send socket (Error (Some requestId) "NOT_FOUND" "Request not found") s
  | Some _ => s
  end.

Definition handleCancel (socket : nat) (requestId : string) (s : Server) : Server :=
  let s := with_pendingManager (cleanup requestId (pendingManager s)) s in
  send socket (Ack requestId "") s.

(** [handleMessage(socket, raw)] up to its first suspension. *)
Definition handleMessage (cfg : Config) (id : string) (now : Z)
    (socket : nat) (raw : Line) (s : Server) : Server :=
  match raw with
  | BadJson => send socket (Error None "PARSE_ERROR" "Invalid JSON") s
  | UnknownType => send socket (Error None "UNKNOWN_TYPE" "Unknown message type") s
  | Msg (CSend message sessionInfo) =>
      handleSend_head cfg id now socket message sessionInfo s
  | Msg (CAsk message options sessionInfo timeout noWait) =>
      handleAsk_head cfg id now socket message options sessionInfo timeout noWait s
  | Msg (CStatus requestId) => handleStatus socket requestId s
  | Msg (CCancel requestId) => handleCancel socket requestId s
  end.

End Server.

(** ** The daemon as a transition system

    All state of the daemon is changed by handlers that run to completion
    between two suspension points.  An [Event] is one such run: a socket
    event, a Discord event, a timer firing, or the completion of an outside
    call on which a handler was suspended. *)

Inductive Event :=
| Connect (socket : nat)
| Disconnect (socket : nat)
  (* a line arrives; [id] and [now] are the readings of [randomUUID()] and
     [Date.now()] that [createRequest] takes if the line is a send or an ask *)
| Receive (socket : nat) (raw : Line) (id : string) (now : Z)
  (* [sendMessage] returned or threw for a suspended [handleSend]/[handleAsk] *)
| Delivered (socket : nat) (requestId discordMessageId : string)
| DeliveryFailed (socket : nat) (requestId errmsg : string)
  (* [messageCreate] and [interactionCreate] of the Discord client *)
| MessageCreate (message : Message) (alive : Z -> bool) (now now' : Z)
| InteractionCreate (interaction : ButtonInteraction)
  (* [interaction.update] settled for a suspended [handleButton] *)
| UpdateDone (requestId response : string) (alive : Z -> bool) (now now' : Z)
  (* [resumeAndInject] returned for a suspended [processResponse]; if the
     daemon dies there instead, the run ends with the handler suspended *)
| ResumeDone (requestId response : string) (now now' : Z)
| TimerFires (handle : nat).

Module Daemon.

(** Takes the suspended handler [k] out of the list, if it is there. *)
Fixpoint take (k : Continuation) (ks : list Continuation)
  : option (list Continuation) :=
  match ks with
  | [] => None
  | k' :: ks' =>
      if decide (k' = k) then Some ks' else (k' ::.) <$> take k ks'
  end.

Definition awaits_delivery (requestId : string) (k : Continuation) : bool :=
  match k with
  | AwaitSendMessage _ r => bool_decide (r = requestId)
  | _ => false
  end.

(** [randomUUID()] returns an id that is in use nowhere. *)
Definition fresh (id : string) (s : Server) : bool :=
  bool_decide (requests (pendingStore (pendingManager s)) !! id = None)
  && bool_decide (timers (pendingManager s) !! id = None)
  && forallb (fun k => negb (awaits_delivery id k)) (awaiting s)
  && forallb (fun c => negb (bool_decide (cl_requestId c = Some id))) (clients s).

Definition creates (raw : Line) : bool :=
  match raw with
  | Msg (CSend _ _) | Msg (CAsk _ _ _ _ _) => true
  | _ => false
  end.

(** [setResponse] with the manager's listeners run. *)
Definition record (now now' : Z) (requestId response : string) (s : Server)
  : Server :=
  let '(pm, evs) := setResponse now now' requestId response (pendingManager s) in
  Server.forward_all evs (Server.with_pendingManager pm s).

(** [processResponse] from its start to its end or to its suspension. *)
Definition answer (alive : Z -> bool) (now now' : Z)
    (requestId response : string) (s : Server) : Server :=
  let '(pm, resume) :=
    DiscordHandler.processResponse_head alive requestId (pendingManager s) in
  let s := Server.with_pendingManager pm s in
  match resume with
  | Some _ =>
      Server.with_awaiting (awaiting s ++ [AwaitResume requestId response]) s
  | None => record now now' requestId response s
  end.

(** One event; [None] when the event cannot happen in state [s]. *)
Definition step (cfg : Config) (e : Event) (s : Server) : option Server :=
  match e with
  | Connect socket => Some (Server.handleConnection socket s)
  | Disconnect socket => Some (Server.handleClose socket s)
  | Receive socket raw id now =>
      if creates raw && negb (fresh id s) then None
      else Some (Server.handleMessage cfg id now socket raw s)
  | Delivered socket requestId discordMessageId =>
      ks ← take (AwaitSendMessage socket requestId) (awaiting s);
      Some (Server.handle_delivered socket requestId discordMessageId
              (Server.with_awaiting ks s))
  | DeliveryFailed socket requestId errmsg =>
      ks ← take (AwaitSendMessage socket requestId) (awaiting s);
      Some (Server.handle_failed socket errmsg (Server.with_awaiting ks s))
  | MessageCreate message alive now now' =>
      match DiscordHandler.handleMessage_head (discord_userId cfg) message
              (pendingManager s) with
      | Some request =>
          Some (answer alive now now' (req_id request) (msg_content message) s)
      | None => Some s
      end
  | InteractionCreate interaction =>
      match DiscordHandler.handleButton_head interaction (pendingManager s) with
      | Some (requestId, response) =>
          Some (Server.with_awaiting
                  (awaiting s ++ [AwaitUpdate requestId response]) s)
      | None => Some s
      end
  | UpdateDone requestId response alive now now' =>
      ks ← take (AwaitUpdate requestId response) (awaiting s);
      Some (answer alive now now' requestId response (Server.with_awaiting ks s))
  | ResumeDone requestId response now now' =>
      ks ← take (AwaitResume requestId response) (awaiting s);
      Some (record now now' requestId response (Server.with_awaiting ks s))
  | TimerFires handle =>
      match list_find (fun t => tm_handle t = handle)
              (scheduled (pendingManager s)) with
      | Some _ =>
          let '(pm, evs) := fire handle (pendingManager s) in
          Some (Server.forward_all evs (Server.with_pendingManager pm s))
      | None => None
      end
  end.

Fixpoint run (cfg : Config) (es : list Event) (s : Server) : option Server :=
  match es with
  | [] => Some s
  | e :: es' => s' ← step cfg e s; run cfg es' s'
  end.

(** What has been written to [socket], oldest first. *)
Definition received (socket : nat) (s : Server) : list ServerMessage :=
  snd <$> filter (fun w => fst w = socket) (wire s).

End Daemon.

(** ** Specification-side definitions and sample data *)

(** The store the specification expects from a backing file: its content
    when it parses, the empty store otherwise. *)
Definition spec_load {A} (empty : A) (f : File A) : A :=
  match f with
  | Holds a => a
  | _ => empty
  end.

Definition with_maxAsk (m : Z) (cfg : Config) : Config :=
  {| socketPath := socketPath cfg; dataDir := dataDir cfg;
     discord_token := discord_token cfg; discord_userId := discord_userId cfg;
     timeouts_defaultAsk := timeouts_defaultAsk cfg;
     timeouts_maxAsk := m |}.

(** The response entry that [setResponse] writes. *)
Definition answered_with (requestId response : string) (now : Z) : PendingResponse :=
  {| res_requestId := requestId; res_status := StAnswered;
     res_response := Some response; res_answeredAt := Some now;
     res_error := None |}.

Module Sample.

(** [DEFAULT_CONFIG] of [src/shared/config.ts], for user 42. *)
Definition cfg : Config :=
  {| socketPath := "/tmp/discord-notify.sock";
     dataDir := "/home/u/.discord-notify";
     discord_token := "token";
     discord_userId := "42";
     timeouts_defaultAsk := 300000;
     timeouts_maxAsk := 3600000 |}.

Definition session : SessionInfo :=
  {| si_pid := 100; si_sessionId := Some "sess"; si_sessionName := None;
     si_cwd := "/work"; si_projectName := None |}.

Definition no_files : Disk :=
  {| pendingFile := Missing; sessionsFile := Missing |}.

(** A manager started on an empty data directory. *)
Definition pm0 : PendingManager :=
  {| pendingStore := emptyPendingStore; sessionStore := emptySessionStore;
     timers := ∅; scheduled := []; next_handle := 0; disk := no_files |}.

Definition srv0 : Server :=
  {| clients := []; pendingManager := pm0; wire := []; awaiting := [] |}.

Definition everyone_alive : Z -> bool := fun _ => true.

(** [ask "Deploy now?" --options "Yes,No"], created as request [r1] and
    delivered as Discord message [m1]. *)
Definition ask_deploy : ClientMessage :=
  CAsk "Deploy now?" (Some ["Yes"; "No"]) session (Some 300000%Z) false.

Definition pm_created : PendingManager :=
  fst (createRequest cfg "r1" 1000 TAsk "Deploy now?" session
         (Some {| co_options := Some ["Yes"; "No"];
                  co_timeout := Some 300000%Z;
                  co_noWait := Some false |}) pm0).

Definition pm_asked : PendingManager :=
  setDiscordMessageId "r1" "m1" pm_created.

(** A reply of the configured user to message [mid]. *)
Definition reply_to (mid text : string) : Message :=
  {| msg_author_bot := false; msg_channel_isDMBased := true;
     msg_author_id := "42"; msg_reference_messageId := Some mid;
     msg_content := text |}.

(** A request whose first option label is empty. *)
Definition pm_blank_label : PendingManager :=
  fst (createRequest cfg "r2" 1000 TAsk "Pick" session
         (Some {| co_options := Some [""; "No"];
                  co_timeout := None;
                  co_noWait := Some false |}) pm0).

End Sample.

(** [processResponse] calls [resumeAndInject] for the request: the process
    of its terminal entry is not alive and the entry has a non-empty session
    id. *)
Definition attempts_resume (alive : Z -> bool) (requestId : string)
    (pm : PendingManager) : bool :=
  match getTerminal requestId pm with
  | Some terminal => negb (alive (ti_pid terminal)) && JS.truthy (ti_sessionId terminal)
  | None => false
  end.

(** A button click selects answer [label] of request [requestId]: the
    token has the shape [req:<requestId>:<index>], the request is stored
    with an options list, and the label at the index is a non-empty string. *)
Inductive selects (interaction : ButtonInteraction) (pm : PendingManager)
    (requestId label : string) : Prop :=
| Selects (optionIndexStr : string) (request : PendingRequest) (options : list string) :
    JS.split ":" (customId interaction) = ["req"; requestId; optionIndexStr] →
    getRequest requestId pm = Some request →
    req_options request = Some options →
    JS.index options (JS.parseInt optionIndexStr) = Some label →
    label ≠ "" →
    selects interaction pm requestId label.

(** The timer discipline: every armed timer is the one registered in
    [timers] under its request id, and handles are not reused. *)
Definition timers_ok (pm : PendingManager) : Prop :=
  (∀ t, t ∈ scheduled pm →
        timers pm !! tm_request t = Some (tm_handle t)
        ∧ tm_handle t < next_handle pm)
  ∧ NoDup (tm_handle <$> scheduled pm).

(** The request whose delivery a suspended handler waits for. *)
Definition delivery_of (k : Continuation) : option string :=
  match k with
  | AwaitSendMessage _ requestId => Some requestId
  | _ => None
  end.

(** The write that [notifyClient] makes, if any. *)
Definition notified (requestId : string) (message : ServerMessage) (s : Server)
  : list (nat * ServerMessage) :=
  match list_find (λ c, cl_requestId c = Some requestId) (clients s) with
  | Some (_, client) => [(cl_socket client, message)]
  | None => []
  end.

(** Every Timeout written to a socket comes after an Ack of the same
    request written to the same socket. *)
Definition ack_precedes_timeout (w : list (nat * ServerMessage)) : Prop :=
  ∀ i k rid, w !! i = Some (k, Timeout rid) →
             ∃ j mid, j < i ∧ w !! j = Some (k, Ack rid mid).

(** The invariant of the daemon's runs. *)
Record daemon_inv (s : Server) : Prop := {
  inv_timers : timers_ok (pendingManager s);
  inv_await_timer :
    ∀ k rid, AwaitSendMessage k rid ∈ awaiting s →
             timers (pendingManager s) !! rid = None;
  inv_await_nodup : NoDup (omap delivery_of (awaiting s));
  inv_acked :
    ∀ t, t ∈ scheduled (pendingManager s) →
         ∃ k mid, (k, Ack (tm_request t) mid) ∈ wire s
                  ∧ ∀ c, c ∈ clients s →
                         cl_requestId c = Some (tm_request t) → cl_socket c = k;
  inv_bound :
    ∀ c k rid, c ∈ clients s → cl_requestId c = Some rid →
               AwaitSendMessage k rid ∈ awaiting s → cl_socket c = k;
  inv_wire : ack_precedes_timeout (wire s)
}.

(** The event hands out [rid] as the id of a new request. *)
Definition creates_id (rid : string) (e : Event) : bool :=
  match e with
  | Receive _ raw id _ => Daemon.creates raw && bool_decide (id = rid)
  | _ => false
  end.

Module Trace.

(** One Ask on connection 1, delivered as message [m1], whose timer fires
    before the user's reply to [m1] arrives. *)
Definition late_reply : list Event :=
  [Connect 1;
   Receive 1 (Msg Sample.ask_deploy) "r1" 1000;
   Delivered 1 "r1" "m1";
   TimerFires 0;
   MessageCreate (Sample.reply_to "m1" "Yes") Sample.everyone_alive 2000 2001].

(** One Ask on connection 1 whose button is clicked, and the click handled,
    before [sendMessage] has returned. *)
Definition early_click : list Event :=
  [Connect 1;
   Receive 1 (Msg Sample.ask_deploy) "r1" 1000;
   InteractionCreate {| customId := "req:r1:1" |};
   UpdateDone "r1" "No" Sample.everyone_alive 1500 1501;
   Delivered 1 "r1" "m1"].

(** One Ask on connection 1, delivered and waiting for its answer. *)
Definition asked : list Event :=
  [Connect 1;
   Receive 1 (Msg Sample.ask_deploy) "r1" 1000;
   Delivered 1 "r1" "m1"].

Definition after (es : list Event) : Server :=
  default Sample.srv0 (Daemon.run Sample.cfg es Sample.srv0).

(** The daemon restarted on the files left by [asked]. *)
Definition restarted : Server :=
  {| clients := [];
     pendingManager :=
       {| pendingStore :=
            spec_load emptyPendingStore (pendingFile (disk (pendingManager (after asked))));
          sessionStore :=
            spec_load emptySessionStore (sessionsFile (disk (pendingManager (after asked))));
          timers := ∅; scheduled := []; next_handle := 0;
          disk := disk (pendingManager (after asked)) |};
     wire := []; awaiting := [] |}.

End Trace.

(** The files can be read back and hold the stores: a manager constructed
    on the current files would load exactly the current request, response,
    index and terminal maps. *)
Definition persisted (pm : PendingManager) : Prop :=
  pendingFile (disk pm) ≠ Unreadable
  ∧ sessionsFile (disk pm) ≠ Unreadable
  ∧ loadPendingStore (disk pm) = Ok (pendingStore pm)
  ∧ loadSessionStore (disk pm) = Ok (sessionStore pm).

(** ** Line framing ([handleConnection] of the server, [connect] of the client) *)

Module Lines.

Definition newline : ascii := ascii_of_nat 10.

(** [s.trim()], for the white space of code units below 256. *)
Definition trim (s : string) : string :=
  String.rev (JS.skip_space (String.rev (JS.skip_space s))).

(** The ["data"] listener: [buffer += data.toString()], split at the
    newlines, keep the last piece as the new buffer, and handle every other
    piece that is not blank.  The result is the list of lines handled, in
    order, and the new buffer; [data] is the text that [toString] returns
    for one chunk. *)
Definition on_data (buffer data : string) : list string * string :=
  let buffer := buffer +:+ data in
  let lines := JS.split newline buffer in
  let buffer :=
    match last lines with
    | Some l => if JS.truthy (Some l) then l else ""
    | None => ""
    end in
  (filter (λ line, JS.truthy (Some (trim line))) (removelast lines), buffer).

(** A chunk as the socket delivers it: the bytes of a [Buffer]. *)
Definition Buffer : Type := list Byte.byte.

(** The listener run on a sequence of chunks.  [toString] is
    [data.toString()]: it decodes the bytes of one chunk on their own, as
    UTF-8, so that a character whose bytes are cut by the end of the chunk
    is not decoded as that character. *)
Fixpoint on_chunks (toString : Buffer → string) (buffer : string)
    (chunks : list Buffer) : list string * string :=
  match chunks with
  | [] => ([], buffer)
  | data :: chunks =>
      let '(handled, buffer) := on_data buffer (toString data) in
      let '(handled', buffer) := on_chunks toString buffer chunks in
      (handled ++ handled', buffer)
  end.

(** The pieces of [s] between the occurrences of [c], by recursion on [s]. *)
Fixpoint pieces (c : ascii) (s : string) : list string :=
  match s with
  | EmptyString => [""]
  | String a s' =>
      if Ascii.eqb a c then "" :: pieces c s'
      else match pieces c s' with
           | p :: ps => String a p :: ps
           | [] => [String a ""]
           end
  end.

(** [c] does not occur in [s]. *)
Fixpoint free_of (c : ascii) (s : string) : bool :=
  match s with
  | EmptyString => true
  | String a s' => negb (Ascii.eqb a c) && free_of c s'
  end.

Definition concat (l : list string) : string := foldr String.append "" l.

End Lines.

(** ** Configuration ([src/shared/config.ts]) and start-up of the daemon *)

Module ConfigFile.

(** What [loadConfig] reads of a parsed configuration file; [fc_userId] is
    [fileConfig.discord?.userId], the two timeouts are
    [fileConfig.timeouts?.defaultAsk] and [fileConfig.timeouts?.maxAsk]. *)
Record FileConfig := {
  fc_socketPath : option string;
  fc_dataDir : option string;
  fc_userId : option string;
  fc_defaultAsk : option Z;
  fc_maxAsk : option Z
}.

(** The value of [JSON.parse]: [null], on which a property access throws,
    or any other value, of which only the properties above are read. *)
Inductive ConfigJson :=
| JNull
| JObject (c : FileConfig).

Definition empty : FileConfig :=
  {| fc_socketPath := None; fc_dataDir := None; fc_userId := None;
     fc_defaultAsk := None; fc_maxAsk := None |}.

(** The environment of [loadConfig]: the files at [configPaths], in order,
    [process.env.DISCORD_TOKEN], the default data directory
    [join(homedir(), ".discord-notify")] and the directories that exist. *)
Record Env := {
  config_files : list (File ConfigJson);
  DISCORD_TOKEN : option string;
  default_dataDir : string;
  dir_exists : string → bool
}.

(** [s || d] on [string | undefined]. *)
Definition str_or (o : option string) (d : string) : string :=
  match o with
  | Some s => if JS.truthy (Some s) then s else d
  | None => d
  end.

(** The loop of [loadConfig]: the first file that exists, can be read and
    parses becomes [fileConfig]; [{}] when there is none. *)
Fixpoint scan (files : list (File ConfigJson)) : ConfigJson :=
  match files with
  | [] => JObject empty
  | f :: files =>
      if existsSync f
      then match bind (readFileSync f) JSON_parse with
           | Ok fileConfig => fileConfig
           | Throw => scan files
           end
      else scan files
  end.

(** [loadConfig()]: the configuration, and the directory that [mkdirSync]
    creates, if any. *)
Definition loadConfig (env : Env) : Result (Config * option string) :=
  let fileConfig := scan (config_files env) in
  match DISCORD_TOKEN env with
  | Some token =>
      if negb (JS.truthy (Some token)) then Throw
      else
        match fileConfig with
        | JNull => Throw
        | JObject c =>
            let config :=
              {| socketPath := str_or (fc_socketPath c) "/tmp/discord-notify.sock";
                 dataDir := str_or (fc_dataDir c) (default_dataDir env);
                 discord_token := token;
                 discord_userId := str_or (fc_userId c) "";
                 timeouts_defaultAsk := JS.num_or (fc_defaultAsk c) 300000;
                 timeouts_maxAsk := JS.num_or (fc_maxAsk c) 3600000 |} in
            Ok (config,
                if dir_exists env (dataDir config) then None
                else Some (dataDir config))
        end
  | None => Throw
  end.

(** [loadConfigForCLI()]: the socket path. *)
Fixpoint loadConfigForCLI_from (files : list (File ConfigJson)) : string :=
  match files with
  | [] => "/tmp/discord-notify.sock"
  | f :: files =>
      if existsSync f
      then match bind (readFileSync f) JSON_parse with
           | Ok (JObject c) => str_or (fc_socketPath c) "/tmp/discord-notify.sock"
           | Ok JNull | Throw => loadConfigForCLI_from files
           end
      else loadConfigForCLI_from files
  end.

Definition loadConfigForCLI (env : Env) : string :=
  loadConfigForCLI_from (config_files env).

(** How [main] of the daemon ends: [process.exit(1)], or [new
    Server(config)] and [server.start()] are reached. *)
Inductive Startup :=
| Exit (code : Z)
| Serve (config : Config).

Definition main (env : Env) : Startup :=
  match loadConfig env with
  | Ok (config, _) =>
      if negb (JS.truthy (Some (discord_userId config))) then Exit 1
      else Serve config
  | Throw => Exit 1
  end.

End ConfigFile.

(** ** The buttons of [sendMessage] ([src/daemon/discord.ts]) *)

Module Buttons.

(** The text of a non-negative integer in a template string. *)
Definition decimal (n : nat) : string :=
  DecimalString.NilEmpty.string_of_uint (Nat.to_uint n).

(** [`req:${request.id}:${index}`]. *)
Definition customId_for (requestId : string) (index : nat) : string :=
  "req:" +:+ requestId +:+ ":" +:+ decimal index.

Record Button := {
  b_customId : string;
  b_label : string
}.

(** [new ButtonBuilder().setCustomId(customId).setLabel(label)]: the
    setters of discord.js check their argument and throw on a custom id that
    is not 1 to 100 characters long and on a label that is not 1 to 80
    characters long. *)
Definition ButtonBuilder (customId label : string) : Result Button :=
  if (1 <=? String.length customId)%nat && (String.length customId <=? 100)%nat
     && (1 <=? String.length label)%nat && (String.length label <=? 80)%nat
  then Ok {| b_customId := customId; b_label := label |}
  else Throw.

(** The loop [request.options.forEach((option, index) =>
    row.addComponents(..))] from index [index] on: the buttons of the row,
    labelled [option.slice(0, 80)], or the exception of a builder. *)
Fixpoint addComponents (request : PendingRequest) (index : nat)
    (options : list string) : Result (list Button) :=
  match options with
  | [] => Ok []
  | option :: options =>
      bind (ButtonBuilder (customId_for (req_id request) index)
              (String.substring 0 80 option)) (λ button,
      bind (addComponents request (S index) options) (λ buttons,
      Ok (button :: buttons)))
  end.

(** [messageOptions.components] as [sendMessage] has it when it calls
    [dm.send]: absent unless the request has at least one option.  [Throw]
    when a builder throws: [sendMessage] then sends nothing. *)
Definition components (request : PendingRequest) : Result (option (list Button)) :=
  match req_options request with
  | Some options =>
      if (0 <? length options)%nat
      then bind (addComponents request 0 options) (λ row, Ok (Some row))
      else Ok None
  | None => Ok None
  end.

(** The row of a request all of whose builders succeed: one button per
    option, in the order of the options. *)
Definition row (request : PendingRequest) (options : list string) : list Button :=
  imap (λ index option,
          {| b_customId := customId_for (req_id request) index;
             b_label := String.substring 0 80 option |}) options.

End Buttons.

(** ** Kitty remote control (the two versions of [KittyControl]) *)

Module Kitty.

(** What [findWindowByPid] reads of the output of [kitty @ ls]. *)
Record KittyWindow := {
  w_id : Z;
  w_pid : Z;
  w_foreground_processes : option (list Z)   (* the pids; absent is [|| []] *)
}.

Record KittyTab := {
  t_id : Z;
  t_windows : list KittyWindow
}.

Record KittyOsWindow := {
  os_tabs : list KittyTab
}.

(** The test on one window: its own pid, or the pid of one of its
    foreground processes. *)
Definition runs (pid : Z) (w : KittyWindow) : bool :=
  (w_pid w =? pid)%Z
  || existsb (λ fg, (fg =? pid)%Z) (default [] (w_foreground_processes w)).

(** The three nested loops: the first window, in document order, that
    passes the test, as [(windowId, tabId)]. *)
Fixpoint in_windows (pid : Z) (tabId : Z) (ws : list KittyWindow)
  : option (Z * Z) :=
  match ws with
  | [] => None
  | w :: ws => if runs pid w then Some (w_id w, tabId) else in_windows pid tabId ws
  end.

Fixpoint in_tabs (pid : Z) (tabs : list KittyTab) : option (Z * Z) :=
  match tabs with
  | [] => None
  | tab :: tabs =>
      match in_windows pid (t_id tab) (t_windows tab) with
      | Some r => Some r
      | None => in_tabs pid tabs
      end
  end.

Fixpoint search (pid : Z) (osWindows : list KittyOsWindow) : option (Z * Z) :=
  match osWindows with
  | [] => None
  | osWindow :: osWindows =>
      match in_tabs pid (os_tabs osWindow) with
      | Some r => Some r
      | None => search pid osWindows
      end
  end.

(** [findWindowByPid] of the version with one connection: [available] is
    [isAvailable()], [ls] the parsed output of [kitty @ ls], or the failure
    of the command or of [JSON.parse]. *)
Definition findWindowByPid (available : bool)
    (ls : Result (list KittyOsWindow)) (pid : Z) : option (Z * Z) :=
  if negb available then None
  else match ls with
       | Ok osWindows => search pid osWindows
       | Throw => None
       end.

(** [findWindowByPid] of the version that searches all sockets: each socket
    comes with the outcome of [kitty @ --to unix:<socket> ls]; a socket that
    does not answer is skipped. *)
Fixpoint findWindowByPid_sockets
    (sockets : list (string * Result (list KittyOsWindow))) (pid : Z)
  : option (string * Z * Z) :=
  match sockets with
  | [] => None
  | (socketPath, ls) :: sockets =>
      match ls with
      | Ok osWindows =>
          match search pid osWindows with
          | Some (windowId, tabId) => Some (socketPath, windowId, tabId)
          | None => findWindowByPid_sockets sockets pid
          end
      | Throw => findWindowByPid_sockets sockets pid
      end
  end.

Definition backslash : ascii := ascii_of_nat 92.
Definition dquote : ascii := ascii_of_nat 34.

(** [s.replace(/c/g, by)] for a character [c]; [by] contains no [$]. *)
Fixpoint replace_all (c : ascii) (by_ : string) (s : string) : string :=
  match s with
  | EmptyString => EmptyString
  | String a s' =>
      if Ascii.eqb a c then by_ +:+ replace_all c by_ s'
      else String a (replace_all c by_ s')
  end.

(** [escapedText] of [sendText]. *)
Definition escape (text : string) : string :=
  replace_all dquote (String backslash (String dquote ""))
    (replace_all backslash (String backslash (String backslash "")) text).

Definition dollar : ascii := ascii_of_nat 36.
Definition backquote : ascii := ascii_of_nat 96.
(** A command line that holds this character is refused by [exec]. *)
Definition nul : ascii := ascii_of_nat 0.

(** What [/bin/sh], which [exec] runs on the command line, makes of the
    text between two double quotes. *)
Inductive Quoted :=
| Text (s : string)  (* the characters stand for the argument [s] *)
| Expands            (* a [$] or a backquote that no backslash escapes: the
                        shell's expansions apply there, and what the text
                        stands for depends on what follows and on the
                        state of the shell *)
| Ends.              (* a double quote that no backslash escapes: the
                        quoted text ends there *)

Definition prepend (a : ascii) (q : Quoted) : Quoted :=
  match q with
  | Text s => Text (String a s)
  | _ => q
  end.

(** The shell's rule for double quotes: every character stands for
    itself, except that [$] and the backquote introduce expansions, a double
    quote ends the quoted text, and a backslash before one of [$], the
    backquote, the double quote and the backslash stands with it for that
    character; a backslash before a newline is dropped with it, and before
    any other character it stands for itself. *)
Fixpoint sh_double_quoted (s : string) : Quoted :=
  match s with
  | EmptyString => Text EmptyString
  | String a s' =>
      if Ascii.eqb a backslash then
        match s' with
        | String b s'' =>
            if Ascii.eqb b backslash || Ascii.eqb b dquote
               || Ascii.eqb b dollar || Ascii.eqb b backquote
            then prepend b (sh_double_quoted s'')
            else if Ascii.eqb b Lines.newline then sh_double_quoted s''
            else prepend a (sh_double_quoted s')
        | EmptyString => Ends   (* it escapes the closing quote *)
        end
      else if Ascii.eqb a dquote then Ends
      else if Ascii.eqb a dollar || Ascii.eqb a backquote then Expands
      else prepend a (sh_double_quoted s')
  end.

End Kitty.

(** ** Session discovery ([findSessionId] of the session resolver) *)

Module SessionResolver.

(** What [findSessionId] reads of a line of [history.jsonl]. *)
Record HistoryEntry := {
  h_cwd : option string;
  h_project : option string;
  h_timestamp : option Z;
  h_sessionId : option string
}.

(** The two tests on an entry; [startEpoch] is [None] when it is [NaN]. *)
Definition matches (cwd : string) (startEpoch : option Z) (entry : HistoryEntry)
  : bool :=
  (bool_decide (h_cwd entry = Some cwd) || bool_decide (h_project entry = Some cwd))
  && match h_timestamp entry, startEpoch with
     | Some timestamp, Some start =>
         (Z.abs (timestamp / 1000 - start) <=? 60)%Z
     | _, _ => false
     end.

(** The loop from the last line to the first, on the lines in reverse
    order; a line is [None] when [JSON.parse] or a property access on its
    value throws. *)
Fixpoint scan_back (cwd : string) (startEpoch : option Z)
    (lines : list (option HistoryEntry)) : option string :=
  match lines with
  | [] => None
  | None :: lines => scan_back cwd startEpoch lines
  | Some entry :: lines =>
      if matches cwd startEpoch entry then h_sessionId entry
      else scan_back cwd startEpoch lines
  end.

(** [findSessionId(pid, cwd)]: [history] is [~/.claude/history.jsonl] as
    its parsed lines, [elapsed] the result of [getProcessElapsedTime(pid)]
    ([None] for [null], [Some None] for [NaN]) and [now] is [Date.now()]. *)
Definition findSessionId (cwd : option string)
    (history : File (list (option HistoryEntry)))
    (elapsed : option (option Z)) (now : Z) : option string :=
  match cwd with
  | None => None
  | Some cwd =>
      if negb (JS.truthy (Some cwd)) || negb (existsSync history) then None
      else
        match elapsed with
        | None => None
        | Some elapsed =>
            let startEpoch := (λ e, (now / 1000 - e)%Z) <$> elapsed in
            match readFileSync history with
            | Ok (Doc lines) => scan_back cwd startEpoch (reverse lines)
            | _ => None
            end
        end
  end.

End SessionResolver.

(** ** The client side ([src/cli/socket-client.ts], [src/cli/commands/ask.ts]) *)

Module SocketClient.

(** [message.type]. *)
Definition type_of (msg : ServerMessage) : string :=
  match msg with
  | Ack _ _ => "ack"
  | Response _ _ _ => "response"
  | Timeout _ => "timeout"
  | Error _ _ _ => "error"
  end.

(** The closures stored in [messageHandlers]: the two that [waitFor]
    creates, which capture the promise of that call (a number here) and its
    [typeList], and a function given to [onMessage]. *)
Inductive Handler :=
| Resolve (promise : nat) (typeList : list string)
| RejectOnError (promise : nat) (typeList : list string)
| Callback (name : nat).

Inductive Settled :=
| Resolved (msg : ServerMessage)
| Rejected (message : string).

(** The client: [messageHandlers], the promises made by [waitFor] that
    are settled, and the calls of [onMessage] handlers so far. *)
Record Client := {
  messageHandlers : gmap string Handler;
  promises : gmap nat Settled;
  calls : list (nat * ServerMessage)
}.

Definition new : Client :=
  {| messageHandlers := ∅; promises := ∅; calls := [] |}.

Definition with_messageHandlers (h : gmap string Handler) (c : Client) : Client :=
  {| messageHandlers := h; promises := promises c; calls := calls c |}.

(** [resolve(..)] and [reject(..)]: a promise is settled once. *)
Definition settle (promise : nat) (outcome : Settled) (c : Client) : Client :=
  match promises c !! promise with
  | Some _ => c
  | None =>
      {| messageHandlers := messageHandlers c;
         promises := <[promise := outcome]> (promises c);
         calls := calls c |}
  end.

(** [cleanup] of [waitFor]. *)
Definition cleanup (typeList : list string) (h : gmap string Handler)
  : gmap string Handler :=
  delete "error" (foldl (λ h type, delete type h) h typeList).

Definition timeout_message : string := "Timeout waiting for response".

(** A call of a stored handler. *)
Definition call (handler : Handler) (msg : ServerMessage) (c : Client) : Client :=
  match handler with
  | Resolve promise typeList =>
      settle promise (Resolved msg)
        (with_messageHandlers (cleanup typeList (messageHandlers c)) c)
  | RejectOnError promise typeList =>
      let c := with_messageHandlers (cleanup typeList (messageHandlers c)) c in
      match msg with
      | Error _ _ message => settle promise (Rejected message) c
      | _ => c
      end
  | Callback name =>
      {| messageHandlers := messageHandlers c; promises := promises c;
         calls := calls c ++ [(name, msg)] |}
  end.

Definition handleMessage (msg : ServerMessage) (c : Client) : Client :=
  let c :=
    match messageHandlers c !! type_of msg with
    | Some handler => call handler msg c
    | None => c
    end in
  match messageHandlers c !! "*" with
  | Some anyHandler => call anyHandler msg c
  | None => c
  end.

Definition onMessage (type : string) (name : nat) (c : Client) : Client :=
  with_messageHandlers (<[type := Callback name]> (messageHandlers c)) c.

(** [waitFor(types)] up to the return of its promise, [promise]. *)
Definition waitFor (promise : nat) (typeList : list string) (c : Client) : Client :=
  with_messageHandlers
    (<["error" := RejectOnError promise typeList]>
       (foldl (λ h type, <[type := Resolve promise typeList]> h)
          (messageHandlers c) typeList)) c.

(** The timer that [waitFor] sets (600000 ms) fires; nothing clears it. *)
Definition timer_fires (promise : nat) (typeList : list string) (c : Client)
  : Client :=
  settle promise (Rejected timeout_message)
    (with_messageHandlers (cleanup typeList (messageHandlers c)) c).

(** The loop of the ["data"] listener over the lines that a chunk
    completes (see [Lines.on_data]); a line is [None] when [JSON.parse]
    throws. *)
Definition on_lines (lines : list (option ServerMessage)) (c : Client) : Client :=
  foldl (λ c line, match line with
                   | Some msg => handleMessage msg c
                   | None => c
                   end) c lines.

End SocketClient.

Module AskCommand.

(** The two [await client.waitFor(..)] of [askCommand]. *)
Inductive Await := AwaitAck | AwaitResult.

Definition promise_of (a : Await) : nat :=
  match a with AwaitAck => 0 | AwaitResult => 1 end.

Definition types_of (a : Await) : list string :=
  match a with
  | AwaitAck => ["ack"]
  | AwaitResult => ["response"; "timeout"; "error"]
  end.

(** Where the command is: suspended at an [await], ended by
    [process.exit(code)] after printing on [stdout] or [stderr], or returned
    without [process.exit]. *)
Inductive Command :=
| Waiting (a : Await)
| Exited (code : nat) (stdout stderr : option string)
| Returned.

(** The [catch] of [askCommand]. *)
Definition failed (message : string) : Command :=
  Exited 1 None (Some ("Error: " +:+ message)).

(** [askCommand] from [client.send(..)] to the first [await]. *)
Definition start : Command * SocketClient.Client :=
  (Waiting AwaitAck,
   SocketClient.waitFor (promise_of AwaitAck) (types_of AwaitAck) SocketClient.new).

(** The continuation of the pending [await], run when the listener that
    settled its promise has returned. *)
Definition resume (noWait : bool) (st : Command * SocketClient.Client)
  : Command * SocketClient.Client :=
  let '(cmd, c) := st in
  match cmd with
  | Waiting a =>
      match SocketClient.promises c !! promise_of a with
      | None => st
      | Some (SocketClient.Rejected message) => (failed message, c)
      | Some (SocketClient.Resolved msg) =>
          match a with
          | AwaitAck =>
              if noWait then
                (Exited 0 (match msg with
                           | Ack requestId _ => Some requestId
                           | _ => None
                           end) None, c)
              else
                (Waiting AwaitResult,
                 SocketClient.waitFor (promise_of AwaitResult)
                   (types_of AwaitResult) c)
          | AwaitResult =>
              match msg with
              | Response _ response _ => (Exited 0 (Some response) None, c)
              | Timeout _ =>
                  (Exited 1 None (Some "Timeout waiting for response"), c)
              | Error _ _ message =>
                  (Exited 1 None (Some ("Error: " +:+ message)), c)
              | Ack _ _ => (Returned, c)
              end
          end
      end
  | _ => st
  end.

(** What happens to the waiting command: a chunk arrives that completes
    the given lines, or the timer fires that one of its [waitFor] has set
    (of a [waitFor] that was called: [AwaitResult] only once the command
    waits for the result). *)
Inductive ClientEvent :=
| Data (lines : list (option ServerMessage))
| TimerFires (a : Await).

Definition step (noWait : bool) (ev : ClientEvent)
    (st : Command * SocketClient.Client) : Command * SocketClient.Client :=
  match fst st with
  | Waiting _ =>
      resume noWait
        (fst st,
         match ev with
         | Data lines => SocketClient.on_lines lines (snd st)
         | TimerFires a =>
             SocketClient.timer_fires (promise_of a) (types_of a) (snd st)
         end)
  | _ => st
  end.

Definition run (noWait : bool) (evs : list ClientEvent)
    (st : Command * SocketClient.Client) : Command * SocketClient.Client :=
  foldl (λ st ev, step noWait ev st) st evs.

End AskCommand.

(** ** The command line ([ask <question>] of the CLI entry point) *)

Module Cli.

Definition comma : ascii := ascii_of_nat 44.

(** The default of [--timeout <ms>]. *)
Definition default_timeout : string := "300000".

(** [opts.options ? opts.options.split(",").map(s => s.trim()) : undefined]. *)
Definition options_of (choices : option string) : option (list string) :=
  match choices with
  | Some s => if JS.truthy choices
              then Some (Lines.trim <$> JS.split comma s)
              else None
  | None => None
  end.

(** The message that [askCommand] sends for the given command line, as the
    daemon reads it: [JSON.stringify] writes a [NaN] timeout as [null]. *)
Definition ask_message (question : string) (choices : option string)
    (wait : bool) (timeout : string) (sessionInfo : SessionInfo) : ClientMessage :=
  CAsk question (options_of choices) sessionInfo (JS.parseInt timeout) (negb wait).

End Cli.




(** The client after a handler of [waitFor(typeList)] has run its
    [cleanup]. *)
Definition handlers_removed (p : nat) (typeList : list string)
    (c : SocketClient.Client) : SocketClient.Client :=
  SocketClient.with_messageHandlers
    (SocketClient.cleanup typeList
       (SocketClient.messageHandlers (SocketClient.waitFor p typeList c)))
    (SocketClient.waitFor p typeList c).


(** ** A sample deployment *)

Module Deployment.

(** The first configuration file is damaged, the second names the socket
    and the user and sets [timeouts.defaultAsk] to 0. *)
Definition env : ConfigFile.Env :=
  {| ConfigFile.config_files :=
       [Unparseable;
        Holds (ConfigFile.JObject
                 {| ConfigFile.fc_socketPath := Some "/run/dn.sock";
                    ConfigFile.fc_dataDir := None;
                    ConfigFile.fc_userId := Some "42";
                    ConfigFile.fc_defaultAsk := Some 0%Z;
                    ConfigFile.fc_maxAsk := None |})];
     ConfigFile.DISCORD_TOKEN := Some "token";
     ConfigFile.default_dataDir := "/home/u/.discord-notify";
     ConfigFile.dir_exists := λ _, false |}.

Definition config : Config :=
  {| socketPath := "/run/dn.sock";
     dataDir := "/home/u/.discord-notify";
     discord_token := "token";
     discord_userId := "42";
     timeouts_defaultAsk := 300000;
     timeouts_maxAsk := 3600000 |}.

(** The request [r1] of [Sample.pm_asked]. *)
Definition request : PendingRequest :=
  with_discordMessageId "m1"
    (snd (createRequest Sample.cfg "r1" 1000 TAsk "Deploy now?" Sample.session
            (Some {| co_options := Some ["Yes"; "No"];
                     co_timeout := Some 300000%Z;
                     co_noWait := Some false |}) Sample.pm0)).

(** A history with two entries for [/work]; the process started at
    second 940. *)
Definition history : list (option SessionResolver.HistoryEntry) :=
  [Some {| SessionResolver.h_cwd := Some "/work";
           SessionResolver.h_project := None;
           SessionResolver.h_timestamp := Some 930000%Z;
           SessionResolver.h_sessionId := Some "old" |};
   None;
   Some {| SessionResolver.h_cwd := None;
           SessionResolver.h_project := Some "/work";
           SessionResolver.h_timestamp := Some 950500%Z;
           SessionResolver.h_sessionId := Some "new" |};
   Some {| SessionResolver.h_cwd := Some "/elsewhere";
           SessionResolver.h_project := None;
           SessionResolver.h_timestamp := Some 950900%Z;
           SessionResolver.h_sessionId := Some "other" |}].

(** [toString] on buffers of ASCII bytes: every byte is one character. *)
Definition toString (data : Lines.Buffer) : string :=
  String.string_of_list_byte data.

(** A line that arrives in two chunks. *)
Definition two_chunks : list Lines.Buffer :=
  [String.list_byte_of_string "{type:";
   String.list_byte_of_string ("cancel}" +:+ String Lines.newline "")].

(** One kitty window with two tabs; process 100 runs in the foreground of
    window 2 of tab 7. *)
Definition listing : list Kitty.KittyOsWindow :=
  [{| Kitty.os_tabs :=
        [{| Kitty.t_id := 5;
            Kitty.t_windows :=
              [{| Kitty.w_id := 1; Kitty.w_pid := 10;
                  Kitty.w_foreground_processes := None |}] |};
         {| Kitty.t_id := 7;
            Kitty.t_windows :=
              [{| Kitty.w_id := 2; Kitty.w_pid := 20;
                  Kitty.w_foreground_processes := Some [30; 100]%Z |};
               {| Kitty.w_id := 3; Kitty.w_pid := 100;
                  Kitty.w_foreground_processes := Some [] |}] |}] |}].

End Deployment.

(** * Properties *)

(** ** The scenarios of the specification, run on the model *)

Example parseInt_decimal : JS.parseInt "12" = Some 12%Z.
Proof. reflexivity. Qed.

Example parseInt_prefix : JS.parseInt " -3x" = Some (-3)%Z.
Proof. reflexivity. Qed.

Example parseInt_NaN : JS.parseInt "x1" = None ∧ JS.parseInt "" = None.
Proof. split; reflexivity. Qed.

Example split_token : JS.split ":" "req:abc:1" = ["req"; "abc"; "1"].
Proof. reflexivity. Qed.

Example split_empty_pieces : JS.split ":" "a::" = ["a"; ""; ""] ∧ JS.split ":" "" = [""].
Proof. split; reflexivity. Qed.

(** [ask "Deploy now?" --options "Yes,No"], Ack, click on index 1: the
    connection gets the Ack and the response [No], and no timer is left. *)
Example scenario_button_answer :
  let s := Trace.after
             (Trace.asked ++
              [InteractionCreate {| customId := "req:r1:1" |};
               UpdateDone "r1" "No" Sample.everyone_alive 2000 2001]) in
  Daemon.received 1 s = [Ack "r1" "m1"; Response "r1" "No" 2001]
  ∧ scheduled (pendingManager s) = []
  ∧ status "r1" (pendingManager s) = StAnswered.
Proof. vm_compute. done. Qed.

(** [send "Build finished"]: the connection gets the Ack, and no timer is
    armed. *)
Example scenario_send :
  let s := Trace.after
             [Connect 1;
              Receive 1 (Msg (CSend "Build finished" Sample.session)) "r1" 1000;
              Delivered 1 "r1" "m1"] in
  Daemon.received 1 s = [Ack "r1" "m1"]
  ∧ scheduled (pendingManager s) = [].
Proof. vm_compute. done. Qed.

(** An Ask that nobody answers: the connection gets the Ack and, when the
    timer fires, the Timeout. *)
Example scenario_timeout :
  let s := Trace.after (Trace.asked ++ [TimerFires 0]) in
  Daemon.received 1 s = [Ack "r1" "m1"; Timeout "r1"]
  ∧ status "r1" (pendingManager s) = StTimeout.
Proof. vm_compute. done. Qed.

(** A timer that is not armed cannot fire. *)
Example timer_fires_once :
  Daemon.run Sample.cfg (Trace.asked ++ [TimerFires 0; TimerFires 0]) Sample.srv0
  = None.
Proof. vm_compute. done. Qed.

(** ** Loading the stores *)

Lemma loadPendingStore_spec (d : Disk) :
  loadPendingStore d = Ok (spec_load emptyPendingStore (pendingFile d)).
Proof. unfold loadPendingStore. by destruct (pendingFile d). Qed.

Lemma loadSessionStore_spec (d : Disk) :
  loadSessionStore d = Ok (spec_load emptySessionStore (sessionsFile d)).
Proof. unfold loadSessionStore. by destruct (sessionsFile d). Qed.

Lemma PendingManager_new_spec (cfg : Config) (h0 : nat) (d : Disk) :
  PendingManager_new cfg h0 d =
  Ok {| pendingStore := spec_load emptyPendingStore (pendingFile d);
        sessionStore := spec_load emptySessionStore (sessionsFile d);
        timers := ∅; scheduled := []; next_handle := h0; disk := d |}.
Proof.
  unfold PendingManager_new.
  by rewrite loadPendingStore_spec, loadSessionStore_spec.
Qed.

(** C8. Loading never throws: whatever the state of the two backing files,
    [loadPendingStore] and [loadSessionStore] return a store, which is the
    empty one when the file is missing, unreadable or not JSON, and the
    constructor of the manager (hence of the daemon) succeeds. *)
Theorem load_tolerates_missing_or_corrupt_files (cfg : Config) (h0 : nat) (d : Disk) :
  loadPendingStore d = Ok (spec_load emptyPendingStore (pendingFile d))
  ∧ loadSessionStore d = Ok (spec_load emptySessionStore (sessionsFile d))
  ∧ (∀ f : File PendingStore, f ∈ [Missing; Unreadable; Unparseable] →
       ∀ sf, loadPendingStore {| pendingFile := f; sessionsFile := sf |}
             = Ok {| requests := ∅; responses := ∅ |})
  ∧ (∀ f : File SessionStore, f ∈ [Missing; Unreadable; Unparseable] →
       ∀ pf, loadSessionStore {| pendingFile := pf; sessionsFile := f |}
             = Ok {| messageToRequest := ∅; requestToTerminal := ∅ |})
  ∧ (∃ pm, PendingManager_new cfg h0 d = Ok pm)
  ∧ (∃ s, Server.new cfg h0 d = Ok s).
Proof.
  split_and!.
  - apply loadPendingStore_spec.
  - apply loadSessionStore_spec.
  - intros f Hf sf. rewrite loadPendingStore_spec.
    set_unfold in Hf. by destruct Hf as [->|[->|[->|[]]]].
  - intros f Hf pf. rewrite loadSessionStore_spec.
    set_unfold in Hf. by destruct Hf as [->|[->|[->|[]]]].
  - rewrite PendingManager_new_spec. eauto.
  - unfold Server.new. rewrite PendingManager_new_spec. simpl. eauto.
Qed.

Lemma load_tolerates_missing_or_corrupt_files_witness :
  loadPendingStore {| pendingFile := Unparseable; sessionsFile := Missing |}
  = Ok emptyPendingStore.
Proof.
  destruct (load_tolerates_missing_or_corrupt_files Sample.cfg 0
              {| pendingFile := Unparseable; sessionsFile := Missing |})
    as (_ & _ & H & _).
  apply (H Unparseable).
  set_unfold. do 2 right. left. reflexivity.
Defined.

(** ** [createRequest] *)

Lemma createRequest_stored cfg id now type message sessionInfo options pm :
  requests (pendingStore (fst (createRequest cfg id now type message sessionInfo options pm)))
    !! id
  = Some (snd (createRequest cfg id now type message sessionInfo options pm)).
Proof. simpl. apply lookup_insert_eq. Qed.

Lemma step_ignores_maxAsk (m : Z) (cfg : Config) (e : Event) (s : Server) :
  Daemon.step (with_maxAsk m cfg) e s = Daemon.step cfg e s.
Proof.
  destruct e; reflexivity.
Qed.

Lemma run_ignores_maxAsk (m : Z) (cfg : Config) (es : list Event) (s : Server) :
  Daemon.run (with_maxAsk m cfg) es s = Daemon.run cfg es s.
Proof.
  revert s. induction es as [|e es IH]; intros s; [reflexivity|].
  simpl. rewrite step_ignores_maxAsk.
  destruct (Daemon.step cfg e s); simpl; [apply IH | reflexivity].
Qed.

(** C9. [createRequest] stores the default timeout for a supplied timeout
    of [0] exactly as for no timeout, and stores a positive timeout [t]
    unchanged whatever [config.timeouts.maxAsk] is; no run of the daemon
    depends on [maxAsk]. *)
Theorem createRequest_timeout_zero_is_default_and_never_clamped
    (cfg : Config) (id : string) (now : Z) (type : RequestType)
    (message : string) (sessionInfo : SessionInfo)
    (opts : option (list string)) (noWait : option bool)
    (pm : PendingManager) (t : Z) :
  (0 < t)%Z →
  let create timeout :=
    createRequest cfg id now type message sessionInfo
      (Some {| co_options := opts; co_timeout := timeout; co_noWait := noWait |}) pm in
  create (Some 0%Z) = create None
  ∧ req_timeout (snd (create None)) = timeouts_defaultAsk cfg
  ∧ req_timeout (snd (createRequest cfg id now type message sessionInfo None pm))
    = timeouts_defaultAsk cfg
  ∧ req_timeout (snd (create (Some t))) = t
  ∧ (∃ r, requests (pendingStore (fst (create (Some t)))) !! id = Some r
          ∧ req_timeout r = t)
  ∧ (∀ m, createRequest (with_maxAsk m cfg) id now type message sessionInfo
            (Some {| co_options := opts; co_timeout := Some t; co_noWait := noWait |}) pm
          = create (Some t))
  ∧ (∀ m es s, Daemon.run (with_maxAsk m cfg) es s = Daemon.run cfg es s).
Proof.
  intros Ht create.
  assert (Hne : (t =? 0)%Z = false) by (apply Z.eqb_neq; lia).
  split_and!.
  - reflexivity.
  - reflexivity.
  - reflexivity.
  - simpl. unfold JS.num_or. simpl. by rewrite Hne.
  - eexists. split; [apply createRequest_stored|].
    simpl. unfold JS.num_or. simpl. by rewrite Hne.
  - reflexivity.
  - intros m es s. apply run_ignores_maxAsk.
Qed.

Lemma createRequest_timeout_zero_is_default_and_never_clamped_witness :
  req_timeout
    (snd (createRequest Sample.cfg "r1" 1000 TAsk "Deploy now?" Sample.session
            (Some {| co_options := None; co_timeout := Some 7200000%Z;
                     co_noWait := Some false |}) Sample.pm0))
  = 7200000%Z.
Proof.
  assert (H : (0 < 7200000)%Z) by lia.
  pose proof (createRequest_timeout_zero_is_default_and_never_clamped
                Sample.cfg "r1" 1000 TAsk "Deploy now?" Sample.session
                None (Some false) Sample.pm0 7200000 H) as (_ & _ & _ & Hk & _).
  exact Hk.
Defined.

(** ** Frame lemmas of the manager *)

Lemma clearTimeout_pendingStore rid pm :
  pendingStore (clearTimeout rid pm) = pendingStore pm.
Proof. unfold clearTimeout. by destruct (timers pm !! rid). Qed.

Lemma clearTimeout_sessionStore rid pm :
  sessionStore (clearTimeout rid pm) = sessionStore pm.
Proof. unfold clearTimeout. by destruct (timers pm !! rid). Qed.

Lemma clearTimeout_timers rid pm :
  timers (clearTimeout rid pm) = delete rid (timers pm).
Proof.
  unfold clearTimeout. destruct (timers pm !! rid) eqn:E; [done|].
  by rewrite delete_id.
Qed.

Lemma setResponse_responses now now' rid response pm :
  responses (pendingStore (fst (setResponse now now' rid response pm)))
  = <[rid := answered_with rid response now]> (responses (pendingStore pm)).
Proof. simpl. by rewrite clearTimeout_pendingStore. Qed.

Lemma setResponse_requests now now' rid response pm :
  requests (pendingStore (fst (setResponse now now' rid response pm)))
  = requests (pendingStore pm).
Proof. simpl. by rewrite clearTimeout_pendingStore. Qed.

Lemma setResponse_emitted now now' rid response pm :
  snd (setResponse now now' rid response pm) = [EmitResponse rid response now'].
Proof. reflexivity. Qed.

Lemma handleTimeout_responses rid pm :
  responses (pendingStore (fst (handleTimeout rid pm)))
  = <[rid := {| res_requestId := rid; res_status := StTimeout;
                res_response := None; res_answeredAt := None;
                res_error := None |}]> (responses (pendingStore pm)).
Proof. reflexivity. Qed.

Lemma updateTerminalActive_pendingStore rid active pm :
  pendingStore (updateTerminalActive rid active pm) = pendingStore pm.
Proof.
  unfold updateTerminalActive.
  by destruct (requestToTerminal (sessionStore pm) !! rid).
Qed.

Lemma processResponse_head_pendingStore alive rid pm :
  pendingStore (fst (DiscordHandler.processResponse_head alive rid pm))
  = pendingStore pm.
Proof.
  unfold DiscordHandler.processResponse_head.
  destruct (getTerminal rid pm) as [t|]; [|done].
  destruct (alive (ti_pid t)); simpl; [done|].
  destruct (JS.truthy (ti_sessionId t)); simpl;
    apply updateTerminalActive_pendingStore.
Qed.

Lemma attempts_resume_false alive rid pm :
  attempts_resume alive rid pm = false →
  snd (DiscordHandler.processResponse_head alive rid pm) = None.
Proof.
  unfold attempts_resume, DiscordHandler.processResponse_head.
  destruct (getTerminal rid pm) as [t|]; [|done].
  destruct (alive (ti_pid t)); simpl; [done|].
  intros ->. done.
Qed.

Lemma attempts_resume_true alive rid pm :
  attempts_resume alive rid pm = true →
  ∃ t sid, getTerminal rid pm = Some t ∧ alive (ti_pid t) = false
           ∧ ti_sessionId t = Some sid ∧ sid ≠ ""
           ∧ DiscordHandler.processResponse_head alive rid pm
             = (updateTerminalActive rid false pm, Some (sid, ti_cwd t)).
Proof.
  unfold attempts_resume, DiscordHandler.processResponse_head.
  destruct (getTerminal rid pm) as [t|]; [|done].
  destruct (alive (ti_pid t)) eqn:Ha; simpl; [done|].
  intros Hs. rewrite Hs. destruct (ti_sessionId t) as [sid|] eqn:E; [|done].
  exists t, sid. split_and!; try done.
  simpl in Hs. intros ->. done.
Qed.

(** What [processResponse] records and emits when the daemon survives it. *)
Lemma processResponse_records resume alive now now' rid response pm :
  resume = Returns ∨ attempts_resume alive rid pm = false →
  responses (pendingStore (fst (DiscordHandler.processResponse resume alive now now' rid response pm)))
  = <[rid := answered_with rid response now]> (responses (pendingStore pm))
  ∧ last (snd (DiscordHandler.processResponse resume alive now now' rid response pm))
    = Some (Emit (EmitResponse rid response now')).
Proof.
  intros Hsurv. unfold DiscordHandler.processResponse.
  pose proof (processResponse_head_pendingStore alive rid pm) as Hps.
  assert (Hcase : resume = Returns
                  ∨ snd (DiscordHandler.processResponse_head alive rid pm) = None).
  { destruct Hsurv as [?|?]; [by left|right]. by apply attempts_resume_false. }
  destruct (DiscordHandler.processResponse_head alive rid pm) as [pm1 [[sid cwd]|]].
  - destruct Hcase as [-> | ?]; [|done].
    simpl in Hps. simpl. by rewrite clearTimeout_pendingStore, Hps.
  - simpl in Hps. simpl. by rewrite clearTimeout_pendingStore, Hps.
Qed.

(** What [processResponse] leaves when the daemon dies in the resume. *)
Lemma processResponse_dies alive now now' rid response pm :
  attempts_resume alive rid pm = true →
  ∃ sid cwd,
    DiscordHandler.processResponse Dies alive now now' rid response pm
    = (updateTerminalActive rid false pm,
       [ResumeAndInject sid cwd response; DaemonDies]).
Proof.
  intros (t & sid & _ & _ & _ & _ & Hhead)%attempts_resume_true.
  exists sid, (ti_cwd t). unfold DiscordHandler.processResponse. by rewrite Hhead.
Qed.

Lemma status_insert rid r pm pm' :
  responses (pendingStore pm') = <[rid := r]> (responses (pendingStore pm)) →
  status rid pm' = res_status r.
Proof. intros H. unfold status. by rewrite H, lookup_insert_eq. Qed.

Lemma status_insert_ne rid rid' r pm pm' :
  rid ≠ rid' →
  responses (pendingStore pm') = <[rid := r]> (responses (pendingStore pm)) →
  status rid' pm' = status rid' pm.
Proof. intros Hne H. unfold status. by rewrite H, lookup_insert_ne. Qed.

(** ** Button clicks *)

Lemma selects_head interaction pm rid label :
  selects interaction pm rid label ↔
  DiscordHandler.handleButton_head interaction pm = Some (rid, label).
Proof.
  unfold DiscordHandler.handleButton_head. split.
  - intros [idx request options Hsplit Hreq Hopts Hidx Hne].
    rewrite Hsplit. simpl. rewrite Hreq, Hopts, Hidx. simpl.
    destruct (String.eqb_spec label ""); [done|reflexivity].
  - intros H.
    destruct (JS.split ":" (customId interaction)) as [|p0 [|r [|idx [|]]]] eqn:Hsplit;
      try discriminate.
    destruct (String.eqb_spec p0 "req") as [->|]; [|discriminate]. simpl in H.
    destruct (getRequest r pm) as [request|] eqn:Hreq; [|discriminate].
    destruct (req_options request) as [options|] eqn:Hopts; [|discriminate].
    destruct (JS.index options (JS.parseInt idx)) as [response|] eqn:Hidx;
      [|discriminate].
    simpl in H. destruct (String.eqb_spec response ""); [discriminate|].
    simpl in H. injection H as <- <-.
    by econstructor.
Qed.

(** C10. A click on an in-range option whose label is the empty string is
    ignored exactly like a click on an index outside the list: the manager
    is left as it was and nothing is emitted, in the handler and in the
    daemon's step. *)
Theorem button_with_empty_label_is_ignored
    (cfg : Config) (resume : Resume) (alive : Z → bool) (now now' : Z)
    (interaction : ButtonInteraction) (s : Server)
    (requestId optionIndexStr : string) (request : PendingRequest)
    (options : list string) :
  JS.split ":" (customId interaction) = ["req"; requestId; optionIndexStr] →
  getRequest requestId (pendingManager s) = Some request →
  req_options request = Some options →
  JS.index options (JS.parseInt optionIndexStr) = Some ""
  ∨ JS.index options (JS.parseInt optionIndexStr) = None →
  DiscordHandler.handleButton resume alive now now' interaction (pendingManager s)
  = (pendingManager s, [])
  ∧ Daemon.step cfg (InteractionCreate interaction) s = Some s.
Proof.
  intros Hsplit Hreq Hopts Hidx.
  assert (DiscordHandler.handleButton_head interaction (pendingManager s) = None) as Hhead.
  { unfold DiscordHandler.handleButton_head.
    rewrite Hsplit. simpl. rewrite Hreq, Hopts.
    by destruct Hidx as [-> | ->]. }
  unfold DiscordHandler.handleButton. simpl. by rewrite Hhead.
Qed.

Lemma button_with_empty_label_is_ignored_witness :
  DiscordHandler.handleButton Returns Sample.everyone_alive 2000 2001
    {| customId := "req:r2:0" |} Sample.pm_blank_label
  = (Sample.pm_blank_label, []).
Proof.
  refine (proj1 (button_with_empty_label_is_ignored Sample.cfg Returns
            Sample.everyone_alive 2000 2001 {| customId := "req:r2:0" |}
            {| clients := []; pendingManager := Sample.pm_blank_label;
               wire := []; awaiting := [] |}
            "r2" "0"
            (snd (createRequest Sample.cfg "r2" 1000 TAsk "Pick" Sample.session
                    (Some {| co_options := Some [""; "No"];
                             co_timeout := None;
                             co_noWait := Some false |}) Sample.pm0))
            [""; "No"] _ _ _ _)).
  - reflexivity.
  - vm_compute. reflexivity.
  - reflexivity.
  - left. reflexivity.
Defined.

(** C5, as amended. A click that selects a non-empty label (token of the
    shape [req:<requestId>:<index>], stored request with an options list,
    index inside the list) is acknowledged with that label, and it records
    exactly that label as the answer of the request and emits it whenever
    [processResponse] attempts no resume (the asking process is alive, or
    the request has no terminal entry or no session id) or the attempted
    resume returns.  If the daemon dies in the attempted resume, no answer is
    recorded.  Every other click (malformed token, unknown request, no
    options list, index that is not a number or is outside the list, empty
    label) leaves the manager unchanged and emits nothing. *)
Theorem button_records_selected_label
    (resume : Resume) (alive : Z → bool) (now now' : Z)
    (interaction : ButtonInteraction) (pm : PendingManager) :
  (∀ requestId label,
     selects interaction pm requestId label →
     let r := DiscordHandler.handleButton resume alive now now' interaction pm in
     head (snd r) = Some (InteractionUpdate label)
     ∧ (resume = Returns ∨ attempts_resume alive requestId pm = false →
        responses (pendingStore (fst r)) !! requestId
          = Some (answered_with requestId label now)
        ∧ status requestId (fst r) = StAnswered
        ∧ last (snd r) = Some (Emit (EmitResponse requestId label now')))
     ∧ (resume = Dies → attempts_resume alive requestId pm = true →
        responses (pendingStore (fst r)) = responses (pendingStore pm)
        ∧ last (snd r) = Some DaemonDies))
  ∧ ((∀ requestId label, ¬ selects interaction pm requestId label) →
     DiscordHandler.handleButton resume alive now now' interaction pm = (pm, [])).
Proof.
  split.
  - intros rid label Hsel r. subst r.
    apply selects_head in Hsel.
    unfold DiscordHandler.handleButton. rewrite Hsel.
    split_and!.
    + by destruct (DiscordHandler.processResponse resume alive now now' rid label pm).
    + intros Hsurv.
      destruct (processResponse_records resume alive now now' rid label pm Hsurv)
        as [Hres Hlast].
      destruct (DiscordHandler.processResponse resume alive now now' rid label pm)
        as [pm' out]. simpl in *.
      split_and!.
      * by rewrite Hres, lookup_insert_eq.
      * by apply (status_insert _ _ _ _ Hres).
      * destruct out; [discriminate|]. exact Hlast.
    + intros -> Hatt.
      destruct (processResponse_dies alive now now' rid label pm Hatt)
        as (sid & cwd & ->). simpl.
      by rewrite updateTerminalActive_pendingStore.
  - intros Hnone. unfold DiscordHandler.handleButton.
    destruct (DiscordHandler.handleButton_head interaction pm) as [[rid label]|] eqn:E;
      [|done].
    apply selects_head in E. by apply Hnone in E.
Qed.

Lemma button_records_selected_label_witness :
  status "r1"
    (fst (DiscordHandler.handleButton Dies Sample.everyone_alive 2000 2001
            {| customId := "req:r1:1" |} Sample.pm_asked))
  = StAnswered.
Proof.
  refine (proj1 (proj2 (proj1 (proj2 (proj1 (button_records_selected_label
            Dies Sample.everyone_alive 2000 2001 {| customId := "req:r1:1" |}
            Sample.pm_asked) "r1" "No" _)) (or_intror eq_refl)))).
  eapply (Selects _ _ _ _ "1"
            (with_discordMessageId "m1"
               (snd (createRequest Sample.cfg "r1" 1000 TAsk "Deploy now?"
                       Sample.session
                       (Some {| co_options := Some ["Yes"; "No"];
                                co_timeout := Some 300000%Z;
                                co_noWait := Some false |}) Sample.pm0)))
            ["Yes"; "No"]).
  - reflexivity.
  - vm_compute. reflexivity.
  - reflexivity.
  - reflexivity.
  - discriminate.
Defined.

(** C5, counterexample. Request [r2] is stored with the options list
    [[""; "No"]]; the click [req:r2:0] has the required shape and its index
    is inside the list, yet no answer at all is recorded for [r2]. *)
Lemma button_in_range_without_answer :
  JS.split ":" "req:r2:0" = ["req"; "r2"; "0"]
  ∧ (getRequest "r2" Sample.pm_blank_label ≫= req_options) = Some [""; "No"]
  ∧ JS.index [""; "No"] (JS.parseInt "0") = Some ""
  ∧ responses (pendingStore
       (fst (DiscordHandler.handleButton Returns Sample.everyone_alive 2000 2001
               {| customId := "req:r2:0" |} Sample.pm_blank_label))) !! "r2"
    = None
  ∧ responses (pendingStore
       (fst (DiscordHandler.handleButton Returns Sample.everyone_alive 2000 2001
               {| customId := "req:r2:0" |} Sample.pm_blank_label))) !! "r2"
    ≠ Some (answered_with "r2" "" 2000).
Proof. split_and!; try (vm_compute; reflexivity). vm_compute. discriminate. Qed.

(** ** Replies *)

(** C6. A message that is not from the configured user, or whose
    replied-to message id resolves to no request, is dropped: the handler
    returns the manager it was given (stores, timers and files unchanged)
    and emits nothing, and the daemon's step leaves its state as it was. *)
Theorem unresolved_or_unauthorized_message_is_dropped
    (cfg : Config) (resume : Resume) (alive : Z → bool) (now now' : Z)
    (message : Message) (s : Server) :
  msg_author_id message ≠ discord_userId cfg
  ∨ (∀ mid, msg_reference_messageId message = Some mid →
            getRequestByMessageId mid (pendingManager s) = None) →
  DiscordHandler.handleMessage (discord_userId cfg) resume alive now now' message
    (pendingManager s)
  = (pendingManager s, [])
  ∧ Daemon.step cfg (MessageCreate message alive now now') s = Some s.
Proof.
  intros H.
  assert (DiscordHandler.handleMessage_head (discord_userId cfg) message
            (pendingManager s) = None) as Hhead.
  { unfold DiscordHandler.handleMessage_head.
    destruct (msg_author_bot message); [done|].
    destruct (msg_channel_isDMBased message); [|done]. simpl.
    destruct (String.eqb_spec (msg_author_id message) (discord_userId cfg))
      as [Heq|Hne]; simpl.
    - destruct H as [H|H]; [done|].
      destruct (msg_reference_messageId message) as [mid|]; [|done].
      destruct (JS.truthy (Some mid)); simpl; [|done]. by apply H.
    - done. }
  unfold DiscordHandler.handleMessage. simpl. by rewrite Hhead.
Qed.

Lemma unresolved_or_unauthorized_message_is_dropped_witness :
  Daemon.step Sample.cfg
    (MessageCreate (Sample.reply_to "m999" "hello") Sample.everyone_alive 2000 2001)
    {| clients := []; pendingManager := Sample.pm_asked; wire := []; awaiting := [] |}
  = Some {| clients := []; pendingManager := Sample.pm_asked; wire := [];
            awaiting := [] |}.
Proof.
  refine (proj2 (unresolved_or_unauthorized_message_is_dropped Sample.cfg
            Returns Sample.everyone_alive 2000 2001 (Sample.reply_to "m999" "hello")
            {| clients := []; pendingManager := Sample.pm_asked; wire := [];
               awaiting := [] |} _)).
  right. intros mid Hmid. injection Hmid as <-. vm_compute. reflexivity.
Defined.

(** ** [cleanup] and cancel *)

Lemma cleanup_messageToRequest_sub rid pm mid r :
  messageToRequest (sessionStore (cleanup rid pm)) !! mid = Some r →
  messageToRequest (sessionStore pm) !! mid = Some r.
Proof.
  unfold cleanup. simpl. rewrite clearTimeout_pendingStore.
  destruct (requests (pendingStore pm) !! rid ≫= req_discordMessageId) as [m|];
    simpl; [|by rewrite clearTimeout_sessionStore].
  destruct (negb (m =? "")%string); simpl; rewrite clearTimeout_sessionStore;
    [|done].
  intros H. by apply lookup_delete_Some in H as [_ H].
Qed.

Lemma cleanup_requests rid pm :
  requests (pendingStore (cleanup rid pm)) = delete rid (requests (pendingStore pm)).
Proof.
  unfold cleanup. simpl. rewrite clearTimeout_pendingStore.
  destruct (requests (pendingStore pm) !! rid ≫= req_discordMessageId) as [m|];
    simpl; [|by rewrite clearTimeout_pendingStore].
  destruct (negb (m =? "")%string); simpl; by rewrite clearTimeout_pendingStore.
Qed.

Lemma cleanup_responses rid pm :
  responses (pendingStore (cleanup rid pm)) = delete rid (responses (pendingStore pm)).
Proof.
  unfold cleanup. simpl. rewrite clearTimeout_pendingStore.
  destruct (requests (pendingStore pm) !! rid ≫= req_discordMessageId) as [m|];
    simpl; [|by rewrite clearTimeout_pendingStore].
  destruct (negb (m =? "")%string); simpl; by rewrite clearTimeout_pendingStore.
Qed.

Lemma cleanup_requestToTerminal rid pm :
  requestToTerminal (sessionStore (cleanup rid pm))
  = delete rid (requestToTerminal (sessionStore pm)).
Proof.
  unfold cleanup. simpl. rewrite clearTimeout_pendingStore.
  destruct (requests (pendingStore pm) !! rid ≫= req_discordMessageId) as [m|];
    simpl; [|by rewrite clearTimeout_sessionStore].
  destruct (negb (m =? "")%string); simpl; by rewrite clearTimeout_sessionStore.
Qed.

Lemma cleanup_timers rid pm :
  timers (cleanup rid pm) = delete rid (timers pm).
Proof.
  unfold cleanup. simpl. rewrite clearTimeout_pendingStore.
  destruct (requests (pendingStore pm) !! rid ≫= req_discordMessageId) as [m|];
    simpl; [|by rewrite clearTimeout_timers].
  destruct (negb (m =? "")%string); simpl; by rewrite clearTimeout_timers.
Qed.

Lemma cleanup_scheduled rid pm :
  scheduled (cleanup rid pm) = scheduled (clearTimeout rid pm).
Proof.
  unfold cleanup. simpl.
  destruct (requests (pendingStore (clearTimeout rid pm)) !! rid
              ≫= req_discordMessageId) as [m|]; simpl; [|done].
  by destruct (negb (m =? "")%string).
Qed.

Lemma clearTimeout_disarms rid pm h :
  timers pm !! rid = Some h →
  scheduled (clearTimeout rid pm) = disarm h (scheduled pm).
Proof. intros H. unfold clearTimeout. by rewrite H. Qed.

Lemma disarm_gone h l t : t ∈ disarm h l → tm_handle t ≠ h.
Proof. unfold disarm. intros H. by apply list_elem_of_filter in H as [H _]. Qed.

(** ** Terminal statuses *)

(** C1, as amended. [setResponse] always records [answered] with the given
    text and [handleTimeout] always records [timeout], whatever status was
    recorded before: the last writer wins, in both orders.  Both forget the
    timer registered for the request, and neither touches the status of
    another request. *)
Theorem last_terminal_status_wins
    (now now' : Z) (requestId response : string) (pm : PendingManager)
    (other : string) :
  other ≠ requestId →
  let answer := setResponse now now' requestId response in
  let expire := handleTimeout requestId in
  status requestId (fst (answer pm)) = StAnswered
  ∧ responses (pendingStore (fst (answer pm))) !! requestId
    = Some (answered_with requestId response now)
  ∧ snd (answer pm) = [EmitResponse requestId response now']
  ∧ status requestId (fst (expire pm)) = StTimeout
  ∧ snd (expire pm) = [EmitTimeout requestId]
  ∧ status requestId (fst (answer (fst (expire pm)))) = StAnswered
  ∧ status requestId (fst (expire (fst (answer pm)))) = StTimeout
  ∧ timers (fst (answer pm)) !! requestId = None
  ∧ timers (fst (expire pm)) !! requestId = None
  ∧ status other (fst (answer pm)) = status other pm
  ∧ status other (fst (expire pm)) = status other pm.
Proof.
  intros Hne answer expire. subst answer expire.
  assert (Ha : ∀ pm0, status requestId (fst (setResponse now now' requestId response pm0))
                      = StAnswered).
  { intros pm0. by rewrite (status_insert _ _ _ _ (setResponse_responses _ _ _ _ pm0)). }
  assert (He : ∀ pm0, status requestId (fst (handleTimeout requestId pm0)) = StTimeout).
  { intros pm0. by rewrite (status_insert _ _ _ _ (handleTimeout_responses _ pm0)). }
  split_and!; try done.
  - by rewrite setResponse_responses, lookup_insert_eq.
  - simpl. rewrite clearTimeout_timers. apply lookup_delete_eq.
  - simpl. apply lookup_delete_eq.
  - by apply (status_insert_ne requestId other _ _ _ (not_eq_sym Hne)
                (setResponse_responses _ _ _ _ pm)).
  - by apply (status_insert_ne requestId other _ _ _ (not_eq_sym Hne)
                (handleTimeout_responses _ pm)).
Qed.

Lemma last_terminal_status_wins_witness :
  status "r1"
    (fst (setResponse 2000 2001 "r1" "Yes" (fst (handleTimeout "r1" Sample.pm_asked))))
  = StAnswered.
Proof.
  assert (H : "r2" ≠ "r1") by discriminate.
  exact (proj1 (proj2 (proj2 (proj2 (proj2 (proj2
           (last_terminal_status_wins 2000 2001 "r1" "Yes" Sample.pm_asked "r2" H))))))).
Defined.

(** C1, counterexample. The timer of request [r1] fires and [timeout] is
    recorded, a terminal status; the late answer then recorded by
    [setResponse] replaces it by [answered]. *)
Lemma late_answer_overwrites_recorded_timeout :
  let timed_out := fst (fire 0 Sample.pm_asked) in
  let late := fst (setResponse 2000 2001 "r1" "Yes" timed_out) in
  status "r1" timed_out = StTimeout
  ∧ terminal (status "r1" timed_out) = true
  ∧ status "r1" late = StAnswered
  ∧ status "r1" late ≠ status "r1" timed_out.
Proof. vm_compute. split_and!; try reflexivity. discriminate. Qed.

(** ** The timer discipline of the manager *)

Lemma timers_ok_ext pm pm' :
  timers pm' = timers pm → scheduled pm' = scheduled pm →
  next_handle pm' = next_handle pm → timers_ok pm → timers_ok pm'.
Proof. unfold timers_ok. by intros -> -> ->. Qed.

Lemma elem_of_disarm h l t : t ∈ disarm h l ↔ tm_handle t ≠ h ∧ t ∈ l.
Proof. unfold disarm. by rewrite list_elem_of_filter. Qed.

Lemma NoDup_handles_disarm h l :
  NoDup (tm_handle <$> l) → NoDup (tm_handle <$> disarm h l).
Proof.
  unfold disarm. induction l as [|t l IH]; simpl; [done|].
  rewrite NoDup_cons. intros [Hnotin Hnd].
  rewrite filter_cons. case_decide; simpl; [|by apply IH].
  apply NoDup_cons. split; [|by apply IH].
  intros Hin. apply Hnotin.
  apply list_elem_of_fmap in Hin as (t' & Heq & Hin).
  apply list_elem_of_filter in Hin as [_ Hin].
  apply list_elem_of_fmap. by exists t'.
Qed.

Lemma timers_ok_clearTimeout rid pm :
  timers_ok pm → timers_ok (clearTimeout rid pm).
Proof.
  intros [Hreg Hnd]. unfold clearTimeout.
  destruct (timers pm !! rid) as [h|] eqn:Hh; [|done].
  split; simpl.
  - intros t Ht. apply elem_of_disarm in Ht as [Hne Ht].
    destruct (Hreg t Ht) as [Hr Hlt]. split; [|done].
    rewrite lookup_delete_ne; [done|].
    intros Heq. rewrite <- Heq, Hh in Hr. injection Hr as Hr. congruence.
  - by apply NoDup_handles_disarm.
Qed.

Lemma timers_ok_startTimeout rid d pm :
  timers pm !! rid = None → timers_ok pm → timers_ok (startTimeout rid d pm).
Proof.
  intros Hnone [Hreg Hnd]. split; simpl.
  - intros t Ht. apply elem_of_app in Ht as [Ht|Ht].
    + destruct (Hreg t Ht) as [Hr Hlt]. split; [|lia].
      rewrite lookup_insert_ne; [done|].
      intros Heq. by rewrite <- Heq, Hnone in Hr.
    + apply list_elem_of_singleton in Ht as ->. simpl.
      split; [apply lookup_insert_eq | lia].
  - rewrite fmap_app. apply NoDup_app. split_and!; [done| |apply NoDup_singleton].
    intros h Hin Hin'. simpl in Hin'. apply list_elem_of_singleton in Hin' as ->.
    apply list_elem_of_fmap in Hin as (t & Heq & Ht).
    destruct (Hreg t Ht) as [_ Hlt]. lia.
Qed.

Lemma list_find_handle h l i t :
  list_find (λ t, tm_handle t = h) l = Some (i, t) → t ∈ l ∧ tm_handle t = h.
Proof.
  intros H. apply list_find_Some in H as (Hi & Hh & _).
  split; [|done]. by eapply list_elem_of_lookup_2.
Qed.

(** The three components of the timer state after [fire]. *)
Lemma fire_timers h pm i t :
  list_find (λ t, tm_handle t = h) (scheduled pm) = Some (i, t) →
  timers (fst (fire h pm)) = delete (tm_request t) (timers pm)
  ∧ scheduled (fst (fire h pm)) = disarm h (scheduled pm)
  ∧ next_handle (fst (fire h pm)) = next_handle pm
  ∧ snd (fire h pm) = [EmitTimeout (tm_request t)]
  ∧ responses (pendingStore (fst (fire h pm)))
    = <[tm_request t := {| res_requestId := tm_request t; res_status := StTimeout;
                           res_response := None; res_answeredAt := None;
                           res_error := None |}]> (responses (pendingStore pm))
  ∧ requests (pendingStore (fst (fire h pm))) = requests (pendingStore pm)
  ∧ sessionStore (fst (fire h pm)) = sessionStore pm.
Proof. intros H. unfold fire. rewrite H. done. Qed.

Lemma timers_ok_fire h pm : timers_ok pm → timers_ok (fst (fire h pm)).
Proof.
  intros Hok.
  destruct (list_find (λ t, tm_handle t = h) (scheduled pm)) as [[i t]|] eqn:Hf.
  - destruct (fire_timers _ _ _ _ Hf) as (Ht & Hs & Hn & _).
    destruct (list_find_handle _ _ _ _ Hf) as [Hin Hh].
    destruct Hok as [Hreg Hnd]. split.
    + intros t' Ht'. rewrite Hs in Ht'. apply elem_of_disarm in Ht' as [Hne Ht'].
      destruct (Hreg t' Ht') as [Hr Hlt]. rewrite Ht, Hn. split; [|done].
      rewrite lookup_delete_ne; [done|].
      intros Heq. destruct (Hreg t Hin) as [Hr' _].
      rewrite Heq, Hr in Hr'. injection Hr' as Hr'. congruence.
    + rewrite Hs. by apply NoDup_handles_disarm.
  - unfold fire. by rewrite Hf.
Qed.

Lemma timers_ok_setResponse now now' rid response pm :
  timers_ok pm → timers_ok (fst (setResponse now now' rid response pm)).
Proof.
  intros H. apply (timers_ok_ext (clearTimeout rid pm)); try done.
  by apply timers_ok_clearTimeout.
Qed.

Lemma timers_ok_cleanup rid pm : timers_ok pm → timers_ok (cleanup rid pm).
Proof.
  intros H. apply (timers_ok_ext (clearTimeout rid pm)).
  - by rewrite cleanup_timers, clearTimeout_timers.
  - apply cleanup_scheduled.
  - unfold cleanup. simpl.
    destruct (requests (pendingStore (clearTimeout rid pm)) !! rid
                ≫= req_discordMessageId) as [m|]; simpl; [|done].
    by destruct (negb (m =? "")%string).
  - by apply timers_ok_clearTimeout.
Qed.

(** What [setDiscordMessageId] does to the timer state: nothing, or
    [startTimeout] for the request. *)
Lemma setDiscordMessageId_timers rid mid pm :
  (timers (setDiscordMessageId rid mid pm) = timers pm
   ∧ scheduled (setDiscordMessageId rid mid pm) = scheduled pm
   ∧ next_handle (setDiscordMessageId rid mid pm) = next_handle pm)
  ∨ (∃ d, timers (setDiscordMessageId rid mid pm)
          = <[rid := next_handle pm]> (timers pm)
        ∧ scheduled (setDiscordMessageId rid mid pm)
          = scheduled pm ++ [{| tm_handle := next_handle pm; tm_request := rid;
                                tm_delay := d |}]
        ∧ next_handle (setDiscordMessageId rid mid pm) = S (next_handle pm)).
Proof.
  unfold setDiscordMessageId.
  destruct (requests (pendingStore pm) !! rid) as [r|]; [|by left].
  destruct (bool_decide _ && negb _); [|by left].
  right. by eexists.
Qed.

Lemma timers_ok_setDiscordMessageId rid mid pm :
  timers pm !! rid = None → timers_ok pm →
  timers_ok (setDiscordMessageId rid mid pm).
Proof.
  intros Hnone Hok.
  destruct (setDiscordMessageId_timers rid mid pm) as [(Ht & Hs & Hn)|(d & Ht & Hs & Hn)].
  - by apply (timers_ok_ext pm).
  - apply (timers_ok_ext (startTimeout rid d pm)); try done.
    by apply timers_ok_startTimeout.
Qed.

Lemma timers_ok_live_timers rid pm :
  timers_ok pm → length (live_timers rid pm) ≤ 1.
Proof.
  intros [Hreg Hnd]. unfold live_timers.
  assert (Hsame : ∀ t t', t ∈ filter (λ t, tm_request t = rid) (scheduled pm) →
            t' ∈ filter (λ t, tm_request t = rid) (scheduled pm) →
            tm_handle t = tm_handle t').
  { intros t t' Ht Ht'.
    apply list_elem_of_filter in Ht as [Hr Ht], Ht' as [Hr' Ht'].
    destruct (Hreg t Ht) as [H1 _], (Hreg t' Ht') as [H2 _].
    rewrite Hr in H1. rewrite Hr' in H2. congruence. }
  assert (Hnd' : NoDup (tm_handle <$> filter (λ t, tm_request t = rid) (scheduled pm))).
  { eapply sublist_NoDup; [exact Hnd|]. apply fmap_sublist, sublist_filter. }
  destruct (filter (λ t, tm_request t = rid) (scheduled pm)) as [|t [|t' l]];
    simpl; [lia|lia|].
  exfalso. simpl in Hnd'. apply NoDup_cons in Hnd' as [Hn _].
  apply Hn. rewrite (Hsame t t'); [left| left | right; left].
Qed.

Lemma timers_ok_unregistered rid pm :
  timers_ok pm → timers pm !! rid = None → live_timers rid pm = [].
Proof.
  intros [Hreg _] Hnone. unfold live_timers.
  destruct (filter (λ t, tm_request t = rid) (scheduled pm)) as [|t l] eqn:E;
    [done|].
  assert (Ht : t ∈ filter (λ t, tm_request t = rid) (scheduled pm))
    by (rewrite E; left).
  apply list_elem_of_filter in Ht as [Hr Ht].
  destruct (Hreg t Ht) as [H _]. rewrite Hr, Hnone in H. discriminate.
Qed.

(** ** Cancel *)

(** C7. [cleanup(requestId)] clears the timer registered for the request
    and deletes the request's entries from the request map, the response
    map, the terminal map and — for the (non-empty) message id recorded in
    the request — the external-ref index; afterwards no message id that used
    to resolve to the request resolves to anything, so a reply to it is
    dropped.  [handleCancel] answers with an Ack, never with an error,
    whether or not the request exists or anybody waits for it, and on an
    unknown id the maps are left as they were. *)
Theorem cleanup_deletes_all_entries
    (cfg : Config) (requestId : string) (s : Server) :
  let pm := pendingManager s in
  let pm' := cleanup requestId pm in
  timers pm' !! requestId = None
  ∧ (∀ h t, timers pm !! requestId = Some h → t ∈ scheduled pm' → tm_handle t ≠ h)
  ∧ requests (pendingStore pm') !! requestId = None
  ∧ responses (pendingStore pm') !! requestId = None
  ∧ requestToTerminal (sessionStore pm') !! requestId = None
  ∧ (∀ request mid,
       requests (pendingStore pm) !! requestId = Some request →
       req_discordMessageId request = Some mid → mid ≠ "" →
       messageToRequest (sessionStore pm') !! mid = None)
  ∧ (∀ mid, messageToRequest (sessionStore pm) !! mid = Some requestId →
       getRequestByMessageId mid pm' = None
       ∧ ∀ resume alive now now' message,
           msg_reference_messageId message = Some mid →
           DiscordHandler.handleMessage (discord_userId cfg) resume alive now now'
             message pm' = (pm', []))
  ∧ (∀ socket,
       pendingManager (Server.handleCancel socket requestId s) = pm'
       ∧ wire (Server.handleCancel socket requestId s)
         = wire s ++ [(socket, Ack requestId "")])
  ∧ (∀ socket id now,
       Daemon.step cfg (Receive socket (Msg (CCancel requestId)) id now) s
       = Some (Server.handleCancel socket requestId s))
  ∧ (requests (pendingStore pm) !! requestId = None →
     responses (pendingStore pm) !! requestId = None →
     requestToTerminal (sessionStore pm) !! requestId = None →
     timers pm !! requestId = None →
     pendingStore pm' = pendingStore pm ∧ sessionStore pm' = sessionStore pm
     ∧ timers pm' = timers pm ∧ scheduled pm' = scheduled pm)
  ∧ (timers_ok pm → live_timers requestId pm' = []).
Proof.
  intros pm pm'. subst pm'.
  assert (Hreq : requests (pendingStore (cleanup requestId pm)) !! requestId = None).
  { rewrite cleanup_requests. apply lookup_delete_eq. }
  assert (Hdrop : ∀ mid, messageToRequest (sessionStore pm) !! mid = Some requestId →
                         getRequestByMessageId mid (cleanup requestId pm) = None).
  { intros mid Hmid. unfold getRequestByMessageId.
    destruct (messageToRequest (sessionStore (cleanup requestId pm)) !! mid)
      as [r|] eqn:E; [|done].
    apply cleanup_messageToRequest_sub in E.
    rewrite Hmid in E. injection E as <-.
    rewrite Hreq. by destruct (JS.truthy (Some requestId)). }
  split_and!.
  - rewrite cleanup_timers. apply lookup_delete_eq.
  - intros h t Hh Ht. rewrite cleanup_scheduled, (clearTimeout_disarms _ _ _ Hh) in Ht.
    by eapply disarm_gone.
  - exact Hreq.
  - rewrite cleanup_responses. apply lookup_delete_eq.
  - rewrite cleanup_requestToTerminal. apply lookup_delete_eq.
  - intros request mid Hr Hmid Hne.
    unfold cleanup. simpl. rewrite clearTimeout_pendingStore, Hr. simpl.
    rewrite Hmid.
    destruct (String.eqb_spec mid ""); [done|]. simpl.
    apply lookup_delete_eq.
  - intros mid Hmid. split; [by apply Hdrop|].
    intros resume alive now now' message Href.
    unfold DiscordHandler.handleMessage, DiscordHandler.handleMessage_head.
    destruct (msg_author_bot message); [done|].
    destruct (negb (msg_channel_isDMBased message)); [done|].
    destruct (negb (msg_author_id message =? discord_userId cfg)%string); [done|].
    rewrite Href.
    destruct (negb (JS.truthy (Some mid))); [done|]. simpl.
    by rewrite (Hdrop mid Hmid).
  - done.
  - done.
  - intros Hr Hs Ht Htm.
    unfold cleanup, clearTimeout. rewrite Htm. simpl. rewrite Hr. simpl.
    rewrite !delete_id by done.
    by destruct (pendingStore pm), (sessionStore pm).
  - intros Hok. apply timers_ok_unregistered.
    + by apply timers_ok_cleanup.
    + rewrite cleanup_timers. apply lookup_delete_eq.
Qed.

Lemma cleanup_deletes_all_entries_witness :
  messageToRequest (sessionStore (cleanup "r1" Sample.pm_asked)) !! "m1" = None.
Proof.
  refine (proj1 (proj2 (proj2 (proj2 (proj2 (proj2
            (cleanup_deletes_all_entries Sample.cfg "r1"
               {| clients := []; pendingManager := Sample.pm_asked; wire := [];
                  awaiting := [] |}))))))
            (with_discordMessageId "m1"
               (snd (createRequest Sample.cfg "r1" 1000 TAsk "Deploy now?"
                       Sample.session
                       (Some {| co_options := Some ["Yes"; "No"];
                                co_timeout := Some 300000%Z;
                                co_noWait := Some false |}) Sample.pm0)))
            "m1" _ _ _).
  - vm_compute. reflexivity.
  - reflexivity.
  - discriminate.
Defined.

(** ** The invariant of the daemon *)

Lemma take_split k ks ks' :
  Daemon.take k ks = Some ks' → ∃ l1 l2, ks = l1 ++ k :: l2 ∧ ks' = l1 ++ l2.
Proof.
  revert ks'. induction ks as [|k' ks IH]; intros ks' H; simpl in H; [done|].
  case_decide as Hk.
  - injection H as <-. subst k'. by exists [], ks.
  - destruct (Daemon.take k ks) as [ks0|]; [|done].
    injection H as <-. destruct (IH _ eq_refl) as (l1 & l2 & -> & ->).
    by exists (k' :: l1), l2.
Qed.

Lemma notifyClient_fields rid m s :
  clients (Server.notifyClient rid m s) = clients s
  ∧ pendingManager (Server.notifyClient rid m s) = pendingManager s
  ∧ awaiting (Server.notifyClient rid m s) = awaiting s
  ∧ wire (Server.notifyClient rid m s) = wire s ++ notified rid m s.
Proof.
  unfold Server.notifyClient, notified.
  destruct (list_find _ (clients s)) as [[i c]|]; simpl; [done|].
  by rewrite app_nil_r.
Qed.

Lemma record_fields now now' rid response s :
  clients (Daemon.record now now' rid response s) = clients s
  ∧ pendingManager (Daemon.record now now' rid response s)
    = fst (setResponse now now' rid response (pendingManager s))
  ∧ awaiting (Daemon.record now now' rid response s) = awaiting s
  ∧ wire (Daemon.record now now' rid response s)
    = wire s ++ notified rid (Response rid response now') s.
Proof.
  unfold Daemon.record. simpl.
  destruct (notifyClient_fields rid (Response rid response now')
              (Server.with_pendingManager
                 (fst (setResponse now now' rid response (pendingManager s))) s))
    as (H1 & H2 & H3 & H4).
  simpl in *. by rewrite H1, H2, H3, H4.
Qed.

Lemma fire_step_fields h s i t :
  list_find (λ t, tm_handle t = h) (scheduled (pendingManager s)) = Some (i, t) →
  let s' := Server.forward_all (snd (fire h (pendingManager s)))
              (Server.with_pendingManager (fst (fire h (pendingManager s))) s) in
  clients s' = clients s
  ∧ pendingManager s' = fst (fire h (pendingManager s))
  ∧ awaiting s' = awaiting s
  ∧ wire s' = wire s ++ notified (tm_request t) (Timeout (tm_request t)) s.
Proof.
  intros Hf s'. subst s'.
  destruct (fire_timers _ _ _ _ Hf) as (_ & _ & _ & -> & _). simpl.
  destruct (notifyClient_fields (tm_request t) (Timeout (tm_request t))
              (Server.with_pendingManager (fst (fire h (pendingManager s))) s))
    as (H1 & H2 & H3 & H4).
  simpl in *. by rewrite H1, H2, H3, H4.
Qed.

Lemma notified_message rid m s k m' :
  (k, m') ∈ notified rid m s →
  m' = m ∧ ∃ c, c ∈ clients s ∧ cl_requestId c = Some rid ∧ cl_socket c = k.
Proof.
  unfold notified.
  destruct (list_find _ (clients s)) as [[i c]|] eqn:Hf; [|by intros ?%elem_of_nil].
  intros H%list_elem_of_singleton. injection H as -> ->.
  apply list_find_Some in Hf as (Hi & Hc & _).
  split; [done|]. exists c. split_and!; try done. by eapply list_elem_of_lookup_2.
Qed.

Lemma ack_precedes_timeout_app w ws :
  ack_precedes_timeout w →
  (∀ k rid, (k, Timeout rid) ∈ ws → ∃ mid, (k, Ack rid mid) ∈ w) →
  ack_precedes_timeout (w ++ ws).
Proof.
  intros Hw Hws i k rid Hi.
  destruct (decide (i < length w)) as [Hlt|Hge].
  - rewrite lookup_app_l in Hi by done.
    destruct (Hw i k rid Hi) as (j & mid & Hj & Hjw).
    exists j, mid. split; [done|]. rewrite lookup_app_l by lia. done.
  - rewrite lookup_app_r in Hi by lia.
    apply list_elem_of_lookup_2 in Hi.
    destruct (Hws k rid Hi) as (mid & Hack).
    apply list_elem_of_lookup_1 in Hack as (j & Hj).
    exists j, mid. pose proof (lookup_lt_Some _ _ _ Hj).
    split; [lia|]. by rewrite lookup_app_l by lia.
Qed.

(** A step that arms no timer, binds no client, suspends no delivery and
    writes no Timeout keeps the invariant. *)
Lemma daemon_inv_shrink s s' :
  daemon_inv s →
  timers_ok (pendingManager s') →
  (∀ r, timers (pendingManager s) !! r = None →
        timers (pendingManager s') !! r = None) →
  (∀ t, t ∈ scheduled (pendingManager s') → t ∈ scheduled (pendingManager s)) →
  (∀ c, c ∈ clients s' → c ∈ clients s ∨ cl_requestId c = None) →
  (∀ k rid, AwaitSendMessage k rid ∈ awaiting s' →
            AwaitSendMessage k rid ∈ awaiting s) →
  NoDup (omap delivery_of (awaiting s')) →
  (∃ ws, wire s' = wire s ++ ws ∧ ∀ k rid, (k, Timeout rid) ∉ ws) →
  daemon_inv s'.
Proof.
  intros [I1 I2 I3 I4 I5 I6] Hok Htm Hsch Hcl Haw Hnd (ws & Hw & Hquiet).
  split.
  - done.
  - intros k rid Hin. apply Htm. by eapply I2, Haw.
  - done.
  - intros t Ht. destruct (I4 t (Hsch t Ht)) as (k & mid & Hack & Hcs).
    exists k, mid. split.
    + rewrite Hw. apply elem_of_app. by left.
    + intros c Hc Hr. destruct (Hcl c Hc) as [Hc'|Hnone]; [by apply Hcs|].
      by rewrite Hnone in Hr.
  - intros c k rid Hc Hr Hk. destruct (Hcl c Hc) as [Hc'|Hnone].
    + eapply I5; eauto.
    + by rewrite Hnone in Hr.
  - rewrite Hw. apply ack_precedes_timeout_app; [done|].
    intros k rid Hin. by apply Hquiet in Hin.
Qed.

Lemma elem_of_omap_delivery (rid : string) (ks : list Continuation) :
  rid ∈ omap delivery_of ks ↔ ∃ k, AwaitSendMessage k rid ∈ ks.
Proof.
  rewrite list_elem_of_omap. split.
  - intros (c & Hc & Hd). destruct c; simpl in Hd; try discriminate.
    injection Hd as ->. by eexists.
  - intros (k & Hk). by exists (AwaitSendMessage k rid).
Qed.

Lemma fresh_spec id s :
  Daemon.fresh id s = true →
  requests (pendingStore (pendingManager s)) !! id = None
  ∧ timers (pendingManager s) !! id = None
  ∧ (id ∉ omap delivery_of (awaiting s))
  ∧ (∀ c, c ∈ clients s → cl_requestId c ≠ Some id).
Proof.
  unfold Daemon.fresh. rewrite !andb_true_iff, !bool_decide_eq_true.
  intros [[[Hr Ht] Ha] Hc]. split_and!; try done.
  - rewrite elem_of_omap_delivery. intros (k & Hk).
    rewrite forallb_forall in Ha. apply list_elem_of_In, Ha in Hk.
    simpl in Hk. by rewrite bool_decide_eq_true_2 in Hk.
  - intros c Hin Hb. rewrite forallb_forall in Hc.
    apply list_elem_of_In, Hc in Hin.
    by rewrite bool_decide_eq_true_2 in Hin.
Qed.

Lemma daemon_inv_send k m s :
  (∀ rid, m ≠ Timeout rid) → daemon_inv s → daemon_inv (Server.send k m s).
Proof.
  intros Hm Hinv. apply (daemon_inv_shrink s); try done; try apply Hinv; auto.
  exists [(k, m)]. split; [done|].
  intros k' rid Hin%list_elem_of_singleton. injection Hin as _ Heq.
  by apply (Hm rid).
Qed.

Lemma daemon_inv_with_pendingManager pm' s :
  timers_ok pm' →
  (∀ r, timers (pendingManager s) !! r = None → timers pm' !! r = None) →
  (∀ t, t ∈ scheduled pm' → t ∈ scheduled (pendingManager s)) →
  daemon_inv s → daemon_inv (Server.with_pendingManager pm' s).
Proof.
  intros Hok Htm Hsch Hinv.
  apply (daemon_inv_shrink s); try done; try apply Hinv; auto.
  exists []. split; [by rewrite app_nil_r|]. intros k rid. apply not_elem_of_nil.
Qed.

Lemma daemon_inv_clearTimeout rid pm' s :
  timers pm' = timers (clearTimeout rid (pendingManager s)) →
  scheduled pm' = scheduled (clearTimeout rid (pendingManager s)) →
  next_handle pm' = next_handle (clearTimeout rid (pendingManager s)) →
  daemon_inv s → daemon_inv (Server.with_pendingManager pm' s).
Proof.
  intros Ht Hs Hn Hinv. apply daemon_inv_with_pendingManager; [| | |done].
  - eapply timers_ok_ext; [done..|]. apply timers_ok_clearTimeout, Hinv.
  - intros r Hr. rewrite Ht, clearTimeout_timers.
    apply lookup_delete_None. by right.
  - intros t. rewrite Hs. unfold clearTimeout.
    destruct (timers (pendingManager s) !! rid); [|done].
    simpl. rewrite elem_of_disarm. by intros [_ ?].
Qed.

Lemma daemon_inv_same_timers pm' s :
  timers pm' = timers (pendingManager s) →
  scheduled pm' = scheduled (pendingManager s) →
  next_handle pm' = next_handle (pendingManager s) →
  daemon_inv s → daemon_inv (Server.with_pendingManager pm' s).
Proof.
  intros Ht Hs Hn Hinv. apply daemon_inv_with_pendingManager; [| | |done].
  - eapply timers_ok_ext; [done..|]. apply Hinv.
  - intros r. by rewrite Ht.
  - intros t. by rewrite Hs.
Qed.

Lemma daemon_inv_suspend k s :
  delivery_of k = None →
  daemon_inv s → daemon_inv (Server.with_awaiting (awaiting s ++ [k]) s).
Proof.
  intros Hk Hinv. apply (daemon_inv_shrink s); try done; try apply Hinv; auto.
  - simpl. intros k' rid [Hin|Hin%list_elem_of_singleton]%elem_of_app; [done|].
    by subst k.
  - simpl. rewrite omap_app. simpl. rewrite Hk, app_nil_r. apply Hinv.
  - exists []. split; [by rewrite app_nil_r|]. intros ? ?. apply not_elem_of_nil.
Qed.

Lemma daemon_inv_resume k ks s :
  Daemon.take k (awaiting s) = Some ks →
  daemon_inv s → daemon_inv (Server.with_awaiting ks s).
Proof.
  intros Htake Hinv. apply take_split in Htake as (l1 & l2 & Hl & ->).
  apply (daemon_inv_shrink s); try done; try apply Hinv; auto.
  - simpl. intros k' rid Hin. rewrite Hl.
    apply elem_of_app in Hin as [Hin|Hin]; apply elem_of_app; [by left|].
    right. by right.
  - simpl. pose proof (inv_await_nodup s Hinv) as Hnd.
    rewrite Hl in Hnd. rewrite omap_app in *.
    apply NoDup_app in Hnd as (H1 & H2 & H3).
    apply NoDup_app. split_and!; [done| |].
    + intros x Hx Hx'. apply (H2 x Hx). simpl.
      destruct (delivery_of k); [by right|done].
    + simpl in H3. destruct (delivery_of k); [|done].
      by apply NoDup_cons in H3 as [_ ?].
  - exists []. split; [by rewrite app_nil_r|]. intros ? ?. apply not_elem_of_nil.
Qed.

Lemma notified_quiet rid m s :
  (∀ r, m ≠ Timeout r) → ∀ k r, (k, Timeout r) ∉ notified rid m s.
Proof.
  intros Hm k r Hin. apply notified_message in Hin as [Heq _].
  by apply (Hm r).
Qed.

Lemma daemon_inv_record now now' rid response s :
  daemon_inv s → daemon_inv (Daemon.record now now' rid response s).
Proof.
  intros Hinv.
  destruct (record_fields now now' rid response s) as (Hc & Hp & Ha & Hw).
  pose proof (daemon_inv_clearTimeout rid
                (fst (setResponse now now' rid response (pendingManager s))) s
                eq_refl eq_refl eq_refl Hinv) as Hinv'.
  apply (daemon_inv_shrink (Server.with_pendingManager
           (fst (setResponse now now' rid response (pendingManager s))) s));
    try done.
  - rewrite Hp. apply Hinv'.
  - by rewrite Hp.
  - by rewrite Hp.
  - rewrite Hc. auto.
  - by rewrite Ha.
  - rewrite Ha. apply Hinv.
  - eexists. split; [exact Hw|]. by apply notified_quiet.
Qed.

Lemma updateTerminalActive_timers rid active pm :
  timers (updateTerminalActive rid active pm) = timers pm
  ∧ scheduled (updateTerminalActive rid active pm) = scheduled pm
  ∧ next_handle (updateTerminalActive rid active pm) = next_handle pm.
Proof.
  unfold updateTerminalActive.
  by destruct (requestToTerminal (sessionStore pm) !! rid).
Qed.

Lemma processResponse_head_timers alive rid pm :
  timers (fst (DiscordHandler.processResponse_head alive rid pm)) = timers pm
  ∧ scheduled (fst (DiscordHandler.processResponse_head alive rid pm)) = scheduled pm
  ∧ next_handle (fst (DiscordHandler.processResponse_head alive rid pm))
    = next_handle pm.
Proof.
  unfold DiscordHandler.processResponse_head.
  destruct (getTerminal rid pm) as [t|]; [|done].
  destruct (alive (ti_pid t)); simpl; [done|].
  destruct (JS.truthy (ti_sessionId t)); simpl; apply updateTerminalActive_timers.
Qed.

(** [answer] either suspends or records, on a manager whose timers are
    those of [s]. *)
Lemma answer_cases alive now now' rid response s :
  let s1 := Server.with_pendingManager
              (fst (DiscordHandler.processResponse_head alive rid (pendingManager s))) s in
  Daemon.answer alive now now' rid response s
  = Server.with_awaiting (awaiting s1 ++ [AwaitResume rid response]) s1
  ∨ Daemon.answer alive now now' rid response s
    = Daemon.record now now' rid response s1.
Proof.
  unfold Daemon.answer.
  destruct (DiscordHandler.processResponse_head alive rid (pendingManager s))
    as [pm1 [r|]]; simpl; auto.
Qed.

Lemma daemon_inv_answer alive now now' rid response s :
  daemon_inv s → daemon_inv (Daemon.answer alive now now' rid response s).
Proof.
  intros Hinv.
  destruct (processResponse_head_timers alive rid (pendingManager s)) as (Ht & Hs & Hn).
  pose proof (daemon_inv_same_timers _ s Ht Hs Hn Hinv) as Hinv1.
  destruct (answer_cases alive now now' rid response s) as [-> | ->].
  - by apply daemon_inv_suspend.
  - by apply daemon_inv_record.
Qed.

Lemma elem_of_map_set socket c cs c' :
  c' ∈ Server.map_set socket c cs → c' = c ∨ c' ∈ cs.
Proof.
  induction cs as [|c0 cs IH]; simpl.
  - intros ?%list_elem_of_singleton. by left.
  - case_decide.
    + intros [->|?]%elem_of_cons; [by left|]. right. by right.
    + intros [->|?]%elem_of_cons; [right; by left|].
      destruct IH as [?|?]; [done|by left|]. right. by right.
Qed.

(** Creating a request under a fresh id and suspending on its delivery. *)
Lemma daemon_inv_create k id s s' :
  daemon_inv s → Daemon.fresh id s = true →
  timers (pendingManager s') = timers (pendingManager s) →
  scheduled (pendingManager s') = scheduled (pendingManager s) →
  next_handle (pendingManager s') = next_handle (pendingManager s) →
  awaiting s' = awaiting s ++ [AwaitSendMessage k id] →
  wire s' = wire s →
  (∀ c, c ∈ clients s' →
        c ∈ clients s ∨ (cl_socket c = k ∧ cl_requestId c = Some id)) →
  daemon_inv s'.
Proof.
  intros [I1 I2 I3 I4 I5 I6] (Hfr & Hft & Hfa & Hfc)%fresh_spec Ht Hs Hn Ha Hw Hc.
  split.
  - by eapply timers_ok_ext.
  - rewrite Ha, Ht. intros k' rid [Hin|Hin%list_elem_of_singleton]%elem_of_app.
    + by eapply I2.
    + by injection Hin as -> ->.
  - rewrite Ha, omap_app. simpl. apply NoDup_app. split_and!; [done| |].
    + intros x Hx Hx'%list_elem_of_singleton. by subst x.
    + apply NoDup_singleton.
  - rewrite Hs, Hw. intros t Hin.
    destruct (I4 t Hin) as (k0 & mid & Hack & Hcs). exists k0, mid.
    split; [done|]. intros c Hcin Hr.
    destruct (Hc c Hcin) as [Hold|[_ Hnew]]; [by apply Hcs|].
    rewrite Hnew in Hr. injection Hr as Hr.
    destruct I1 as [Hreg _]. destruct (Hreg t Hin) as [Hreg' _].
    rewrite <- Hr, Hft in Hreg'. discriminate.
  - rewrite Ha. intros c k' rid Hcin Hr [Hin|Hin%list_elem_of_singleton]%elem_of_app.
    + destruct (Hc c Hcin) as [Hold|[_ Hnew]]; [by eapply I5|].
      rewrite Hnew in Hr. injection Hr as <-.
      exfalso. apply Hfa. apply elem_of_omap_delivery. by eexists.
    + injection Hin as -> ->.
      destruct (Hc c Hcin) as [Hold|[Hsock _]]; [|done].
      by apply Hfc in Hold.
  - by rewrite Hw.
Qed.

Lemma daemon_inv_delivered k rid mid ks s :
  daemon_inv s →
  Daemon.take (AwaitSendMessage k rid) (awaiting s) = Some ks →
  daemon_inv (Server.handle_delivered k rid mid (Server.with_awaiting ks s)).
Proof.
  intros Hinv Htake.
  pose proof (daemon_inv_resume _ _ _ Htake Hinv) as [J1 J2 J3 J4 J5 J6].
  destruct Hinv as [I1 I2 I3 I4 I5 I6].
  apply take_split in Htake as (l1 & l2 & Hl & ->).
  assert (Hin : AwaitSendMessage k rid ∈ awaiting s).
  { rewrite Hl. apply elem_of_app. right. by left. }
  assert (Hnone : timers (pendingManager s) !! rid = None) by by eapply I2.
  assert (Hnot : ∀ k', AwaitSendMessage k' rid ∉ l1 ++ l2).
  { intros k' Hk'. rewrite Hl, omap_app in I3. simpl in I3.
    apply NoDup_app in I3 as (_ & H2 & H3). apply NoDup_cons in H3 as [H3 _].
    apply elem_of_app in Hk' as [Hk'|Hk'].
    - apply (H2 rid); [apply elem_of_omap_delivery; by eexists | by left].
    - apply H3. apply elem_of_omap_delivery. by eexists. }
  simpl in *.
  split; simpl.
  - by apply timers_ok_setDiscordMessageId.
  - intros k' r Hk'.
    assert (r ≠ rid) as Hne by (intros ->; by apply (Hnot k')).
    destruct (setDiscordMessageId_timers rid mid (pendingManager s))
      as [(-> & _)|(d & -> & _)]; [by eapply J2|].
    rewrite lookup_insert_ne by done. by eapply J2.
  - done.
  - intros t Ht.
    destruct (setDiscordMessageId_timers rid mid (pendingManager s))
      as [(_ & Hs & _)|(d & _ & Hs & _)]; rewrite Hs in Ht.
    + destruct (I4 t Ht) as (k0 & mid0 & Hack & Hcs). exists k0, mid0.
      split; [|done]. apply elem_of_app. by left.
    + apply elem_of_app in Ht as [Ht|Ht%list_elem_of_singleton].
      * destruct (I4 t Ht) as (k0 & mid0 & Hack & Hcs). exists k0, mid0.
        split; [|done]. apply elem_of_app. by left.
      * subst t. simpl. exists k, mid. split.
        -- apply elem_of_app. right. by left.
        -- intros c Hc Hr. by eapply I5.
  - done.
  - apply ack_precedes_timeout_app; [done|].
    intros k' r Hk'%list_elem_of_singleton. discriminate.
Qed.

Lemma daemon_inv_fire h s i t :
  daemon_inv s →
  list_find (λ t, tm_handle t = h) (scheduled (pendingManager s)) = Some (i, t) →
  daemon_inv (Server.forward_all (snd (fire h (pendingManager s)))
                (Server.with_pendingManager (fst (fire h (pendingManager s))) s)).
Proof.
  intros Hinv Hf.
  destruct (fire_step_fields h s i t Hf) as (Hc & Hp & Ha & Hw).
  destruct (fire_timers _ _ _ _ Hf) as (Ht & Hs & Hn & _).
  destruct (list_find_handle _ _ _ _ Hf) as [Hin Hh].
  destruct Hinv as [I1 I2 I3 I4 I5 I6].
  split.
  - rewrite Hp. by apply timers_ok_fire.
  - rewrite Hp, Ha, Ht. intros k rid Hk. apply lookup_delete_None. right.
    by eapply I2.
  - by rewrite Ha.
  - rewrite Hp, Hs, Hc, Hw. intros t' [_ Ht']%elem_of_disarm.
    destruct (I4 t' Ht') as (k0 & mid0 & Hack & Hcs). exists k0, mid0.
    split; [|done]. apply elem_of_app. by left.
  - rewrite Hc, Ha. done.
  - rewrite Hw. apply ack_precedes_timeout_app; [done|].
    intros k rid Hk. apply notified_message in Hk as [Heq (c & Hcin & Hr & Hsock)].
    injection Heq as ->.
    destruct (I4 t Hin) as (k0 & mid0 & Hack & Hcs).
    exists mid0. by rewrite <- Hsock, (Hcs c Hcin Hr).
Qed.

Lemma cleanup_next_handle rid pm :
  next_handle (cleanup rid pm) = next_handle (clearTimeout rid pm).
Proof.
  unfold cleanup. simpl.
  destruct (requests (pendingStore (clearTimeout rid pm)) !! rid
              ≫= req_discordMessageId) as [m|]; simpl; [|done].
  by destruct (negb (m =? "")%string).
Qed.

Lemma daemon_inv_clients cs s :
  (∀ c, c ∈ cs → c ∈ clients s ∨ cl_requestId c = None) →
  daemon_inv s → daemon_inv (Server.with_clients cs s).
Proof.
  intros Hcs Hinv. apply (daemon_inv_shrink s); try done; try apply Hinv; auto.
  exists []. split; [by rewrite app_nil_r|]. intros ? ?. apply not_elem_of_nil.
Qed.

Lemma daemon_inv_handleMessage cfg id now socket raw s :
  (Daemon.creates raw = true → Daemon.fresh id s = true) →
  daemon_inv s → daemon_inv (Server.handleMessage cfg id now socket raw s).
Proof.
  intros Hfresh Hinv.
  destruct raw as [| |[message sessionInfo|message options sessionInfo timeout noWait
                      |requestId|requestId]]; simpl.
  - by apply daemon_inv_send.
  - by apply daemon_inv_send.
  - apply (daemon_inv_create socket id s); try done. by apply Hfresh.
    simpl. auto.
  - apply (daemon_inv_create socket id s); try done. by apply Hfresh.
    simpl. intros c (c0 & -> & Hc0)%list_elem_of_fmap.
    case_decide; [right|left]; done.
  - unfold Server.handleStatus.
    destruct (getRequest requestId (pendingManager s)); [done|].
    by apply daemon_inv_send.
  - unfold Server.handleCancel. apply daemon_inv_send; [done|].
    apply (daemon_inv_clearTimeout requestId); try done.
    + by rewrite cleanup_timers, clearTimeout_timers.
    + apply cleanup_scheduled.
    + apply cleanup_next_handle.
Qed.

(** Every step of the daemon keeps the invariant. *)
Lemma step_inv cfg e s s' :
  daemon_inv s → Daemon.step cfg e s = Some s' → daemon_inv s'.
Proof.
  intros Hinv Hstep.
  destruct e as [socket|socket|socket raw id now|socket rid mid|socket rid errmsg
                |message alive now now'|interaction|rid response alive now now'
                |rid response now now'|h]; simpl in Hstep.
  - injection Hstep as <-. apply daemon_inv_clients; [|done].
    intros c [->|Hc]%elem_of_map_set; auto.
  - injection Hstep as <-. apply daemon_inv_clients; [|done].
    intros c [_ Hc]%list_elem_of_filter; auto.
  - destruct (Daemon.creates raw && negb (Daemon.fresh id s)) eqn:E; [done|].
    injection Hstep as <-. apply daemon_inv_handleMessage; [|done].
    intros Hcr. rewrite Hcr in E. simpl in E. by apply negb_false_iff in E.
  - destruct (Daemon.take _ (awaiting s)) as [ks|] eqn:Htake; [|done].
    injection Hstep as <-. by apply daemon_inv_delivered.
  - destruct (Daemon.take _ (awaiting s)) as [ks|] eqn:Htake; [|done].
    injection Hstep as <-. apply daemon_inv_send; [done|].
    by eapply daemon_inv_resume.
  - destruct (DiscordHandler.handleMessage_head _ _ _) as [request|];
      injection Hstep as <-; [|done].
    by apply daemon_inv_answer.
  - destruct (DiscordHandler.handleButton_head _ _) as [[rid response]|];
      injection Hstep as <-; [|done].
    by apply daemon_inv_suspend.
  - destruct (Daemon.take _ (awaiting s)) as [ks|] eqn:Htake; [|done].
    injection Hstep as <-. apply daemon_inv_answer.
    by eapply daemon_inv_resume.
  - destruct (Daemon.take _ (awaiting s)) as [ks|] eqn:Htake; [|done].
    injection Hstep as <-. apply daemon_inv_record.
    by eapply daemon_inv_resume.
  - destruct (list_find _ (scheduled (pendingManager s))) as [[i t]|] eqn:Hf; [|done].
    destruct (fire h (pendingManager s)) as [pm evs] eqn:Hfire.
    injection Hstep as <-.
    pose proof (daemon_inv_fire h s i t Hinv Hf) as H.
    by rewrite Hfire in H.
Qed.

Lemma run_inv cfg es s s' :
  daemon_inv s → Daemon.run cfg es s = Some s' → daemon_inv s'.
Proof.
  revert s. induction es as [|e es IH]; intros s Hinv Hrun; simpl in Hrun.
  - by injection Hrun as <-.
  - destruct (Daemon.step cfg e s) as [s1|] eqn:Hstep; [|done].
    simpl in Hrun. eapply IH; [|done]. by eapply step_inv.
Qed.

(** A daemon that has just started satisfies the invariant. *)
Lemma new_inv cfg h0 d s : Server.new cfg h0 d = Ok s → daemon_inv s.
Proof.
  unfold Server.new. rewrite PendingManager_new_spec. simpl.
  intros H. injection H as <-. split; simpl.
  - split; simpl; [by intros t ?%elem_of_nil | apply NoDup_nil_2].
  - by intros k rid ?%elem_of_nil.
  - apply NoDup_nil_2.
  - by intros t ?%elem_of_nil.
  - by intros c k rid ?%elem_of_nil.
  - intros i k rid H. by rewrite lookup_nil in H.
Qed.

(** ** What a step does to the timers, the suspended deliveries and the statuses *)

Lemma handleMessage_timers cfg id now socket raw s r :
  timers (pendingManager s) !! r = None →
  timers (pendingManager (Server.handleMessage cfg id now socket raw s)) !! r = None.
Proof.
  intros H.
  destruct raw as [| |[message sessionInfo|message options sessionInfo timeout noWait
                      |requestId|requestId]]; try done.
  - simpl. unfold Server.handleStatus. by destruct (getRequest _ _).
  - change (timers (cleanup requestId (pendingManager s)) !! r = None).
    rewrite cleanup_timers. apply lookup_delete_None. by right.
Qed.

Lemma record_timers now now' rid response s r :
  timers (pendingManager s) !! r = None →
  timers (pendingManager (Daemon.record now now' rid response s)) !! r = None.
Proof.
  intros H. destruct (record_fields now now' rid response s) as (_ & -> & _).
  simpl. rewrite clearTimeout_timers. apply lookup_delete_None. by right.
Qed.

Lemma answer_timers alive now now' rid response s r :
  timers (pendingManager s) !! r = None →
  timers (pendingManager (Daemon.answer alive now now' rid response s)) !! r = None.
Proof.
  intros H.
  destruct (processResponse_head_timers alive rid (pendingManager s)) as (Ht & _).
  destruct (answer_cases alive now now' rid response s) as [-> | ->].
  - simpl. by rewrite Ht.
  - apply record_timers. simpl. by rewrite Ht.
Qed.

(** Only the completion of the delivery of [r] registers a timer for [r]. *)
Lemma step_timers_none cfg e s s' r :
  Daemon.step cfg e s = Some s' →
  timers (pendingManager s) !! r = None →
  (∀ k mid, e ≠ Delivered k r mid) →
  timers (pendingManager s') !! r = None.
Proof.
  intros Hstep Hnone Hne.
  destruct e as [socket|socket|socket raw id now|socket rid mid|socket rid errmsg
                |message alive now now'|interaction|rid response alive now now'
                |rid response now now'|h]; simpl in Hstep.
  - by injection Hstep as <-.
  - by injection Hstep as <-.
  - destruct (Daemon.creates raw && negb (Daemon.fresh id s)); [done|].
    injection Hstep as <-. by apply handleMessage_timers.
  - destruct (Daemon.take _ (awaiting s)) as [ks|]; [|done].
    injection Hstep as <-. simpl.
    assert (rid ≠ r) as Hr by (intros ->; by eapply Hne).
    destruct (setDiscordMessageId_timers rid mid (pendingManager s))
      as [(-> & _)|(d & -> & _)]; [done|].
    by rewrite lookup_insert_ne.
  - destruct (Daemon.take _ (awaiting s)) as [ks|]; [|done].
    by injection Hstep as <-.
  - destruct (DiscordHandler.handleMessage_head _ _ _) as [request|];
      injection Hstep as <-; [|done].
    by apply answer_timers.
  - destruct (DiscordHandler.handleButton_head _ _) as [[rid response]|];
      by injection Hstep as <-.
  - destruct (Daemon.take _ (awaiting s)) as [ks|]; [|done].
    injection Hstep as <-. by apply answer_timers.
  - destruct (Daemon.take _ (awaiting s)) as [ks|]; [|done].
    injection Hstep as <-. by apply record_timers.
  - destruct (list_find _ (scheduled (pendingManager s))) as [[i t]|] eqn:Hf; [|done].
    destruct (fire_step_fields h s i t Hf) as (_ & Hp & _).
    destruct (fire_timers _ _ _ _ Hf) as (Ht & _).
    destruct (fire h (pendingManager s)) as [pm evs]. simpl in Hp, Ht.
    injection Hstep as <-. rewrite Hp, Ht. apply lookup_delete_None. by right.
Qed.

Lemma take_elem_of k ks ks' k' :
  Daemon.take k ks = Some ks' → k' ∈ ks' → k' ∈ ks.
Proof.
  intros (l1 & l2 & -> & ->)%take_split Hin.
  apply elem_of_app in Hin as [?|?]; apply elem_of_app; [by left|].
  right. by right.
Qed.

Lemma record_awaiting now now' rid response s :
  awaiting (Daemon.record now now' rid response s) = awaiting s.
Proof. by destruct (record_fields now now' rid response s) as (_ & _ & -> & _). Qed.

Lemma answer_awaiting alive now now' rid response s k r :
  AwaitSendMessage k r ∈ awaiting (Daemon.answer alive now now' rid response s) →
  AwaitSendMessage k r ∈ awaiting s.
Proof.
  destruct (answer_cases alive now now' rid response s) as [-> | ->].
  - simpl. by intros [?|?%list_elem_of_singleton]%elem_of_app.
  - by rewrite record_awaiting.
Qed.

(** Only the creation of request [r] suspends a handler on its delivery. *)
Lemma step_awaiting cfg e s s' k r :
  Daemon.step cfg e s = Some s' →
  AwaitSendMessage k r ∈ awaiting s' →
  AwaitSendMessage k r ∈ awaiting s ∨ creates_id r e = true.
Proof.
  intros Hstep Hin.
  destruct e as [socket|socket|socket raw id now|socket rid mid|socket rid errmsg
                |message alive now now'|interaction|rid response alive now now'
                |rid response now now'|h]; simpl in Hstep.
  - injection Hstep as <-. by left.
  - injection Hstep as <-. by left.
  - destruct (Daemon.creates raw && negb (Daemon.fresh id s)); [done|].
    injection Hstep as <-.
    destruct raw as [| |[message sessionInfo|message options sessionInfo timeout noWait
                        |requestId|requestId]]; simpl in *; try by left.
    + apply elem_of_app in Hin as [?|Hin%list_elem_of_singleton]; [by left|].
      injection Hin as -> ->. right. by rewrite bool_decide_eq_true_2.
    + apply elem_of_app in Hin as [?|Hin%list_elem_of_singleton]; [by left|].
      injection Hin as -> ->. right. by rewrite bool_decide_eq_true_2.
    + unfold Server.handleStatus in Hin.
      destruct (getRequest _ _); by left.
  - destruct (Daemon.take _ (awaiting s)) as [ks|] eqn:Ht; [|done].
    injection Hstep as <-. left. by eapply take_elem_of.
  - destruct (Daemon.take _ (awaiting s)) as [ks|] eqn:Ht; [|done].
    injection Hstep as <-. left. by eapply take_elem_of.
  - destruct (DiscordHandler.handleMessage_head _ _ _) as [request|];
      injection Hstep as <-; [|by left].
    left. by apply answer_awaiting in Hin.
  - destruct (DiscordHandler.handleButton_head _ _) as [[rid response]|];
      injection Hstep as <-; [|by left].
    simpl in Hin. left.
    by apply elem_of_app in Hin as [?|?%list_elem_of_singleton].
  - destruct (Daemon.take _ (awaiting s)) as [ks|] eqn:Ht; [|done].
    injection Hstep as <-. left.
    eapply take_elem_of; [done|]. by apply answer_awaiting in Hin.
  - destruct (Daemon.take _ (awaiting s)) as [ks|] eqn:Ht; [|done].
    injection Hstep as <-. left.
    eapply take_elem_of; [done|]. by rewrite record_awaiting in Hin.
  - destruct (list_find _ (scheduled (pendingManager s))) as [[i t]|] eqn:Hf; [|done].
    destruct (fire_step_fields h s i t Hf) as (_ & _ & Ha & _).
    destruct (fire h (pendingManager s)) as [pm evs]. simpl in Ha.
    injection Hstep as <-. left. by rewrite Ha in Hin.
Qed.

Lemma step_delivered_awaited cfg k r mid s s' :
  Daemon.step cfg (Delivered k r mid) s = Some s' →
  AwaitSendMessage k r ∈ awaiting s.
Proof.
  simpl. destruct (Daemon.take _ (awaiting s)) as [ks|] eqn:Ht; [|done].
  intros _. apply take_split in Ht as (l1 & l2 & -> & _).
  apply elem_of_app. right. by left.
Qed.

Lemma status_answered_not_timeout now now' rid response pm r :
  status r (fst (setResponse now now' rid response pm)) = StTimeout →
  status r pm = StTimeout.
Proof.
  destruct (decide (rid = r)) as [->|Hne].
  - by rewrite (status_insert _ _ _ _ (setResponse_responses _ _ _ _ pm)).
  - by rewrite (status_insert_ne _ _ _ _ _ Hne (setResponse_responses _ _ _ _ pm)).
Qed.

Lemma status_same_store r pm pm' :
  responses (pendingStore pm') = responses (pendingStore pm) →
  status r pm' = status r pm.
Proof. unfold status. by intros ->. Qed.

Lemma record_status now now' rid response s r :
  status r (pendingManager (Daemon.record now now' rid response s)) = StTimeout →
  status r (pendingManager s) = StTimeout.
Proof.
  destruct (record_fields now now' rid response s) as (_ & -> & _).
  apply status_answered_not_timeout.
Qed.

Lemma answer_status alive now now' rid response s r :
  status r (pendingManager (Daemon.answer alive now now' rid response s)) = StTimeout →
  status r (pendingManager s) = StTimeout.
Proof.
  pose proof (processResponse_head_pendingStore alive rid (pendingManager s)) as Hps.
  destruct (answer_cases alive now now' rid response s) as [-> | ->].
  - simpl. unfold status. by rewrite Hps.
  - intros H%record_status. simpl in H. unfold status in *. by rewrite Hps in H.
Qed.

Lemma setDiscordMessageId_responses rid mid pm :
  responses (pendingStore (setDiscordMessageId rid mid pm))
  = responses (pendingStore pm).
Proof.
  unfold setDiscordMessageId.
  destruct (requests (pendingStore pm) !! rid) as [r|]; [|done].
  by destruct (bool_decide _ && negb _).
Qed.

(** A step records [timeout] for [r] only by firing a timer of [r]; there
    is none while no timer is registered for [r]. *)
Lemma step_status cfg e s s' r :
  daemon_inv s →
  timers (pendingManager s) !! r = None →
  Daemon.step cfg e s = Some s' →
  status r (pendingManager s') = StTimeout →
  status r (pendingManager s) = StTimeout.
Proof.
  intros Hinv Hnone Hstep.
  destruct e as [socket|socket|socket raw id now|socket rid mid|socket rid errmsg
                |message alive now now'|interaction|rid response alive now now'
                |rid response now now'|h]; simpl in Hstep.
  - by injection Hstep as <-.
  - by injection Hstep as <-.
  - destruct (Daemon.creates raw && negb (Daemon.fresh id s)); [done|].
    injection Hstep as <-.
    destruct raw as [| |[message sessionInfo|message options sessionInfo timeout noWait
                        |requestId|requestId]]; try done.
    + simpl. unfold Server.handleStatus. by destruct (getRequest _ _).
    + change (status r (cleanup requestId (pendingManager s)) = StTimeout →
              status r (pendingManager s) = StTimeout).
      unfold status. rewrite cleanup_responses.
      destruct (decide (requestId = r)) as [->|Hne].
      * by rewrite lookup_delete_eq.
      * by rewrite lookup_delete_ne.
  - destruct (Daemon.take _ (awaiting s)) as [ks|]; [|done].
    injection Hstep as <-. simpl.
    by rewrite (status_same_store _ _ _ (setDiscordMessageId_responses rid mid _)).
  - destruct (Daemon.take _ (awaiting s)) as [ks|]; [|done].
    by injection Hstep as <-.
  - destruct (DiscordHandler.handleMessage_head _ _ _) as [request|];
      injection Hstep as <-; [|done].
    apply answer_status.
  - destruct (DiscordHandler.handleButton_head _ _) as [[rid response]|];
      by injection Hstep as <-.
  - destruct (Daemon.take _ (awaiting s)) as [ks|]; [|done].
    injection Hstep as <-. intros H%answer_status. done.
  - destruct (Daemon.take _ (awaiting s)) as [ks|]; [|done].
    injection Hstep as <-. intros H%record_status. done.
  - destruct (list_find _ (scheduled (pendingManager s))) as [[i t]|] eqn:Hf; [|done].
    destruct (fire_step_fields h s i t Hf) as (_ & Hp & _).
    destruct (fire_timers _ _ _ _ Hf) as (_ & _ & _ & _ & Hres & _).
    destruct (list_find_handle _ _ _ _ Hf) as [Hin _].
    destruct (fire h (pendingManager s)) as [pm evs]. simpl in Hp, Hres.
    injection Hstep as <-. rewrite Hp.
    assert (tm_request t ≠ r) as Hne.
    { intros Heq. destruct (inv_timers s Hinv) as [Hreg _].
      destruct (Hreg t Hin) as [Hr _]. rewrite Heq, Hnone in Hr. discriminate. }
    by rewrite (status_insert_ne _ _ _ _ _ Hne Hres).
Qed.

(** ** Timers *)

Lemma setDiscordMessageId_ask rid mid pm request :
  requests (pendingStore pm) !! rid = Some request →
  req_type request = TAsk → req_noWait request = false →
  setDiscordMessageId rid mid pm
  = startTimeout rid (req_timeout request)
      (saveSessionStore
         (with_messageToRequest
            (<[mid := rid]> (messageToRequest (sessionStore pm)))
            (savePendingStore
               (with_requests
                  (<[rid := with_discordMessageId mid request]>
                     (requests (pendingStore pm))) pm)))).
Proof.
  intros Hr Ht Hn. unfold setDiscordMessageId. rewrite Hr. simpl.
  by rewrite Ht, Hn.
Qed.

Lemma writeFileSync_twice {A} (f : File A) (a : A) :
  writeFileSync (writeFileSync f a) a = writeFileSync f a.
Proof. by destruct f. Qed.

(** C3, as amended. In every run of the daemon, at every point, a request
    has at most one armed timer, and each armed timer is the one registered
    in [timers] under its request id; [setResponse], a firing timer and
    [cleanup] leave the request with no armed timer.  [startTimeout] itself
    never clears: on any manager, attaching the same message id twice to a
    waiting Ask does not fail and changes no store or file the second time,
    but arms a second timer while the first one stays armed (only the
    second is registered). *)
Theorem one_timer_per_request_in_runs
    (cfg : Config) (h0 : nat) (d : Disk) (s0 : Server) (es : list Event)
    (s : Server) :
  Server.new cfg h0 d = Ok s0 →
  Daemon.run cfg es s0 = Some s →
  let pm := pendingManager s in
  (∀ rid, length (live_timers rid pm) ≤ 1)
  ∧ (∀ t, t ∈ scheduled pm → timers pm !! tm_request t = Some (tm_handle t))
  ∧ (∀ now now' rid response,
       live_timers rid (fst (setResponse now now' rid response pm)) = [])
  ∧ (∀ rid, live_timers rid (cleanup rid pm) = [])
  ∧ (∀ h i t,
       list_find (λ t, tm_handle t = h) (scheduled pm) = Some (i, t) →
       live_timers (tm_request t) (fst (fire h pm)) = [])
  ∧ (∀ (pm0 : PendingManager) rid mid request,
       requests (pendingStore pm0) !! rid = Some request →
       req_type request = TAsk → req_noWait request = false →
       let pm1 := setDiscordMessageId rid mid pm0 in
       let pm2 := setDiscordMessageId rid mid pm1 in
       pendingStore pm2 = pendingStore pm1
       ∧ sessionStore pm2 = sessionStore pm1
       ∧ disk pm2 = disk pm1
       ∧ timers pm2 !! rid = Some (S (next_handle pm0))
       ∧ live_timers rid pm2
         = live_timers rid pm0
           ++ [ {| tm_handle := next_handle pm0; tm_request := rid;
                   tm_delay := req_timeout request |};
                {| tm_handle := S (next_handle pm0); tm_request := rid;
                   tm_delay := req_timeout request |} ]).
Proof.
  intros Hnew Hrun pm.
  pose proof (run_inv _ _ _ _ (new_inv _ _ _ _ Hnew) Hrun) as Hinv.
  pose proof (inv_timers s Hinv) as Hok. fold pm in Hok.
  split_and!.
  - intros rid. by apply timers_ok_live_timers.
  - intros t Ht. destruct Hok as [Hreg _]. by apply Hreg.
  - intros now now' rid response. apply timers_ok_unregistered.
    + by apply timers_ok_setResponse.
    + simpl. rewrite clearTimeout_timers. apply lookup_delete_eq.
  - intros rid. apply timers_ok_unregistered.
    + by apply timers_ok_cleanup.
    + rewrite cleanup_timers. apply lookup_delete_eq.
  - intros h i t Hf. apply timers_ok_unregistered.
    + by apply timers_ok_fire.
    + destruct (fire_timers _ _ _ _ Hf) as (-> & _). apply lookup_delete_eq.
  - intros pm0 rid mid request Hr Ht Hn pm1 pm2.
    assert (H1 : pm1 = startTimeout rid (req_timeout request)
              (saveSessionStore
                 (with_messageToRequest
                    (<[mid := rid]> (messageToRequest (sessionStore pm0)))
                    (savePendingStore
                       (with_requests
                          (<[rid := with_discordMessageId mid request]>
                             (requests (pendingStore pm0))) pm0)))))
      by by apply setDiscordMessageId_ask.
    assert (Hr1 : requests (pendingStore pm1) !! rid
                  = Some (with_discordMessageId mid request))
      by (rewrite H1; simpl; apply lookup_insert_eq).
    pose proof (setDiscordMessageId_ask rid mid pm1 _ Hr1 Ht Hn) as H2.
    fold pm2 in H2. rewrite H2, H1. simpl.
    rewrite !insert_insert_eq.
    split_and!; try done.
    + f_equal; apply writeFileSync_twice.
    + apply lookup_insert_eq.
    + unfold live_timers. simpl. rewrite !filter_app, <- !app_assoc. simpl.
      f_equal. rewrite !filter_cons, filter_nil. simpl.
      by rewrite !decide_True.
Qed.

Lemma one_timer_per_request_in_runs_witness :
  length (live_timers "r1" (pendingManager (Trace.after Trace.asked))) ≤ 1.
Proof.
  refine (proj1 (one_timer_per_request_in_runs Sample.cfg 0 Sample.no_files
                   Sample.srv0 Trace.asked (Trace.after Trace.asked) _ _) "r1").
  - reflexivity.
  - vm_compute. reflexivity.
Defined.

(** C3, counterexample. Request [r1] is a waiting Ask with one armed timer;
    attaching its message id [m1] a second time leaves two armed timers for
    [r1], the first of which was not cleared. *)
Lemma second_attach_leaves_two_live_timers :
  live_timers "r1" Sample.pm_asked
  = [ {| tm_handle := 0; tm_request := "r1"; tm_delay := 300000 |} ]
  ∧ live_timers "r1" (setDiscordMessageId "r1" "m1" Sample.pm_asked)
    = [ {| tm_handle := 0; tm_request := "r1"; tm_delay := 300000 |};
        {| tm_handle := 1; tm_request := "r1"; tm_delay := 300000 |} ]
  ∧ ¬ length (live_timers "r1" (setDiscordMessageId "r1" "m1" Sample.pm_asked)) ≤ 1.
Proof. split_and!; [vm_compute; reflexivity..|]. vm_compute. lia. Qed.

(** ** Restart *)

Lemma run_never_arms cfg es s s' rid :
  daemon_inv s →
  Forall (λ e, creates_id rid e = false) es →
  timers (pendingManager s) !! rid = None →
  (∀ k, AwaitSendMessage k rid ∉ awaiting s) →
  Daemon.run cfg es s = Some s' →
  timers (pendingManager s') !! rid = None
  ∧ daemon_inv s'
  ∧ (status rid (pendingManager s') = StTimeout →
     status rid (pendingManager s) = StTimeout).
Proof.
  revert s. induction es as [|e es IH]; intros s Hinv Hes Hnone Haw Hrun;
    simpl in Hrun.
  - by injection Hrun as <-.
  - destruct (Daemon.step cfg e s) as [s1|] eqn:Hstep; [|done]. simpl in Hrun.
    apply Forall_cons in Hes as [He Hes].
    assert (Hnone1 : timers (pendingManager s1) !! rid = None).
    { eapply step_timers_none; [done..|].
      intros k mid ->. eapply Haw. by eapply step_delivered_awaited. }
    assert (Haw1 : ∀ k, AwaitSendMessage k rid ∉ awaiting s1).
    { intros k Hin.
      destruct (step_awaiting _ _ _ _ _ _ Hstep Hin) as [Hold|Hcr].
      - by eapply Haw.
      - by rewrite He in Hcr. }
    destruct (IH s1 (step_inv _ _ _ _ Hinv Hstep) Hes Hnone1 Haw1 Hrun)
      as (H1 & H2 & H3).
    split_and!; [done..|].
    intros H. eapply step_status; eauto.
Qed.

(** C4, as amended. A restarted daemon loads the stores as they were saved
    and arms no timer; a request that was loaded keeps its entry in the
    request map, but as long as its id is not handed out again no timer is
    ever armed for it in the run that follows, and [timeout] is never
    recorded for it: a loaded pending Ask can only be answered or
    cancelled. *)
Theorem restart_arms_no_timer_for_loaded_requests
    (cfg : Config) (h0 : nat) (d : Disk) (s0 : Server) (es : list Event)
    (s : Server) (rid : string) :
  Server.new cfg h0 d = Ok s0 →
  Forall (λ e, creates_id rid e = false) es →
  Daemon.run cfg es s0 = Some s →
  pendingStore (pendingManager s0) = spec_load emptyPendingStore (pendingFile d)
  ∧ sessionStore (pendingManager s0) = spec_load emptySessionStore (sessionsFile d)
  ∧ timers (pendingManager s0) = ∅
  ∧ scheduled (pendingManager s0) = []
  ∧ timers (pendingManager s) !! rid = None
  ∧ live_timers rid (pendingManager s) = []
  ∧ (status rid (pendingManager s) = StTimeout →
     status rid (pendingManager s0) = StTimeout).
Proof.
  intros Hnew Hes Hrun.
  pose proof (new_inv _ _ _ _ Hnew) as Hinv0.
  unfold Server.new in Hnew. rewrite PendingManager_new_spec in Hnew.
  simpl in Hnew. injection Hnew as <-. simpl in *.
  destruct (run_never_arms cfg es _ s rid Hinv0 Hes) as (H1 & H2 & H3); try done.
  { intros k. apply not_elem_of_nil. }
  split_and!; try done.
  apply timers_ok_unregistered; [apply H2|done].
Qed.

Lemma restart_arms_no_timer_for_loaded_requests_witness :
  live_timers "r1"
    (pendingManager
       (default Trace.restarted
          (Daemon.run Sample.cfg
             [Connect 2; Receive 2 (Msg (CStatus "r1")) "" 5000]
             Trace.restarted)))
  = [].
Proof.
  refine (proj1 (proj2 (proj2 (proj2 (proj2 (proj2
            (restart_arms_no_timer_for_loaded_requests Sample.cfg 0
               (disk (pendingManager (Trace.after Trace.asked)))
               Trace.restarted
               [Connect 2; Receive 2 (Msg (CStatus "r1")) "" 5000]
               _ "r1" _ _ _))))))).
  - vm_compute. reflexivity.
  - repeat constructor.
  - vm_compute. reflexivity.
Defined.

(** C4, counterexample. The daemon is restarted on the files saved after
    the Ask [r1] was delivered.  The manager it constructs holds [r1], a
    waiting Ask with no response yet, and has neither armed a timer for it
    nor recorded [timeout]. *)
Lemma restart_leaves_pending_ask_without_timer :
  Server.new Sample.cfg 0 (disk (pendingManager (Trace.after Trace.asked)))
  = Ok Trace.restarted
  ∧ (req_type <$> getRequest "r1" (pendingManager Trace.restarted)) = Some TAsk
  ∧ (req_noWait <$> getRequest "r1" (pendingManager Trace.restarted)) = Some false
  ∧ responses (pendingStore (pendingManager Trace.restarted)) !! "r1" = None
  ∧ status "r1" (pendingManager Trace.restarted) = StPending
  ∧ live_timers "r1" (pendingManager Trace.restarted) = []
  ∧ timers (pendingManager Trace.restarted) !! "r1" = None.
Proof. split_and!; vm_compute; reflexivity. Qed.

(** ** Acks and terminal messages *)

Lemma record_many now now' rid answers s i c :
  list_find (λ c, cl_requestId c = Some rid) (clients s) = Some (i, c) →
  wire (foldl (λ s a, Daemon.record now now' rid a s) s answers)
  = wire s ++ ((λ a, (cl_socket c, Response rid a now')) <$> answers).
Proof.
  revert s. induction answers as [|a answers IH]; intros s Hf; simpl.
  - by rewrite app_nil_r.
  - destruct (record_fields now now' rid a s) as (Hc & _ & _ & Hw).
    rewrite IH by (by rewrite Hc). rewrite Hw.
    unfold notified. rewrite Hf. by rewrite <- app_assoc.
Qed.

(** C2, as amended. In every run of the daemon every Timeout written to a
    connection comes after an Ack of the same request on that connection,
    and the Ack of a request is written by the step that completes its
    delivery.  Nothing limits the terminal messages to one: each recorded
    answer writes one Response, and each firing timer one Timeout, to the
    first connected client bound to the request, so [n] answers give [n]
    Responses; and nothing orders a Response after the Ack. *)
Theorem ack_precedes_timeout_in_runs
    (cfg : Config) (h0 : nat) (d : Disk) (s0 : Server) (es : list Event)
    (s : Server) :
  Server.new cfg h0 d = Ok s0 →
  Daemon.run cfg es s0 = Some s →
  ack_precedes_timeout (wire s)
  ∧ (∀ k rid mid s',
       Daemon.step cfg (Delivered k rid mid) s = Some s' →
       wire s' = wire s ++ [(k, Ack rid mid)])
  ∧ (∀ now now' rid answers i c,
       list_find (λ c, cl_requestId c = Some rid) (clients s) = Some (i, c) →
       wire (foldl (λ s a, Daemon.record now now' rid a s) s answers)
       = wire s ++ ((λ a, (cl_socket c, Response rid a now')) <$> answers))
  ∧ (∀ h j t i c s',
       list_find (λ t, tm_handle t = h) (scheduled (pendingManager s)) = Some (j, t) →
       list_find (λ c, cl_requestId c = Some (tm_request t)) (clients s) = Some (i, c) →
       Daemon.step cfg (TimerFires h) s = Some s' →
       wire s' = wire s ++ [(cl_socket c, Timeout (tm_request t))]).
Proof.
  intros Hnew Hrun.
  pose proof (run_inv _ _ _ _ (new_inv _ _ _ _ Hnew) Hrun) as Hinv.
  split_and!.
  - apply Hinv.
  - intros k rid mid s' Hstep. simpl in Hstep.
    destruct (Daemon.take _ (awaiting s)) as [ks|]; [|done].
    by injection Hstep as <-.
  - intros now now' rid answers i c Hf. by eapply record_many.
  - intros h j t i c s' Hft Hfc Hstep. simpl in Hstep. rewrite Hft in Hstep.
    destruct (fire_step_fields h s j t Hft) as (_ & _ & _ & Hw).
    destruct (fire h (pendingManager s)) as [pm evs]. simpl in Hw.
    injection Hstep as <-. rewrite Hw. unfold notified. by rewrite Hfc.
Qed.

Lemma ack_precedes_timeout_in_runs_witness :
  ack_precedes_timeout (wire (Trace.after Trace.late_reply)).
Proof.
  refine (proj1 (ack_precedes_timeout_in_runs Sample.cfg 0 Sample.no_files
                   Sample.srv0 Trace.late_reply (Trace.after Trace.late_reply) _ _)).
  - reflexivity.
  - vm_compute. reflexivity.
Defined.

(** C2, counterexample. On connection 1, which awaits the single request
    [r1]: when the timer fires before the reply arrives, a Timeout and then
    a Response are delivered, two terminal messages; and when the button
    click is handled before [sendMessage] returns, the Response is
    delivered before the Ack. *)
Lemma two_terminal_messages_on_one_connection :
  Daemon.received 1 <$> Daemon.run Sample.cfg Trace.late_reply Sample.srv0
  = Some [Ack "r1" "m1"; Timeout "r1"; Response "r1" "Yes" 2001]
  ∧ Daemon.received 1 <$> Daemon.run Sample.cfg Trace.early_click Sample.srv0
    = Some [Response "r1" "No" 1501; Ack "r1" "m1"].
Proof. split; vm_compute; reflexivity. Qed.

(** * Further properties of the daemon *)

(** ** Write-through persistence *)

Lemma clearTimeout_disk rid pm : disk (clearTimeout rid pm) = disk pm.
Proof. unfold clearTimeout. by destruct (timers pm !! rid). Qed.

Lemma persisted_ext pm pm' :
  pendingStore pm' = pendingStore pm → sessionStore pm' = sessionStore pm →
  disk pm' = disk pm → persisted pm → persisted pm'.
Proof. unfold persisted. by intros -> -> ->. Qed.

Lemma persisted_clearTimeout rid pm : persisted pm → persisted (clearTimeout rid pm).
Proof.
  apply persisted_ext;
    [apply clearTimeout_pendingStore | apply clearTimeout_sessionStore
    | apply clearTimeout_disk].
Qed.

Lemma writeFileSync_readable {A} (f : File A) (a : A) :
  f ≠ Unreadable → writeFileSync f a ≠ Unreadable ∧ writeFileSync f a = Holds a.
Proof. by destruct f. Qed.

(** The two saves, on a manager whose other file is up to date. *)
Lemma persisted_savePendingStore pm ps :
  pendingStore pm = ps →
  pendingFile (disk pm) ≠ Unreadable →
  sessionsFile (disk pm) ≠ Unreadable →
  loadSessionStore (disk pm) = Ok (sessionStore pm) →
  persisted (savePendingStore pm).
Proof.
  intros <- Hp Hs Hl. unfold persisted, savePendingStore. simpl.
  destruct (writeFileSync_readable (pendingFile (disk pm)) (pendingStore pm) Hp)
    as [Hr ->].
  split_and!; done.
Qed.

Lemma persisted_saveSessionStore pm :
  pendingFile (disk pm) ≠ Unreadable →
  sessionsFile (disk pm) ≠ Unreadable →
  loadPendingStore (disk pm) = Ok (pendingStore pm) →
  persisted (saveSessionStore pm).
Proof.
  intros Hp Hs Hl. unfold persisted, saveSessionStore. simpl.
  destruct (writeFileSync_readable (sessionsFile (disk pm)) (sessionStore pm) Hs)
    as [Hr ->].
  split_and!; done.
Qed.

(** A change of the pending store followed by its save. *)
Lemma persisted_pending ps pm :
  persisted pm → persisted (savePendingStore (with_pendingStore ps pm)).
Proof.
  intros (Hp & Hs & _ & Hl). by apply (persisted_savePendingStore _ ps).
Qed.

(** A change of the session store followed by its save. *)
Lemma persisted_session ss pm :
  persisted pm → persisted (saveSessionStore (with_sessionStore ss pm)).
Proof.
  intros (Hp & Hs & Hl & _). by apply persisted_saveSessionStore.
Qed.

Lemma persisted_createRequest cfg id now type message sessionInfo options pm :
  persisted pm →
  persisted (fst (createRequest cfg id now type message sessionInfo options pm)).
Proof.
  intros H. unfold createRequest. cbn [fst].
  apply persisted_session. by apply persisted_pending.
Qed.

Lemma persisted_startTimeout rid timeout pm :
  persisted pm → persisted (startTimeout rid timeout pm).
Proof. by apply persisted_ext. Qed.

Lemma persisted_setDiscordMessageId rid mid pm :
  persisted pm → persisted (setDiscordMessageId rid mid pm).
Proof.
  intros H. unfold setDiscordMessageId.
  destruct (requests (pendingStore pm) !! rid) as [r|]; [|done].
  assert (persisted
            (saveSessionStore
               (with_messageToRequest
                  (<[mid := rid]>
                     (messageToRequest
                        (sessionStore
                           (savePendingStore
                              (with_requests
                                 (<[rid := with_discordMessageId mid r]>
                                    (requests (pendingStore pm))) pm)))))
                  (savePendingStore
                     (with_requests
                        (<[rid := with_discordMessageId mid r]>
                           (requests (pendingStore pm))) pm))))) as H'.
  { apply persisted_session. by apply persisted_pending. }
  cbv zeta. destruct (bool_decide _ && negb _); [|exact H'].
  by apply persisted_startTimeout.
Qed.

Lemma persisted_setResponse now now' rid response pm :
  persisted pm → persisted (fst (setResponse now now' rid response pm)).
Proof.
  intros H%(persisted_clearTimeout rid). unfold setResponse. cbn [fst].
  by apply persisted_pending.
Qed.

Lemma persisted_handleTimeout rid pm :
  persisted pm → persisted (fst (handleTimeout rid pm)).
Proof.
  intros H. unfold handleTimeout. cbn [fst].
  apply persisted_pending. revert H. by apply persisted_ext.
Qed.

Lemma persisted_fire h pm : persisted pm → persisted (fst (fire h pm)).
Proof.
  intros H. unfold fire.
  destruct (list_find _ (scheduled pm)) as [[i t]|]; [|done].
  apply persisted_handleTimeout. revert H. by apply persisted_ext.
Qed.

Lemma persisted_updateTerminalActive rid active pm :
  persisted pm → persisted (updateTerminalActive rid active pm).
Proof.
  intros H. unfold updateTerminalActive.
  destruct (requestToTerminal (sessionStore pm) !! rid); [|done].
  by apply persisted_session.
Qed.

Lemma persisted_processResponse_head alive rid pm :
  persisted pm → persisted (fst (DiscordHandler.processResponse_head alive rid pm)).
Proof.
  intros H. unfold DiscordHandler.processResponse_head.
  destruct (getTerminal rid pm) as [t|]; [|done].
  destruct (alive (ti_pid t)); simpl; [done|].
  destruct (JS.truthy (ti_sessionId t)); simpl;
    by apply persisted_updateTerminalActive.
Qed.

Lemma persisted_cleanup rid pm : persisted pm → persisted (cleanup rid pm).
Proof.
  intros H%(persisted_clearTimeout rid). unfold cleanup. cbv zeta.
  set (pm0 := clearTimeout rid pm) in *.
  set (pm1 := match requests (pendingStore pm0) !! rid ≫= req_discordMessageId with
              | Some mid =>
                  if JS.truthy (Some mid)
                  then with_messageToRequest
                         (delete mid (messageToRequest (sessionStore pm0))) pm0
                  else pm0
              | None => pm0
              end).
  assert (Hd : disk pm1 = disk pm0 ∧ pendingStore pm1 = pendingStore pm0).
  { subst pm1. destruct (_ ≫= _) as [mid|]; [|done].
    by destruct (JS.truthy (Some mid)). }
  destruct Hd as [Hd Hps]. destruct H as (Hp & Hs & Hlp & Hls).
  unfold persisted, saveSessionStore, savePendingStore. simpl.
  rewrite !Hd.
  destruct (writeFileSync_readable (pendingFile (disk pm0))
              {| requests := delete rid (requests (pendingStore pm1));
                 responses := delete rid (responses (pendingStore pm1)) |} Hp)
    as [Hr ->].
  destruct (writeFileSync_readable (sessionsFile (disk pm0))
              {| messageToRequest := messageToRequest (sessionStore pm1);
                 requestToTerminal :=
                   delete rid (requestToTerminal (sessionStore pm1)) |} Hs)
    as [Hr' ->].
  split_and!; done.
Qed.

Lemma persisted_record now now' rid response s :
  persisted (pendingManager s) →
  persisted (pendingManager (Daemon.record now now' rid response s)).
Proof.
  destruct (record_fields now now' rid response s) as (_ & -> & _).
  apply persisted_setResponse.
Qed.

Lemma persisted_answer alive now now' rid response s :
  persisted (pendingManager s) →
  persisted (pendingManager (Daemon.answer alive now now' rid response s)).
Proof.
  intros H%(persisted_processResponse_head alive rid).
  destruct (answer_cases alive now now' rid response s) as [-> | ->]; [done|].
  by apply persisted_record.
Qed.

Lemma persisted_step cfg e s s' :
  persisted (pendingManager s) → Daemon.step cfg e s = Some s' →
  persisted (pendingManager s').
Proof.
  intros Hp Hstep.
  destruct e as [socket|socket|socket raw id now|socket rid mid|socket rid errmsg
                |message alive now now'|interaction|rid response alive now now'
                |rid response now now'|h]; simpl in Hstep.
  - by injection Hstep as <-.
  - by injection Hstep as <-.
  - destruct (Daemon.creates raw && negb (Daemon.fresh id s)); [done|].
    injection Hstep as <-.
    destruct raw as [| |[message sessionInfo|message options sessionInfo timeout noWait
                        |requestId|requestId]]; try done.
    + by apply (persisted_createRequest cfg id now TSend).
    + by apply (persisted_createRequest cfg id now TAsk).
    + simpl. unfold Server.handleStatus. by destruct (getRequest _ _).
    + by apply persisted_cleanup.
  - destruct (Daemon.take _ (awaiting s)) as [ks|]; [|done].
    injection Hstep as <-. by apply persisted_setDiscordMessageId.
  - destruct (Daemon.take _ (awaiting s)) as [ks|]; [|done].
    by injection Hstep as <-.
  - destruct (DiscordHandler.handleMessage_head _ _ _) as [request|];
      injection Hstep as <-; [|done].
    by apply persisted_answer.
  - destruct (DiscordHandler.handleButton_head _ _) as [[rid response]|];
      by injection Hstep as <-.
  - destruct (Daemon.take _ (awaiting s)) as [ks|]; [|done].
    injection Hstep as <-. by apply persisted_answer.
  - destruct (Daemon.take _ (awaiting s)) as [ks|]; [|done].
    injection Hstep as <-. by apply persisted_record.
  - destruct (list_find _ (scheduled (pendingManager s))) as [[i t]|] eqn:Hf; [|done].
    destruct (fire_step_fields h s i t Hf) as (_ & Hpm & _).
    pose proof (persisted_fire h _ Hp) as Hfire.
    destruct (fire h (pendingManager s)) as [pm evs]. simpl in Hpm, Hfire.
    injection Hstep as <-. by rewrite Hpm.
Qed.

(** X1. Every mutation is written through: after any run of a daemon that
    was started on files that are absent, damaged or hold stores (not on a
    file that exists and cannot be read), the two files load to exactly the
    current stores: a daemon restarted at that point has the same request,
    response, index and terminal maps. *)
Theorem stores_are_written_through
    (cfg : Config) (h0 : nat) (d : Disk) (s0 : Server) (es : list Event)
    (s : Server) :
  pendingFile d ≠ Unreadable →
  sessionsFile d ≠ Unreadable →
  Server.new cfg h0 d = Ok s0 →
  Daemon.run cfg es s0 = Some s →
  persisted (pendingManager s)
  ∧ ∀ cfg' h1, ∃ s1, Server.new cfg' h1 (disk (pendingManager s)) = Ok s1
       ∧ pendingStore (pendingManager s1) = pendingStore (pendingManager s)
       ∧ sessionStore (pendingManager s1) = sessionStore (pendingManager s).
Proof.
  intros Hpf Hsf Hnew Hrun.
  assert (Hp : persisted (pendingManager s)).
  { assert (H0 : persisted (pendingManager s0)).
    { unfold Server.new in Hnew. rewrite PendingManager_new_spec in Hnew.
      simpl in Hnew. injection Hnew as <-.
      split_and!; simpl;
        [done | done | apply loadPendingStore_spec | apply loadSessionStore_spec]. }
    clear Hnew. revert s0 H0 Hrun.
    induction es as [|e es IH]; intros s0 H0 Hrun; simpl in Hrun.
    - by injection Hrun as <-.
    - destruct (Daemon.step cfg e s0) as [s1|] eqn:Hstep; [|done].
      simpl in Hrun. eapply IH; [|done]. by eapply persisted_step. }
  split; [done|]. intros cfg' h1.
  destruct Hp as (_ & _ & Hps & Hss). unfold Server.new, PendingManager_new.
  rewrite Hps, Hss. simpl. by eexists.
Qed.

Lemma stores_are_written_through_witness :
  persisted (pendingManager (Trace.after Trace.late_reply)).
Proof.
  refine (proj1 (stores_are_written_through Sample.cfg 0 Sample.no_files
                   Sample.srv0 Trace.late_reply _ _ _ _ _)).
  - discriminate.
  - discriminate.
  - reflexivity.
  - vm_compute. reflexivity.
Defined.

(** ** Replies and recovery *)

Lemma processResponse_timers resume alive now now' rid response pm :
  resume = Returns ∨ attempts_resume alive rid pm = false →
  timers (fst (DiscordHandler.processResponse resume alive now now' rid response pm))
  = delete rid (timers pm).
Proof.
  intros Hsurv. unfold DiscordHandler.processResponse.
  destruct (processResponse_head_timers alive rid pm) as (Ht & _).
  assert (Hcase : resume = Returns
                  ∨ snd (DiscordHandler.processResponse_head alive rid pm) = None).
  { destruct Hsurv as [?|?]; [by left|right]. by apply attempts_resume_false. }
  destruct (DiscordHandler.processResponse_head alive rid pm) as [pm1 [[sid cwd]|]].
  - destruct Hcase as [-> | ?]; [|done].
    simpl in *. by rewrite clearTimeout_timers, Ht.
  - simpl in *. by rewrite clearTimeout_timers, Ht.
Qed.

(** X2. A direct message of the configured user that replies to a message
    resolving to a request records the text of the message, whatever it is
    (also the empty text), as the answer of that request, emits it, and
    leaves no timer registered for the request, whenever [processResponse]
    attempts no resume or the attempted resume returns.  If the daemon dies
    in the attempted resume, the reply is not recorded and the timer of the
    request stays registered. *)
Theorem authorized_reply_records_its_text
    (userId : string) (resume : Resume) (alive : Z → bool) (now now' : Z)
    (message : Message) (pm : PendingManager) (mid : string)
    (request : PendingRequest) :
  msg_author_bot message = false →
  msg_channel_isDMBased message = true →
  msg_author_id message = userId →
  msg_reference_messageId message = Some mid →
  mid ≠ "" →
  getRequestByMessageId mid pm = Some request →
  let r := DiscordHandler.handleMessage userId resume alive now now' message pm in
  (resume = Returns ∨ attempts_resume alive (req_id request) pm = false →
   responses (pendingStore (fst r)) !! req_id request
     = Some (answered_with (req_id request) (msg_content message) now)
   ∧ status (req_id request) (fst r) = StAnswered
   ∧ last (snd r)
     = Some (Emit (EmitResponse (req_id request) (msg_content message) now'))
   ∧ timers (fst r) !! req_id request = None)
  ∧ (resume = Dies → attempts_resume alive (req_id request) pm = true →
     fst r = updateTerminalActive (req_id request) false pm
     ∧ responses (pendingStore (fst r)) = responses (pendingStore pm)
     ∧ timers (fst r) = timers pm
     ∧ last (snd r) = Some DaemonDies).
Proof.
  intros Hbot Hdm Hid Href Hne Hreq r. subst r.
  assert (Hhead : DiscordHandler.handleMessage_head userId message pm = Some request).
  { unfold DiscordHandler.handleMessage_head.
    rewrite Hbot, Hdm, Hid, String.eqb_refl, Href. simpl.
    destruct (String.eqb_spec mid ""); [done|]. simpl. exact Hreq. }
  unfold DiscordHandler.handleMessage. rewrite Hhead. split.
  - intros Hsurv.
    destruct (processResponse_records resume alive now now' (req_id request)
                (msg_content message) pm Hsurv) as [Hres Hlast].
    split_and!.
    + by rewrite Hres, lookup_insert_eq.
    + by apply (status_insert _ _ _ _ Hres).
    + exact Hlast.
    + rewrite processResponse_timers by done. apply lookup_delete_eq.
  - intros -> Hatt.
    destruct (processResponse_dies alive now now' (req_id request)
                (msg_content message) pm Hatt) as (sid & cwd & ->). simpl.
    split_and!; [done| |by apply updateTerminalActive_timers|done].
    apply f_equal, updateTerminalActive_pendingStore.
Qed.

Lemma authorized_reply_records_its_text_witness :
  status "r1"
    (fst (DiscordHandler.handleMessage "42" Returns (λ _, false) 2000 2001
            (Sample.reply_to "m1" "") Sample.pm_asked))
  = StAnswered.
Proof.
  refine (proj1 (proj2 (proj1 (authorized_reply_records_its_text "42"
            Returns (λ _, false) 2000 2001 (Sample.reply_to "m1" "")
            Sample.pm_asked "m1"
            (with_discordMessageId "m1"
               (snd (createRequest Sample.cfg "r1" 1000 TAsk "Deploy now?"
                       Sample.session
                       (Some {| co_options := Some ["Yes"; "No"];
                                co_timeout := Some 300000%Z;
                                co_noWait := Some false |}) Sample.pm0)))
            _ _ _ _ _ _) (or_introl eq_refl)))).
  - reflexivity.
  - reflexivity.
  - reflexivity.
  - reflexivity.
  - discriminate.
  - vm_compute. reflexivity.
Defined.

(** X3. [processResponse] records the answer whenever it attempts no resume
    or the attempted resume returns.  When the asking process is alive, or
    the request has no terminal entry, the terminal map is not touched and
    nothing but the response event is produced; when it is dead, the
    terminal entry is marked inactive (pid, session and directory kept) and
    a resume is attempted first, only if the entry has a non-empty session
    id.  If the daemon dies in that resume, the terminal entry has been
    marked inactive and written, and nothing else has changed: no answer is
    recorded, no timer is cleared and nothing is emitted. *)
Theorem answer_recorded_unless_daemon_dies_in_resume
    (resume : Resume) (alive : Z → bool) (now now' : Z)
    (requestId response : string) (pm : PendingManager) :
  let r := DiscordHandler.processResponse resume alive now now' requestId
             response pm in
  (resume = Returns ∨ attempts_resume alive requestId pm = false →
   responses (pendingStore (fst r)) !! requestId
     = Some (answered_with requestId response now)
   ∧ last (snd r) = Some (Emit (EmitResponse requestId response now')))
  ∧ (getTerminal requestId pm = None →
     sessionStore (fst r) = sessionStore pm
     ∧ snd r = [Emit (EmitResponse requestId response now')])
  ∧ (∀ t, getTerminal requestId pm = Some t → alive (ti_pid t) = true →
     sessionStore (fst r) = sessionStore pm
     ∧ snd r = [Emit (EmitResponse requestId response now')])
  ∧ (∀ t, getTerminal requestId pm = Some t → alive (ti_pid t) = false →
     getTerminal requestId (fst r) = Some (with_active false t)
     ∧ messageToRequest (sessionStore (fst r)) = messageToRequest (sessionStore pm)
     ∧ snd r
       = if attempts_resume alive requestId pm
         then ResumeAndInject (default "" (ti_sessionId t)) (ti_cwd t) response
              :: match resume with
                 | Returns => [Emit (EmitResponse requestId response now')]
                 | Dies => [DaemonDies]
                 end
         else [Emit (EmitResponse requestId response now')])
  ∧ (resume = Dies → attempts_resume alive requestId pm = true →
     fst r = updateTerminalActive requestId false pm
     ∧ responses (pendingStore (fst r)) = responses (pendingStore pm)
     ∧ timers (fst r) = timers pm
     ∧ scheduled (fst r) = scheduled pm
     ∧ ∀ e, Emit e ∉ snd r).
Proof.
  intros r. subst r. split_and!.
  - intros Hsurv.
    destruct (processResponse_records resume alive now now' requestId response
                pm Hsurv) as [-> Hlast].
    split; [apply lookup_insert_eq | exact Hlast].
  - intros Hnone. unfold DiscordHandler.processResponse,
      DiscordHandler.processResponse_head. rewrite Hnone. simpl.
    by rewrite clearTimeout_sessionStore.
  - intros t Ht Halive. unfold DiscordHandler.processResponse,
      DiscordHandler.processResponse_head. rewrite Ht, Halive. simpl.
    by rewrite clearTimeout_sessionStore.
  - intros t Ht Halive. unfold attempts_resume. rewrite Ht, Halive.
    unfold DiscordHandler.processResponse,
      DiscordHandler.processResponse_head. rewrite Ht, Halive. simpl.
    unfold getTerminal in Ht.
    destruct (ti_sessionId t) as [sid|]; simpl.
    + destruct (String.eqb sid ""); simpl.
      * unfold updateTerminalActive. rewrite Ht.
        rewrite clearTimeout_sessionStore; simpl.
        unfold getTerminal; simpl; rewrite ?clearTimeout_sessionStore; simpl.
        by rewrite lookup_insert_eq.
      * destruct resume; simpl; unfold updateTerminalActive; rewrite Ht;
          rewrite ?clearTimeout_sessionStore; simpl;
          unfold getTerminal; simpl; rewrite ?clearTimeout_sessionStore; simpl;
          by rewrite lookup_insert_eq.
    + unfold updateTerminalActive. rewrite Ht.
      rewrite clearTimeout_sessionStore. simpl.
      unfold getTerminal. simpl. rewrite clearTimeout_sessionStore. simpl.
      by rewrite lookup_insert_eq.
  - intros -> Hatt.
    destruct (processResponse_dies alive now now' requestId response pm Hatt)
      as (sid & cwd & ->). simpl.
    split_and!; [done| |by apply updateTerminalActive_timers| |].
    + apply f_equal, updateTerminalActive_pendingStore.
    + unfold updateTerminalActive.
      by destruct (requestToTerminal (sessionStore pm) !! requestId).
    + intros e [H|[H|H%elem_of_nil]%elem_of_cons]%elem_of_cons; done.
Qed.

Lemma answer_recorded_unless_daemon_dies_in_resume_witness :
  snd (DiscordHandler.processResponse Returns (λ _, false) 2000 2001 "r1" "Yes"
         Sample.pm_asked)
  = [ResumeAndInject "sess" "/work" "Yes"; Emit (EmitResponse "r1" "Yes" 2001)].
Proof.
  refine (proj2 (proj2
            (proj1 (proj2 (proj2 (proj2
               (answer_recorded_unless_daemon_dies_in_resume Returns (λ _, false)
                  2000 2001 "r1" "Yes" Sample.pm_asked))))
               {| ti_pid := 100; ti_kittyWindowId := None;
                  ti_sessionId := Some "sess"; ti_cwd := "/work";
                  ti_active := true |} _ _))).
  - vm_compute. reflexivity.
  - reflexivity.
Defined.

(** ** Attaching the delivered message *)

(** X4. [setDiscordMessageId] arms a timer exactly for an Ask that waits,
    passing the timeout stored in the request to [setTimeout]: the timer
    fires after that many milliseconds when the stored timeout lies between
    1 and [2^31 - 1], and after 1 ms otherwise.  For every other stored
    request, and in particular for the request that [handleSend] creates,
    the runtime's timers are left as they were. *)
Theorem timer_armed_only_for_waiting_asks
    (requestId discordMessageId : string) (pm : PendingManager)
    (request : PendingRequest) :
  requests (pendingStore pm) !! requestId = Some request →
  scheduled (setDiscordMessageId requestId discordMessageId pm)
  = scheduled pm
    ++ (if bool_decide (req_type request = TAsk) && negb (req_noWait request)
        then [ {| tm_handle := next_handle pm; tm_request := requestId;
                  tm_delay := req_timeout request |} ]
        else [])
  ∧ (req_type request = TAsk → req_noWait request = false →
     ∃ timer,
       last (scheduled (setDiscordMessageId requestId discordMessageId pm))
       = Some timer
       ∧ tm_request timer = requestId
       ∧ ((1 ≤ req_timeout request ≤ 2 ^ 31 - 1)%Z →
          armed_delay timer = req_timeout request)
       ∧ ((req_timeout request < 1 ∨ 2 ^ 31 - 1 < req_timeout request)%Z →
          armed_delay timer = 1%Z))
  ∧ (req_type request = TSend ∨ req_noWait request = true →
     timers (setDiscordMessageId requestId discordMessageId pm) = timers pm)
  ∧ (∀ cfg id now message sessionInfo,
       let created :=
         fst (createRequest cfg id now TSend message sessionInfo
                (Some {| co_options := None; co_timeout := None;
                         co_noWait := Some true |}) pm) in
       scheduled (setDiscordMessageId id discordMessageId created) = scheduled pm
       ∧ timers (setDiscordMessageId id discordMessageId created) = timers pm).
Proof.
  intros Hr. split_and!.
  - unfold setDiscordMessageId. rewrite Hr. simpl.
    destruct (bool_decide _ && negb _); simpl; [done|]. by rewrite app_nil_r.
  - intros Hask Hwait. unfold setDiscordMessageId. rewrite Hr. simpl.
    rewrite Hask, Hwait. simpl. eexists. rewrite last_snoc.
    split; [done|]. split; [done|]. unfold armed_delay. simpl. split.
    + intros [H1 H2]. apply Z.leb_le in H1, H2. by rewrite H1, H2.
    + intros [H|H].
      * apply Z.leb_gt in H. by rewrite H.
      * apply Z.leb_gt in H. rewrite H. by rewrite andb_false_r.
  - intros H. unfold setDiscordMessageId. rewrite Hr. simpl.
    destruct H as [-> | ->]; simpl; [done|]. by rewrite andb_false_r.
  - intros cfg id now message sessionInfo created. subst created.
    unfold setDiscordMessageId. simpl. by rewrite lookup_insert_eq.
Qed.

Lemma timer_armed_only_for_waiting_asks_witness :
  scheduled (setDiscordMessageId "r1" "m1" Sample.pm_created)
  = [ {| tm_handle := 0; tm_request := "r1"; tm_delay := 300000 |} ].
Proof.
  refine (proj1 (timer_armed_only_for_waiting_asks "r1" "m1" Sample.pm_created
            (snd (createRequest Sample.cfg "r1" 1000 TAsk "Deploy now?"
                    Sample.session
                    (Some {| co_options := Some ["Yes"; "No"];
                             co_timeout := Some 300000%Z;
                             co_noWait := Some false |}) Sample.pm0)) _)).
  vm_compute. reflexivity.
Defined.

(** X5. After [setDiscordMessageId(requestId, id)] on a stored request with
    a non-empty request id, [getRequestByMessageId(id)] returns that request
    with the message id recorded in it; the other requests and the other
    index entries are as before.  A request stored under the empty id is
    never found through the index. *)
Theorem attached_message_resolves_to_its_request
    (requestId discordMessageId : string) (pm : PendingManager)
    (request : PendingRequest) :
  requests (pendingStore pm) !! requestId = Some request →
  let pm' := setDiscordMessageId requestId discordMessageId pm in
  (requestId ≠ "" →
   getRequestByMessageId discordMessageId pm'
   = Some (with_discordMessageId discordMessageId request))
  ∧ (requestId = "" → getRequestByMessageId discordMessageId pm' = None)
  ∧ getRequest requestId pm' = Some (with_discordMessageId discordMessageId request)
  ∧ (∀ other, other ≠ requestId → getRequest other pm' = getRequest other pm)
  ∧ (∀ other, other ≠ discordMessageId →
       messageToRequest (sessionStore pm') !! other
       = messageToRequest (sessionStore pm) !! other)
  ∧ responses (pendingStore pm') = responses (pendingStore pm)
  ∧ requestToTerminal (sessionStore pm') = requestToTerminal (sessionStore pm).
Proof.
  intros Hr pm'. subst pm'.
  assert (Hreq : requests (pendingStore (setDiscordMessageId requestId discordMessageId pm))
                 = <[requestId := with_discordMessageId discordMessageId request]>
                     (requests (pendingStore pm))).
  { unfold setDiscordMessageId. rewrite Hr. simpl.
    by destruct (bool_decide _ && negb _). }
  assert (Hidx : messageToRequest (sessionStore (setDiscordMessageId requestId discordMessageId pm))
                 = <[discordMessageId := requestId]> (messageToRequest (sessionStore pm))).
  { unfold setDiscordMessageId. rewrite Hr. simpl.
    by destruct (bool_decide _ && negb _). }
  split_and!.
  - intros Hne. unfold getRequestByMessageId.
    rewrite Hidx, lookup_insert_eq. simpl.
    destruct (String.eqb_spec requestId ""); [done|]. simpl.
    by rewrite Hreq, lookup_insert_eq.
  - intros ->. unfold getRequestByMessageId. by rewrite Hidx, lookup_insert_eq.
  - unfold getRequest. by rewrite Hreq, lookup_insert_eq.
  - intros other Hne. unfold getRequest. by rewrite Hreq, lookup_insert_ne.
  - intros other Hne. by rewrite Hidx, lookup_insert_ne.
  - apply setDiscordMessageId_responses.
  - unfold setDiscordMessageId. rewrite Hr. simpl.
    by destruct (bool_decide _ && negb _).
Qed.

Lemma attached_message_resolves_to_its_request_witness :
  (req_discordMessageId <$> getRequestByMessageId "m1" Sample.pm_asked)
  = Some (Some "m1").
Proof.
  unfold Sample.pm_asked.
  rewrite (proj1 (attached_message_resolves_to_its_request "r1" "m1"
             Sample.pm_created
             (snd (createRequest Sample.cfg "r1" 1000 TAsk "Deploy now?"
                     Sample.session
                     (Some {| co_options := Some ["Yes"; "No"];
                              co_timeout := Some 300000%Z;
                              co_noWait := Some false |}) Sample.pm0))
             ltac:(vm_compute; reflexivity)) ltac:(discriminate)).
  reflexivity.
Defined.

(** X6. A request that was cancelled while its delivery was pending stays
    cancelled: attaching the delivered message to a request that is not
    stored changes nothing in the manager (no index entry, no timer), and
    the server still writes the Ack with the message id to the connection. *)
Theorem delivery_after_cancel_changes_nothing
    (socket : nat) (requestId discordMessageId : string) (s : Server) :
  setDiscordMessageId requestId discordMessageId
    (cleanup requestId (pendingManager s))
  = cleanup requestId (pendingManager s)
  ∧ (requests (pendingStore (pendingManager s)) !! requestId = None →
     setDiscordMessageId requestId discordMessageId (pendingManager s)
     = pendingManager s
     ∧ Server.handle_delivered socket requestId discordMessageId s
       = Server.send socket (Ack requestId discordMessageId) s).
Proof.
  split.
  - unfold setDiscordMessageId at 1.
    by rewrite cleanup_requests, lookup_delete_eq.
  - intros Hnone.
    assert (setDiscordMessageId requestId discordMessageId (pendingManager s)
            = pendingManager s) as Heq.
    { unfold setDiscordMessageId. by rewrite Hnone. }
    split; [done|]. unfold Server.handle_delivered. rewrite Heq.
    by destruct s.
Qed.

Lemma delivery_after_cancel_changes_nothing_witness :
  setDiscordMessageId "r9" "m9" Sample.pm_asked = Sample.pm_asked.
Proof.
  refine (proj1 (proj2 (delivery_after_cancel_changes_nothing 1 "r9" "m9"
            {| clients := []; pendingManager := Sample.pm_asked; wire := [];
               awaiting := [] |}) _)).
  vm_compute. reflexivity.
Defined.

(** X7. Creating a request under an id that is in none of the maps and
    cancelling it again gives back the four maps as they were. *)
Theorem create_then_cancel_restores_the_maps
    (cfg : Config) (id : string) (now : Z) (type : RequestType)
    (message : string) (sessionInfo : SessionInfo)
    (options : option CreateOptions) (pm : PendingManager) :
  requests (pendingStore pm) !! id = None →
  responses (pendingStore pm) !! id = None →
  requestToTerminal (sessionStore pm) !! id = None →
  let pm' :=
    cleanup id (fst (createRequest cfg id now type message sessionInfo options pm)) in
  pendingStore pm' = pendingStore pm ∧ sessionStore pm' = sessionStore pm.
Proof.
  intros Hr Hs Ht pm'. subst pm'.
  split.
  - destruct (pendingStore pm) as [rq rs] eqn:E.
    assert (Hrq : requests (pendingStore (cleanup id
                (fst (createRequest cfg id now type message sessionInfo options pm))))
              = rq).
    { rewrite cleanup_requests. simpl. rewrite E. simpl in *.
      rewrite delete_insert_eq. by apply delete_id. }
    assert (Hrs : responses (pendingStore (cleanup id
                (fst (createRequest cfg id now type message sessionInfo options pm))))
              = rs).
    { rewrite cleanup_responses. simpl. rewrite E. simpl in *. by apply delete_id. }
    destruct (pendingStore (cleanup id _)) as [rq' rs']. simpl in *. by subst.
  - destruct (sessionStore pm) as [ix tm] eqn:E.
    assert (Htm : requestToTerminal (sessionStore (cleanup id
                (fst (createRequest cfg id now type message sessionInfo options pm))))
              = tm).
    { rewrite cleanup_requestToTerminal. simpl. rewrite E. simpl in *.
      rewrite delete_insert_eq. by apply delete_id. }
    assert (Hix : messageToRequest (sessionStore (cleanup id
                (fst (createRequest cfg id now type message sessionInfo options pm))))
              = ix).
    { unfold cleanup. simpl. rewrite clearTimeout_pendingStore. simpl.
      rewrite lookup_insert_eq. simpl. rewrite clearTimeout_sessionStore. simpl.
      by rewrite E. }
    destruct (sessionStore (cleanup id _)) as [ix' tm']. simpl in *. by subst.
Qed.

Lemma create_then_cancel_restores_the_maps_witness :
  pendingStore (cleanup "r1" Sample.pm_created) = pendingStore Sample.pm0.
Proof.
  refine (proj1 (create_then_cancel_restores_the_maps Sample.cfg "r1" 1000 TAsk
            "Deploy now?" Sample.session
            (Some {| co_options := Some ["Yes"; "No"];
                     co_timeout := Some 300000%Z;
                     co_noWait := Some false |}) Sample.pm0 _ _ _));
    reflexivity.
Defined.

(** ** Connections *)

Lemma notified_unbound rid m s :
  (∀ c, c ∈ clients s → cl_requestId c ≠ Some rid) → notified rid m s = [].
Proof.
  intros H. unfold notified.
  destruct (list_find _ (clients s)) as [[i c]|] eqn:Hf; [|done].
  apply list_find_Some in Hf as (Hi & Hc & _).
  exfalso. eapply H; [|done]. by eapply list_elem_of_lookup_2.
Qed.

(** X8. Closing a connection cancels nothing: the manager, with its
    requests and timers, and the suspended handlers are untouched, and only
    the client entry of that socket is removed.  An answer that is recorded
    afterwards for a request that only this connection awaited is stored
    and written to nobody. *)
Theorem disconnect_does_not_cancel
    (socket : nat) (s : Server) (now now' : Z) (requestId response : string) :
  let s' := Server.handleClose socket s in
  pendingManager s' = pendingManager s
  ∧ awaiting s' = awaiting s
  ∧ wire s' = wire s
  ∧ (∀ c, c ∈ clients s' ↔ c ∈ clients s ∧ cl_socket c ≠ socket)
  ∧ ((∀ c, c ∈ clients s → cl_requestId c = Some requestId → cl_socket c = socket) →
     wire (Daemon.record now now' requestId response s') = wire s
     ∧ status requestId
         (pendingManager (Daemon.record now now' requestId response s'))
       = StAnswered).
Proof.
  intros s'. subst s'. split_and!; try done.
  - intros c. unfold Server.handleClose. simpl.
    rewrite list_elem_of_filter. tauto.
  - intros Honly.
    destruct (record_fields now now' requestId response
                (Server.handleClose socket s)) as (_ & Hp & _ & Hw).
    split.
    + rewrite Hw, notified_unbound; [by rewrite app_nil_r|].
      intros c Hc Hr. simpl in Hc.
      apply list_elem_of_filter in Hc as [Hne Hc]. by apply Hne, Honly.
    + rewrite Hp.
      by rewrite (status_insert _ _ _ _ (setResponse_responses _ _ _ _ _)).
Qed.

Lemma disconnect_does_not_cancel_witness :
  let s := Server.handleClose 1 (Trace.after Trace.asked) in
  wire (Daemon.record 2000 2001 "r1" "Yes" s) = wire (Trace.after Trace.asked).
Proof.
  refine (proj1 (proj2 (proj2 (proj2 (proj2
            (disconnect_does_not_cancel 1 (Trace.after Trace.asked) 2000 2001
               "r1" "Yes")))) _)).
  intros c Hc Hr. vm_compute in Hc.
  apply list_elem_of_singleton in Hc. by subst c.
Defined.

(** X9. A connection is bound to the request of its latest Ask only: after
    [handleAsk] has created request [id] on a socket, every client entry of
    that socket is bound to [id], so no event of any other request is
    written to that socket any more. *)
Theorem latest_ask_rebinds_the_connection
    (cfg : Config) (id : string) (now : Z) (socket : nat) (message : string)
    (options : option (list string)) (sessionInfo : SessionInfo)
    (timeout : option Z) (noWait : bool) (s : Server) :
  let s' := Server.handleAsk_head cfg id now socket message options sessionInfo
              timeout noWait s in
  (∀ c, c ∈ clients s' → cl_socket c = socket → cl_requestId c = Some id)
  ∧ (∀ c, c ∈ clients s' → cl_socket c ≠ socket → c ∈ clients s)
  ∧ (∀ other m k m', other ≠ id → (k, m') ∈ notified other m s' → k ≠ socket).
Proof.
  intros s'. subst s'.
  assert (Hcl : ∀ c, c ∈ clients (Server.handleAsk_head cfg id now socket message
                        options sessionInfo timeout noWait s) →
            (cl_socket c = socket ∧ cl_requestId c = Some id)
            ∨ (cl_socket c ≠ socket ∧ c ∈ clients s)).
  { simpl. intros c (c0 & -> & Hc0)%list_elem_of_fmap.
    case_decide; [left|right]; done. }
  split_and!.
  - intros c Hc Hs. destruct (Hcl c Hc) as [[_ ?]|[? _]]; done.
  - intros c Hc Hs. destruct (Hcl c Hc) as [[? _]|[_ ?]]; done.
  - intros other m k m' Hne Hin.
    apply notified_message in Hin as [_ (c & Hc & Hr & <-)].
    destruct (Hcl c Hc) as [[_ Hid]|[? _]]; [|done].
    rewrite Hid in Hr. by injection Hr as ->.
Qed.

(** ** Line framing *)

Lemma string_app_cons a s t : String a s +:+ t = String a (s +:+ t).
Proof. reflexivity. Qed.

Lemma string_app_nil_l s : "" +:+ s = s.
Proof. reflexivity. Qed.

Lemma string_app_nil_r s : s +:+ "" = s.
Proof. induction s as [|a s IH]; [done|]. by rewrite string_app_cons, IH. Qed.

Lemma string_app_assoc s t u : (s +:+ t) +:+ u = s +:+ (t +:+ u).
Proof. induction s as [|a s IH]; [done|]. by rewrite !string_app_cons, IH. Qed.

Lemma string_rev_app_spec s t : String.rev_app s t = String.rev s +:+ t.
Proof.
  unfold String.rev. revert t. induction s as [|a s IH]; intros t; [done|].
  simpl. rewrite IH, (IH (String a "")). by rewrite string_app_assoc.
Qed.

Lemma pieces_nonempty c s : Lines.pieces c s ≠ [].
Proof.
  destruct s as [|a s]; simpl; [done|].
  destruct (Ascii.eqb a c); [done|]. by destruct (Lines.pieces c s).
Qed.

Lemma split_aux_pieces c cur s :
  JS.split_aux c cur s
  = match Lines.pieces c s with
    | p :: ps => (String.rev cur +:+ p) :: ps
    | [] => []
    end.
Proof.
  revert cur. induction s as [|a s IH]; intros cur; simpl.
  - by rewrite string_app_nil_r.
  - destruct (Ascii.eqb a c).
    + rewrite string_app_nil_r. f_equal. rewrite IH.
      pose proof (pieces_nonempty c s). by destruct (Lines.pieces c s).
    + rewrite IH. pose proof (pieces_nonempty c s).
      destruct (Lines.pieces c s) as [|p ps]; [done|].
      f_equal. unfold String.rev at 1. simpl.
      by rewrite string_rev_app_spec, string_app_assoc.
Qed.

(** [split] computes the pieces. *)
Lemma split_pieces c s : JS.split c s = Lines.pieces c s.
Proof.
  unfold JS.split. rewrite split_aux_pieces.
  pose proof (pieces_nonempty c s). by destruct (Lines.pieces c s).
Qed.

Lemma pieces_free c s : Lines.free_of c s = true → Lines.pieces c s = [s].
Proof.
  induction s as [|a s IH]; simpl; [done|].
  intros [Ha Hs]%andb_true_iff. apply negb_true_iff in Ha.
  by rewrite Ha, (IH Hs).
Qed.

Lemma pieces_free_sep c s t :
  Lines.free_of c s = true →
  Lines.pieces c (s +:+ String c t) = s :: Lines.pieces c t.
Proof.
  induction s as [|a s IH].
  - intros _. rewrite string_app_nil_l. simpl.
    by rewrite (proj2 (Ascii.eqb_eq c c) eq_refl).
  - intros [Ha Hs]%andb_true_iff. apply negb_true_iff in Ha.
    rewrite string_app_cons. simpl. by rewrite Ha, (IH Hs).
Qed.

(** The pieces of a concatenation: all pieces of the first part but its
    last, then the pieces of that last piece followed by the second part. *)
Lemma pieces_app c s t :
  Lines.pieces c (s +:+ t)
  = removelast (Lines.pieces c s)
    ++ Lines.pieces c (default "" (last (Lines.pieces c s)) +:+ t).
Proof.
  induction s as [|a s IH]; [done|].
  rewrite string_app_cons. simpl.
  pose proof (pieces_nonempty c s) as Hne.
  destruct (Ascii.eqb a c) eqn:Ha.
  - rewrite IH. destruct (Lines.pieces c s) as [|p ps]; [done|]. done.
  - rewrite IH. destruct (Lines.pieces c s) as [|p [|p' ps]]; [done| |].
    + simpl. rewrite Ha.
      pose proof (pieces_nonempty c (p +:+ t)).
      by destruct (Lines.pieces c (p +:+ t)).
    + done.
Qed.

Lemma last_pieces_free c s :
  Lines.free_of c (default "" (last (Lines.pieces c s))) = true.
Proof.
  induction s as [|a s IH]; simpl; [done|].
  pose proof (pieces_nonempty c s) as Hne.
  destruct (Ascii.eqb a c) eqn:Ha.
  - destruct (Lines.pieces c s) as [|p ps]; [done|]. exact IH.
  - destruct (Lines.pieces c s) as [|p [|p' ps]]; [done| |exact IH].
    simpl in *. by rewrite Ha.
Qed.

Lemma on_data_pieces buffer data :
  Lines.on_data buffer data
  = (filter (λ line, JS.truthy (Some (Lines.trim line)))
       (removelast (Lines.pieces Lines.newline (buffer +:+ data))),
     default "" (last (Lines.pieces Lines.newline (buffer +:+ data)))).
Proof.
  unfold Lines.on_data. rewrite split_pieces. f_equal.
  destruct (last _) as [l|]; [|done]. simpl.
  by destruct (String.eqb_spec l "").
Qed.

Lemma removelast_app_ne {A} (l k : list A) :
  k ≠ [] → removelast (l ++ k) = l ++ removelast k.
Proof. intros H. by apply removelast_app. Qed.

Lemma last_app_ne {A} (l k : list A) : k ≠ [] → last (l ++ k) = last k.
Proof.
  intros H. destruct k as [|x k] using rev_ind; [done|].
  by rewrite app_assoc, !last_snoc.
Qed.

Lemma on_data_app buffer data data' :
  Lines.on_data buffer (data +:+ data')
  = (fst (Lines.on_data buffer data)
       ++ fst (Lines.on_data (snd (Lines.on_data buffer data)) data'),
     snd (Lines.on_data (snd (Lines.on_data buffer data)) data')).
Proof.
  rewrite !on_data_pieces. simpl.
  rewrite <- string_app_assoc, pieces_app.
  pose proof (pieces_nonempty Lines.newline
                (default "" (last (Lines.pieces Lines.newline (buffer +:+ data)))
                 +:+ data')) as Hne.
  rewrite removelast_app_ne, last_app_ne by done.
  by rewrite filter_app.
Qed.

Lemma on_chunks_cons toString buffer data chunks :
  Lines.on_chunks toString buffer (data :: chunks)
  = Lines.on_data buffer (toString data +:+ Lines.concat (toString <$> chunks)).
Proof.
  revert buffer data. induction chunks as [|data' chunks IH]; intros buffer data.
  - cbn [Lines.on_chunks Lines.concat foldr fmap list_fmap].
    rewrite string_app_nil_r.
    destruct (Lines.on_data buffer (toString data)) as [h b]. by rewrite app_nil_r.
  - change (Lines.on_chunks toString buffer (data :: data' :: chunks))
      with (let '(handled, buffer) := Lines.on_data buffer (toString data) in
            let '(handled', buffer) :=
              Lines.on_chunks toString buffer (data' :: chunks) in
            (handled ++ handled', buffer)).
    change (Lines.concat (toString <$> data' :: chunks))
      with (toString data' +:+ Lines.concat (toString <$> chunks)).
    rewrite on_data_app.
    destruct (Lines.on_data buffer (toString data)) as [h b]. cbn [fst snd].
    rewrite IH.
    by destruct (Lines.on_data b (toString data' +:+ Lines.concat (toString <$> chunks))).
Qed.

(** X10. The lines that the ["data"] listener handles are those of the text
    obtained by decoding every chunk on its own and joining the results.
    So when decoding the chunks one by one gives the text of the whole data
    (no character is cut by the end of a chunk, as for ASCII data), any
    sequence of chunks gives, from an empty buffer, the handled lines and
    the final buffer of the whole data arriving at once; nothing is claimed
    when a chunk ends inside a character.  Text without a newline is only
    buffered, and a newline completes the buffered line, which is handled
    unless it is blank. *)
Theorem framing_follows_the_decoded_chunks
    (toString : Lines.Buffer → string) (chunks : list Lines.Buffer) :
  Lines.on_chunks toString "" chunks
  = Lines.on_data "" (Lines.concat (toString <$> chunks))
  ∧ (toString (mjoin chunks) = Lines.concat (toString <$> chunks) →
     Lines.on_chunks toString "" chunks
     = Lines.on_chunks toString "" [mjoin chunks])
  ∧ (∀ buffer data data',
       toString (data ++ data') = toString data +:+ toString data' →
       Lines.on_chunks toString buffer [data; data']
       = Lines.on_chunks toString buffer [data ++ data'])
  ∧ (∀ buffer data,
       Lines.free_of Lines.newline buffer = true →
       Lines.free_of Lines.newline data = true →
       Lines.on_data buffer data = ([], buffer +:+ data)
       ∧ Lines.on_data buffer (data +:+ String Lines.newline "")
         = (if JS.truthy (Some (Lines.trim (buffer +:+ data)))
            then [buffer +:+ data] else [], "")).
Proof.
  assert (Hall : Lines.on_chunks toString "" chunks
                 = Lines.on_data "" (Lines.concat (toString <$> chunks))).
  { destruct chunks as [|data chunks]; [done|]. by rewrite on_chunks_cons. }
  split_and!.
  - exact Hall.
  - intros Hdec. rewrite Hall, on_chunks_cons, Hdec.
    cbn [fmap list_fmap Lines.concat foldr]. by rewrite string_app_nil_r.
  - intros buffer data data' Hdec. rewrite !on_chunks_cons, Hdec.
    cbn [fmap list_fmap Lines.concat foldr]. by rewrite !string_app_nil_r.
  - intros buffer data Hb Hd.
    assert (Hfree : Lines.free_of Lines.newline (buffer +:+ data) = true).
    { clear -Hb Hd. induction buffer as [|a b IH]; [done|].
      rewrite string_app_cons. simpl in *.
      apply andb_true_iff in Hb as [-> Hb]. by rewrite IH. }
    split.
    + rewrite on_data_pieces, (pieces_free _ _ Hfree). done.
    + rewrite on_data_pieces, <- string_app_assoc,
        (pieces_free_sep _ _ "" Hfree). simpl.
      rewrite filter_cons, filter_nil.
      by destruct (negb (Lines.trim (buffer +:+ data) =? "")%string).
Qed.

Lemma framing_follows_the_decoded_chunks_witness :
  Lines.on_chunks Deployment.toString "" Deployment.two_chunks
  = (["{type:cancel}"], "").
Proof.
  rewrite (proj1 (proj2 (framing_follows_the_decoded_chunks
                           Deployment.toString Deployment.two_chunks))
             ltac:(reflexivity)).
  reflexivity.
Defined.

(** ** Configuration *)

Lemma str_or_nonempty o d : d ≠ "" → ConfigFile.str_or o d ≠ "".
Proof.
  intros Hd. unfold ConfigFile.str_or. destruct o as [s|]; [|done]. simpl.
  by destruct (String.eqb_spec s "").
Qed.

Lemma num_or_nonzero o d : d ≠ 0%Z → JS.num_or o d ≠ 0%Z.
Proof.
  intros Hd. unfold JS.num_or. destruct o as [n|]; [|done].
  by destruct (Z.eqb_spec n 0).
Qed.

Lemma scan_object_cli files c :
  ConfigFile.scan files = ConfigFile.JObject c →
  ConfigFile.loadConfigForCLI_from files
  = ConfigFile.str_or (ConfigFile.fc_socketPath c) "/tmp/discord-notify.sock".
Proof.
  induction files as [|f files IH]; simpl.
  - intros H. by injection H as <-.
  - destruct f as [| | |[|c']]; simpl; try done.
    intros H. by injection H as <-.
Qed.

(** X11. The daemon and the command line agree on the socket: whenever
    [loadConfig] returns a configuration, its socket path is the one that
    [loadConfigForCLI] returns in the same environment. *)
Theorem daemon_and_cli_agree_on_socket_path
    (env : ConfigFile.Env) (config : Config) (created : option string) :
  ConfigFile.loadConfig env = Ok (config, created) →
  socketPath config = ConfigFile.loadConfigForCLI env.
Proof.
  unfold ConfigFile.loadConfig, ConfigFile.loadConfigForCLI.
  destruct (ConfigFile.DISCORD_TOKEN env) as [token|]; [|done].
  destruct (negb (JS.truthy (Some token))); [done|].
  destruct (ConfigFile.scan (ConfigFile.config_files env)) as [|c] eqn:Hs; [done|].
  intros H. injection H as <- _. simpl. symmetry. by apply scan_object_cli.
Qed.

(** X12. [loadConfig] throws when [DISCORD_TOKEN] is unset or empty,
    whatever the files hold.  A configuration it returns carries that
    token, a non-empty socket path and non-zero timeouts, so that no request
    created under it is stored with a timeout of zero; with no usable file
    it is the default configuration. *)
Theorem loaded_config_is_complete (env : ConfigFile.Env) :
  (JS.truthy (ConfigFile.DISCORD_TOKEN env) = false →
   ConfigFile.loadConfig env = Throw)
  ∧ (∀ config created,
       ConfigFile.loadConfig env = Ok (config, created) →
       ConfigFile.DISCORD_TOKEN env = Some (discord_token config)
       ∧ discord_token config ≠ ""
       ∧ socketPath config ≠ ""
       ∧ timeouts_defaultAsk config ≠ 0%Z
       ∧ timeouts_maxAsk config ≠ 0%Z
       ∧ (ConfigFile.default_dataDir env ≠ "" → dataDir config ≠ "")
       ∧ (created = None ↔ ConfigFile.dir_exists env (dataDir config) = true)
       ∧ ∀ id now type message sessionInfo options pm,
           req_timeout (snd (createRequest config id now type message
                               sessionInfo options pm)) ≠ 0%Z)
  ∧ (∀ token,
       ConfigFile.DISCORD_TOKEN env = Some token → token ≠ "" →
       Forall (λ f, ∀ j, f ≠ Holds j) (ConfigFile.config_files env) →
       ∃ created,
         ConfigFile.loadConfig env
         = Ok ({| socketPath := "/tmp/discord-notify.sock";
                  dataDir := ConfigFile.default_dataDir env;
                  discord_token := token;
                  discord_userId := "";
                  timeouts_defaultAsk := 300000;
                  timeouts_maxAsk := 3600000 |}, created)).
Proof.
  split_and!.
  - intros Ht. unfold ConfigFile.loadConfig.
    destruct (ConfigFile.DISCORD_TOKEN env) as [token|]; [|done].
    by rewrite Ht.
  - intros config created. unfold ConfigFile.loadConfig.
    destruct (ConfigFile.DISCORD_TOKEN env) as [token|]; [|done].
    destruct (JS.truthy (Some token)) eqn:Htok; [|done]. simpl.
    destruct (ConfigFile.scan (ConfigFile.config_files env)) as [|c]; [done|].
    intros H. injection H as <- <-. simpl.
    split_and!.
    + done.
    + simpl in Htok. by destruct (String.eqb_spec token "").
    + by apply str_or_nonempty.
    + by apply num_or_nonzero.
    + by apply num_or_nonzero.
    + apply str_or_nonempty.
    + by destruct (ConfigFile.dir_exists env _).
    + intros id now type message sessionInfo options pm. simpl.
      destruct (options ≫= co_timeout) as [t|]; simpl.
      * destruct (Z.eqb_spec t 0); [by apply num_or_nonzero|done].
      * by apply num_or_nonzero.
  - intros token Htok Hne Hfiles. unfold ConfigFile.loadConfig. rewrite Htok.
    simpl. destruct (String.eqb_spec token ""); [done|]. simpl.
    assert (ConfigFile.scan (ConfigFile.config_files env)
            = ConfigFile.JObject ConfigFile.empty) as ->.
    { induction Hfiles as [|f files Hf _ IH]; [done|].
      simpl. destruct f as [| | |j]; simpl; try done. by destruct (Hf j). }
    simpl. by eexists.
Qed.

(** X13. The daemon reaches [new Server(config)] only with a non-empty
    token and a non-empty user id, and the user id is then the one that a
    configuration file names: without such a file the daemon exits with
    code 1. *)
Theorem daemon_serves_only_a_configured_user
    (env : ConfigFile.Env) (config : Config) :
  ConfigFile.main env = ConfigFile.Serve config →
  discord_token config ≠ ""
  ∧ discord_userId config ≠ ""
  ∧ (∃ created, ConfigFile.loadConfig env = Ok (config, created))
  ∧ ∃ c, Holds (ConfigFile.JObject c) ∈ ConfigFile.config_files env
         ∧ ConfigFile.fc_userId c = Some (discord_userId config).
Proof.
  unfold ConfigFile.main.
  destruct (ConfigFile.loadConfig env) as [[config' created]|] eqn:Hload; [|done].
  destruct (JS.truthy (Some (discord_userId config'))) eqn:Hu; [|done].
  simpl. intros H. injection H as <-.
  destruct (loaded_config_is_complete env) as (_ & Hok & _).
  destruct (Hok _ _ Hload) as (_ & Htok & _).
  assert (Hne : discord_userId config' ≠ "").
  { simpl in Hu. by destruct (String.eqb_spec (discord_userId config') ""). }
  split_and!; [done|done|by eexists|].
  unfold ConfigFile.loadConfig in Hload.
  destruct (ConfigFile.DISCORD_TOKEN env) as [token|]; [|done].
  destruct (negb (JS.truthy (Some token))); [done|].
  destruct (ConfigFile.scan (ConfigFile.config_files env)) as [|c] eqn:Hs; [done|].
  injection Hload as <- _. simpl in Hne. exists c.
  assert (Huid : ConfigFile.fc_userId c
                 = Some (ConfigFile.str_or (ConfigFile.fc_userId c) "")).
  { unfold ConfigFile.str_or in *. destruct (ConfigFile.fc_userId c) as [u|]; [|done].
    simpl in *. by destruct (String.eqb_spec u ""). }
  split; [|exact Huid].
  clear -Hs Hne Huid. induction (ConfigFile.config_files env) as [|f files IH].
  - simpl in Hs. injection Hs as <-. simpl in Huid. discriminate.
  - simpl in Hs. destruct f as [| | |j]; simpl in Hs;
      try (right; by apply IH).
    subst j. by left.
Qed.

(** ** Buttons *)

Lemma digits_decimal d a :
  JS.digits (Z.of_nat a) (DecimalString.NilEmpty.string_of_uint d)
  = Z.of_nat (Nat.of_uint_acc d a).
Proof.
  revert a. induction d as [|d IH|d IH|d IH|d IH|d IH|d IH|d IH|d IH|d IH|d IH];
    intros a; [reflexivity|..];
    cbn [DecimalString.NilEmpty.string_of_uint Nat.of_uint_acc JS.digits];
    rewrite <- IH;
    match goal with
    | |- context [JS.digit_of ?c] =>
        let v := eval vm_compute in (JS.digit_of c) in
        change (JS.digit_of c) with v
    end;
    cbn iota; f_equal; rewrite Nat.tail_mul_spec; lia.
Qed.

Lemma free_of_decimal d :
  Lines.free_of ":" (DecimalString.NilEmpty.string_of_uint d) = true.
Proof. induction d; simpl; done. Qed.

Lemma to_uint_not_Nil n : Nat.to_uint n ≠ Decimal.Nil.
Proof.
  intros H. pose proof (DecimalNat.Unsigned.of_to n) as Hn.
  rewrite H in Hn. simpl in Hn. subst n. discriminate.
Qed.

(** [parseInt] reads back the text of an index. *)
Lemma parseInt_of_decimal n : JS.parseInt (Buttons.decimal n) = Some (Z.of_nat n).
Proof.
  unfold Buttons.decimal.
  pose proof (to_uint_not_Nil n) as Hnn.
  pose proof (DecimalNat.Unsigned.of_to n) as Hof. unfold Nat.of_uint in Hof.
  pose proof (digits_decimal (Nat.to_uint n) 0) as Hd. rewrite Hof in Hd.
  destruct (Nat.to_uint n) as [|d|d|d|d|d|d|d|d|d|d]; [done|..];
    unfold JS.parseInt; cbn [DecimalString.NilEmpty.string_of_uint JS.skip_space];
    simpl JS.is_space; cbn iota; unfold JS.unsigned; simpl JS.digit_of;
    cbn iota; f_equal; exact Hd.
Qed.

Lemma split_customId requestId index :
  Lines.free_of ":" requestId = true →
  JS.split ":" (Buttons.customId_for requestId index)
  = ["req"; requestId; Buttons.decimal index].
Proof.
  intros Hid. rewrite split_pieces. unfold Buttons.customId_for.
  change ("req:" +:+ requestId +:+ ":" +:+ Buttons.decimal index)
    with ("req" +:+ String ":" (requestId +:+ String ":" (Buttons.decimal index))).
  rewrite pieces_free_sep by done.
  rewrite pieces_free_sep by done.
  by rewrite (pieces_free ":" (Buttons.decimal index) (free_of_decimal _)).
Qed.

Lemma row_lookup request options i :
  Buttons.row request options !! i
  = (λ option, {| Buttons.b_customId := Buttons.customId_for (req_id request) i;
                  Buttons.b_label := String.substring 0 80 option |})
    <$> options !! i.
Proof. unfold Buttons.row. by rewrite list_lookup_imap. Qed.

Lemma substring_length_le n s : String.length (String.substring 0 n s) ≤ n.
Proof.
  revert s. induction n as [|n IH]; intros [|a s]; simpl; try lia.
  specialize (IH s). lia.
Qed.


(** When the two setters accept their arguments. *)
Lemma ButtonBuilder_spec requestId index option :
  Buttons.ButtonBuilder (Buttons.customId_for requestId index)
    (String.substring 0 80 option)
  = if negb (String.eqb option "")
       && (String.length (Buttons.customId_for requestId index) <=? 100)%nat
    then Ok {| Buttons.b_customId := Buttons.customId_for requestId index;
               Buttons.b_label := String.substring 0 80 option |}
    else Throw.
Proof.
  unfold Buttons.ButtonBuilder.
  assert ((1 <=? String.length (Buttons.customId_for requestId index))%nat = true)
    as ->.
  { unfold Buttons.customId_for. done. }
  assert ((String.length (String.substring 0 80 option) <=? 80)%nat = true) as ->.
  { apply Nat.leb_le, substring_length_le. }
  assert ((1 <=? String.length (String.substring 0 80 option))%nat
          = negb (String.eqb option "")) as ->.
  { by destruct option. }
  rewrite andb_true_r. simpl.
  by rewrite (andb_comm (negb _)).
Qed.

Lemma addComponents_Ok request index options buttons :
  Buttons.addComponents request index options = Ok buttons →
  buttons = imap (λ i option,
                    {| Buttons.b_customId :=
                         Buttons.customId_for (req_id request) (index + i);
                       Buttons.b_label := String.substring 0 80 option |}) options
  ∧ ∀ i option, options !! i = Some option →
      option ≠ ""
      ∧ String.length (Buttons.customId_for (req_id request) (index + i)) ≤ 100.
Proof.
  revert index buttons. induction options as [|o options IH]; intros index buttons.
  - simpl. intros H. injection H as <-. split; [done|]. by intros i option ?.
  - cbn [Buttons.addComponents]. rewrite ButtonBuilder_spec.
    destruct (String.eqb_spec o "") as [|Hne]; [done|].
    destruct (Nat.leb_spec (String.length
                (Buttons.customId_for (req_id request) index)) 100) as [Hle|];
      [|done].
    cbn [negb andb bind].
    destruct (Buttons.addComponents request (S index) options) as [bs|] eqn:E;
      [|done].
    cbn [bind]. intros H. injection H as <-.
    destruct (IH _ _ E) as [-> Hall]. split.
    + rewrite imap_cons, Nat.add_0_r. f_equal.
      apply imap_ext. intros i x _. cbn [compose].
      by replace (index + S i) with (S index + i) by lia.
    + intros [|i] option Hi; cbn [lookup list_lookup] in Hi.
      * injection Hi as <-. by rewrite Nat.add_0_r.
      * destruct (Hall i option Hi) as [? Hlen].
        split; [done|]. by replace (index + S i) with (S index + i) by lia.
Qed.


(** What [sendMessage] has built when it sends. *)
Lemma components_Some request buttons :
  Buttons.components request = Ok (Some buttons) →
  ∃ options, req_options request = Some options ∧ options ≠ []
    ∧ buttons = Buttons.row request options
    ∧ ∀ i option, options !! i = Some option →
        option ≠ ""
        ∧ String.length (Buttons.customId_for (req_id request) i) ≤ 100.
Proof.
  unfold Buttons.components.
  destruct (req_options request) as [options|]; [|done].
  destruct (Nat.ltb_spec 0 (length options)) as [Hlen|]; [|done].
  destruct (Buttons.addComponents request 0 options) as [bs|] eqn:E; [|done].
  cbn [bind]. intros H. injection H as <-.
  apply addComponents_Ok in E as [-> Hall].
  exists options. split_and!; try done.
  intros ->. simpl in Hlen. lia.
Qed.

(** X14. The token of a button leads back to its option: when [sendMessage]
    has built the buttons of a stored request whose id contains no colon, a
    click on the button at position [i] is resolved by [handleButton] to the
    request and to the whole text of option [i], also when the label shown
    is that text cut to 80 characters. *)
Theorem button_token_round_trip
    (pm : PendingManager) (request : PendingRequest) (buttons : list Buttons.Button)
    (i : nat) (button : Buttons.Button) :
  getRequest (req_id request) pm = Some request →
  Buttons.components request = Ok (Some buttons) →
  Lines.free_of ":" (req_id request) = true →
  buttons !! i = Some button →
  (Z.of_nat i < 2 ^ 32 - 1)%Z →
  ∃ options label,
    req_options request = Some options
    ∧ options !! i = Some label
    ∧ Buttons.b_label button = String.substring 0 80 label
    ∧ DiscordHandler.handleButton_head
        {| customId := Buttons.b_customId button |} pm
      = Some (req_id request, label)
    ∧ selects {| customId := Buttons.b_customId button |} pm (req_id request) label.
Proof.
  intros Hreq Hc Hid Hi Hbound.
  apply components_Some in Hc as (options & Hopts & _ & -> & Hall).
  rewrite row_lookup in Hi.
  destruct (options !! i) as [label|] eqn:Hl; [|done].
  injection Hi as <-. destruct (Hall i label Hl) as [Hne _].
  assert (Hsel : selects
            {| customId := Buttons.customId_for (req_id request) i |} pm
            (req_id request) label).
  { eapply (Selects _ _ _ _ (Buttons.decimal i) request options); try done.
    + by apply split_customId.
    + rewrite parseInt_of_decimal. unfold JS.index.
      assert ((0 <=? Z.of_nat i)%Z && (Z.of_nat i <? 2 ^ 32 - 1)%Z = true) as ->.
      { apply andb_true_iff. split; [apply Z.leb_le; lia | by apply Z.ltb_lt]. }
      by rewrite Nat2Z.id. }
  exists options, label. split_and!; try done.
  by apply selects_head.
Qed.


(** ** Kitty windows *)

Lemma in_windows_sound pid tabId ws wid tid :
  Kitty.in_windows pid tabId ws = Some (wid, tid) →
  tid = tabId ∧ ∃ w, w ∈ ws ∧ Kitty.w_id w = wid ∧ Kitty.runs pid w = true.
Proof.
  induction ws as [|w ws IH]; simpl; [done|].
  destruct (Kitty.runs pid w) eqn:Hr.
  - intros H. injection H as <- <-. split; [done|]. exists w. split; [left|done].
  - intros H. destruct (IH H) as [-> (w' & ? & ? & ?)].
    split; [done|]. exists w'. split; [by right|done].
Qed.

Lemma in_windows_None pid tabId ws :
  Kitty.in_windows pid tabId ws = None ↔ ∀ w, w ∈ ws → Kitty.runs pid w = false.
Proof.
  induction ws as [|w ws IH]; simpl.
  - split; [by intros _ w ?%elem_of_nil | done].
  - destruct (Kitty.runs pid w) eqn:Hr.
    + split; [done|]. intros H. specialize (H w ltac:(left)). congruence.
    + rewrite IH. split.
      * intros H w' [->|?]%elem_of_cons; auto.
      * intros H w' ?. apply H. by right.
Qed.

Lemma in_tabs_sound pid tabs wid tid :
  Kitty.in_tabs pid tabs = Some (wid, tid) →
  ∃ tab w, tab ∈ tabs ∧ w ∈ Kitty.t_windows tab ∧ Kitty.t_id tab = tid
           ∧ Kitty.w_id w = wid ∧ Kitty.runs pid w = true.
Proof.
  induction tabs as [|tab tabs IH]; simpl; [done|].
  destruct (Kitty.in_windows pid (Kitty.t_id tab) (Kitty.t_windows tab))
    as [[wid' tid']|] eqn:Hw.
  - intros H. injection H as <- <-.
    apply in_windows_sound in Hw as [-> (w & ? & ? & ?)].
    exists tab, w. split_and!; try done. left.
  - intros H. destruct (IH H) as (tab' & w & ? & ? & ? & ? & ?).
    exists tab', w. split_and!; try done. by right.
Qed.

Lemma in_tabs_None pid tabs :
  Kitty.in_tabs pid tabs = None ↔
  ∀ tab w, tab ∈ tabs → w ∈ Kitty.t_windows tab → Kitty.runs pid w = false.
Proof.
  induction tabs as [|tab tabs IH]; simpl.
  - split; [by intros _ tab w ?%elem_of_nil | done].
  - destruct (Kitty.in_windows pid (Kitty.t_id tab) (Kitty.t_windows tab))
      as [r|] eqn:Hw.
    + split; [done|]. intros H.
      assert (Kitty.in_windows pid (Kitty.t_id tab) (Kitty.t_windows tab) = None)
        as Hn by (apply in_windows_None; intros w ?; apply (H tab); [left|done]).
      congruence.
    + rewrite IH. pose proof (proj1 (in_windows_None _ _ _) Hw) as Hn. split.
      * intros H tab' w [->|?]%elem_of_cons ?; eauto.
      * intros H tab' w ? ?. apply (H tab'); [by right|done].
Qed.

Lemma search_sound pid osWindows wid tid :
  Kitty.search pid osWindows = Some (wid, tid) →
  ∃ osWindow tab w,
    osWindow ∈ osWindows ∧ tab ∈ Kitty.os_tabs osWindow
    ∧ w ∈ Kitty.t_windows tab ∧ Kitty.t_id tab = tid ∧ Kitty.w_id w = wid
    ∧ Kitty.runs pid w = true.
Proof.
  induction osWindows as [|o os IH]; simpl; [done|].
  destruct (Kitty.in_tabs pid (Kitty.os_tabs o)) as [[wid' tid']|] eqn:Ht.
  - intros H. injection H as <- <-.
    apply in_tabs_sound in Ht as (tab & w & ? & ? & ? & ? & ?).
    exists o, tab, w. split_and!; try done. left.
  - intros H. destruct (IH H) as (o' & tab & w & ? & ? & ? & ? & ? & ?).
    exists o', tab, w. split_and!; try done. by right.
Qed.

Lemma search_None pid osWindows :
  Kitty.search pid osWindows = None ↔
  ∀ osWindow tab w,
    osWindow ∈ osWindows → tab ∈ Kitty.os_tabs osWindow →
    w ∈ Kitty.t_windows tab → Kitty.runs pid w = false.
Proof.
  induction osWindows as [|o os IH]; simpl.
  - split; [by intros _ o tab w ?%elem_of_nil | done].
  - destruct (Kitty.in_tabs pid (Kitty.os_tabs o)) as [r|] eqn:Ht.
    + split; [done|]. intros H.
      assert (Kitty.in_tabs pid (Kitty.os_tabs o) = None) as Hn
        by (apply in_tabs_None; intros tab w ? ?; apply (H o tab); [left|done..]).
      congruence.
    + rewrite IH. pose proof (proj1 (in_tabs_None _ _) Ht) as Hn. split.
      * intros H o' tab w [->|?]%elem_of_cons ? ?; eauto.
      * intros H o' tab w ? ? ?. apply (H o' tab); [by right|done..].
Qed.

(** X16. [findWindowByPid] answers with a window only if that window runs
    the process (as its own pid or as a foreground process) and belongs to
    the tab it names, and it answers [null] for a listing only if no window
    of the listing runs the process.  The version that searches all sockets
    skips the sockets that do not answer and finds the process if any
    answering socket shows it. *)
Theorem findWindowByPid_is_sound_and_complete
    (pid : Z) (osWindows : list Kitty.KittyOsWindow)
    (sockets : list (string * Result (list Kitty.KittyOsWindow))) :
  (∀ wid tid,
     Kitty.findWindowByPid true (Ok osWindows) pid = Some (wid, tid) →
     ∃ osWindow tab w,
       osWindow ∈ osWindows ∧ tab ∈ Kitty.os_tabs osWindow
       ∧ w ∈ Kitty.t_windows tab ∧ Kitty.t_id tab = tid ∧ Kitty.w_id w = wid
       ∧ (Kitty.w_pid w = pid
          ∨ ∃ fgs, Kitty.w_foreground_processes w = Some fgs ∧ pid ∈ fgs))
  ∧ (Kitty.findWindowByPid true (Ok osWindows) pid = None ↔
     ∀ osWindow tab w,
       osWindow ∈ osWindows → tab ∈ Kitty.os_tabs osWindow →
       w ∈ Kitty.t_windows tab → Kitty.runs pid w = false)
  ∧ (∀ ls, Kitty.findWindowByPid false ls pid = None)
  ∧ Kitty.findWindowByPid true Throw pid = None
  ∧ (∀ socketPath wid tid,
       Kitty.findWindowByPid_sockets sockets pid = Some (socketPath, wid, tid) →
       ∃ listing, (socketPath, Ok listing) ∈ sockets
                  ∧ Kitty.search pid listing = Some (wid, tid))
  ∧ (Kitty.findWindowByPid_sockets sockets pid = None ↔
     ∀ socketPath listing,
       (socketPath, Ok listing) ∈ sockets → Kitty.search pid listing = None).
Proof.
  split_and!.
  - intros wid tid H. simpl in H.
    apply search_sound in H as (o & tab & w & ? & ? & ? & ? & ? & Hr).
    exists o, tab, w. split_and!; try done.
    unfold Kitty.runs in Hr. apply orb_true_iff in Hr as [Hr|Hr].
    + left. by apply Z.eqb_eq.
    + right. destruct (Kitty.w_foreground_processes w) as [fgs|]; [|done].
      exists fgs. split; [done|]. simpl in Hr.
      apply existsb_exists in Hr as (fg & Hin & ->%Z.eqb_eq).
      by apply list_elem_of_In.
  - simpl. apply search_None.
  - done.
  - done.
  - induction sockets as [|[p ls] sockets' IH]; simpl; [done|].
    intros socketPath wid tid H. destruct ls as [listing|].
    + destruct (Kitty.search pid listing) as [[wid' tid']|] eqn:Hs.
      * injection H as <- <- <-. exists listing. split; [left|done].
      * destruct (IH _ _ _ H) as (l & ? & ?). exists l. split; [by right|done].
    + destruct (IH _ _ _ H) as (l & ? & ?). exists l. split; [by right|done].
  - induction sockets as [|[p ls] sockets' IH]; simpl.
    + split; [by intros _ ? ? ?%elem_of_nil | done].
    + destruct ls as [listing|].
      * destruct (Kitty.search pid listing) as [[wid' tid']|] eqn:Hs.
        -- split; [done|]. intros H. specialize (H p listing ltac:(left)).
           congruence.
        -- rewrite IH. split.
           ++ intros H p' l [Heq|?]%elem_of_cons; [|eauto].
              by injection Heq as -> ->.
           ++ intros H p' l ?. apply (H p'). by right.
      * rewrite IH. split.
        -- intros H p' l [Heq|?]%elem_of_cons; [done|eauto].
        -- intros H p' l ?. apply (H p'). by right.
Qed.

Lemma replace_all_app c by_ s t :
  Kitty.replace_all c by_ (s +:+ t)
  = Kitty.replace_all c by_ s +:+ Kitty.replace_all c by_ t.
Proof.
  induction s as [|a s IH]; [done|].
  rewrite string_app_cons. simpl. destruct (Ascii.eqb a c).
  - by rewrite IH, string_app_assoc.
  - by rewrite IH.
Qed.

Lemma replace_all_free c by_ s :
  Lines.free_of c s = true → Kitty.replace_all c by_ s = s.
Proof.
  induction s as [|a s IH]; simpl; [done|].
  intros [Ha Hs]%andb_true_iff. apply negb_true_iff in Ha.
  by rewrite Ha, (IH Hs).
Qed.

Lemma sh_escape text :
  Kitty.sh_double_quoted (Kitty.escape text)
  = if Lines.free_of Kitty.dollar text && Lines.free_of Kitty.backquote text
    then Kitty.Text text
    else Kitty.Expands.
Proof.
  unfold Kitty.escape. induction text as [|a t IH]; [done|].
  cbn [Kitty.replace_all Lines.free_of].
  destruct (Ascii.eqb a Kitty.backslash) eqn:Hb.
  { apply Ascii.eqb_eq in Hb as ->.
    change (String Kitty.backslash (String Kitty.backslash "") +:+ ?x)
      with (String Kitty.backslash (String Kitty.backslash x)).
    simpl. rewrite IH.
    by destruct (Lines.free_of Kitty.dollar t && Lines.free_of Kitty.backquote t). }
  cbn [Kitty.replace_all].
  destruct (Ascii.eqb a Kitty.dquote) eqn:Hq.
  { apply Ascii.eqb_eq in Hq as ->.
    change (String Kitty.backslash (String Kitty.dquote "") +:+ ?x)
      with (String Kitty.backslash (String Kitty.dquote x)).
    simpl. rewrite IH.
    by destruct (Lines.free_of Kitty.dollar t && Lines.free_of Kitty.backquote t). }
  cbn [Kitty.sh_double_quoted]. rewrite Hb, Hq.
  destruct (Ascii.eqb a Kitty.dollar) eqn:Hd; [done|].
  destruct (Ascii.eqb a Kitty.backquote) eqn:Hk; simpl.
  { by rewrite andb_false_r. }
  rewrite IH.
  by destruct (Lines.free_of Kitty.dollar t && Lines.free_of Kitty.backquote t).
Qed.

(** X17. [sendText] escapes the backslash and the double quote only.  For
    a text without [$] and backquote (and without the character 0, with
    which no command is run), the shell that runs the command line reads the
    escaped text between the double quotes back as the text, so the argument
    that [kitty] gets is the text.  A [$] or a backquote of the text reaches
    the shell unescaped between the double quotes, where the expansions of
    the shell apply to it; the escaped text never ends the quoted text
    early.  A text without backslash and double quote is put on the command
    line as it is. *)
Theorem escaped_text_as_the_shell_reads_it (text : string) :
  Lines.free_of Kitty.nul text = true →
  (Lines.free_of Kitty.dollar text = true →
   Lines.free_of Kitty.backquote text = true →
   Kitty.sh_double_quoted (Kitty.escape text) = Kitty.Text text)
  ∧ (Lines.free_of Kitty.dollar text = false
     ∨ Lines.free_of Kitty.backquote text = false →
     Kitty.sh_double_quoted (Kitty.escape text) = Kitty.Expands)
  ∧ Kitty.sh_double_quoted (Kitty.escape text) ≠ Kitty.Ends
  ∧ (Lines.free_of Kitty.backslash text = true →
     Lines.free_of Kitty.dquote text = true →
     Kitty.escape text = text).
Proof.
  intros _. split_and!.
  - intros Hd Hk. by rewrite sh_escape, Hd, Hk.
  - intros [H|H]; rewrite sh_escape, H; [done|]. by rewrite andb_false_r.
  - rewrite sh_escape.
    by destruct (Lines.free_of Kitty.dollar text && Lines.free_of Kitty.backquote text).
  - intros Hb Hq. unfold Kitty.escape.
    by rewrite (replace_all_free _ _ _ Hb), (replace_all_free _ _ _ Hq).
Qed.

(** ** Session discovery *)

Lemma scan_back_reverse cwd start (lines : list (option SessionResolver.HistoryEntry)) i e :
  lines !! i = Some (Some e) →
  SessionResolver.matches cwd start e = true →
  (∀ j e', i < j → lines !! j = Some (Some e') →
           SessionResolver.matches cwd start e' = false) →
  SessionResolver.scan_back cwd start (reverse lines) = SessionResolver.h_sessionId e.
Proof.
  revert i. induction lines as [|l lines IH] using rev_ind; intros i Hi Hm Hlater.
  - by rewrite lookup_nil in Hi.
  - rewrite reverse_snoc. simpl.
    destruct (decide (i = length lines)) as [->|Hne].
    + rewrite list_lookup_middle in Hi by done. injection Hi as ->.
      by rewrite Hm.
    + assert (i < length lines) as Hlt.
      { apply lookup_lt_Some in Hi. rewrite length_app in Hi. simpl in Hi. lia. }
      rewrite lookup_app_l in Hi by done.
      assert (Hl : ∀ e', l = Some e' → SessionResolver.matches cwd start e' = false).
      { intros e' ->. apply (Hlater (length lines)); [done|].
        by rewrite list_lookup_middle. }
      assert (Hrec : SessionResolver.scan_back cwd start (reverse lines)
                     = SessionResolver.h_sessionId e).
      { apply (IH i); [done..|]. intros j e' Hj Hje.
        apply (Hlater j); [done|]. rewrite lookup_app_l; [done|].
        by eapply lookup_lt_Some. }
      destruct l as [e'|]; [|done]. by rewrite (Hl e' eq_refl).
Qed.

Lemma scan_back_none cwd start (lines : list (option SessionResolver.HistoryEntry)) :
  (∀ e, Some e ∈ lines → SessionResolver.matches cwd start e = false) →
  SessionResolver.scan_back cwd start lines = None.
Proof.
  induction lines as [|l lines IH]; intros H; simpl; [done|].
  destruct l as [e|].
  - rewrite (H e) by left. apply IH. intros e' ?. apply H. by right.
  - apply IH. intros e' ?. apply H. by right.
Qed.

(** X18. [findSessionId] answers with the session id of the most recent
    line of the history whose directory (or project) is the given one and
    whose time lies within 60 seconds of the start of the process; older
    lines are not looked at, also when that line has no session id.  It
    answers [undefined] when no line qualifies, when the history is missing
    or unreadable, and when the age of the process is unknown. *)
Theorem findSessionId_takes_the_latest_match
    (cwd : string) (lines : list (option SessionResolver.HistoryEntry))
    (elapsed now : Z) (i : nat) (entry : SessionResolver.HistoryEntry) :
  cwd ≠ "" →
  lines !! i = Some (Some entry) →
  SessionResolver.matches cwd (Some (now / 1000 - elapsed)%Z) entry = true →
  (∀ j e, i < j → lines !! j = Some (Some e) →
          SessionResolver.matches cwd (Some (now / 1000 - elapsed)%Z) e = false) →
  SessionResolver.findSessionId (Some cwd) (Holds lines) (Some (Some elapsed)) now
  = SessionResolver.h_sessionId entry
  ∧ (∀ history el, SessionResolver.findSessionId None history el now = None)
  ∧ (∀ history el, SessionResolver.findSessionId (Some "") history el now = None)
  ∧ (∀ el, SessionResolver.findSessionId (Some cwd) Missing el now = None)
  ∧ (∀ el, SessionResolver.findSessionId (Some cwd) Unreadable el now = None)
  ∧ (∀ history, SessionResolver.findSessionId (Some cwd) history None now = None)
  ∧ (∀ others : list (option SessionResolver.HistoryEntry),
       SessionResolver.findSessionId (Some cwd) (Holds others) (Some None) now = None)
  ∧ (∀ others : list (option SessionResolver.HistoryEntry),
       (∀ e, Some e ∈ others →
             SessionResolver.matches cwd (Some (now / 1000 - elapsed)%Z) e = false) →
       SessionResolver.findSessionId (Some cwd) (Holds others)
         (Some (Some elapsed)) now = None).
Proof.
  intros Hcwd Hi Hm Hlater.
  assert (Ht : JS.truthy (Some cwd) = true).
  { simpl. apply negb_true_iff. by apply String.eqb_neq. }
  unfold SessionResolver.findSessionId. rewrite Ht. split_and!.
  - simpl. by eapply scan_back_reverse.
  - done.
  - done.
  - done.
  - intros el. simpl. by destruct el.
  - intros history. simpl. by destruct (existsSync history).
  - intros others. simpl. apply scan_back_none.
    intros e _. unfold SessionResolver.matches.
    destruct (SessionResolver.h_timestamp e); by rewrite andb_false_r.
  - intros others H. simpl. apply scan_back_none.
    intros e He. apply H. by apply elem_of_reverse.
Qed.

(** ** The client side *)

Lemma lookup_foldl_insert (v : SocketClient.Handler) (l : list string)
    (h : gmap string SocketClient.Handler) (k : string) :
  foldl (λ h type, <[type := v]> h) h l !! k
  = if bool_decide (k ∈ l) then Some v else h !! k.
Proof.
  revert h. induction l as [|t l IH]; intros h; cbn [foldl].
  - case_bool_decide as H; [by apply elem_of_nil in H|done].
  - rewrite IH. destruct (decide (k = t)) as [->|Hne].
    + rewrite lookup_insert_eq.
      rewrite (bool_decide_eq_true_2 (t ∈ t :: l)) by left.
      by destruct (bool_decide (t ∈ l)).
    + rewrite lookup_insert_ne by done.
      rewrite (bool_decide_ext (k ∈ t :: l) (k ∈ l)); [done|].
      rewrite elem_of_cons. tauto.
Qed.

Lemma lookup_foldl_delete (l : list string)
    (h : gmap string SocketClient.Handler) (k : string) :
  foldl (λ h type, delete type h) h l !! k
  = if bool_decide (k ∈ l) then None else h !! k.
Proof.
  revert h. induction l as [|t l IH]; intros h; cbn [foldl].
  - case_bool_decide as H; [by apply elem_of_nil in H|done].
  - rewrite IH. destruct (decide (k = t)) as [->|Hne].
    + rewrite lookup_delete_eq.
      rewrite (bool_decide_eq_true_2 (t ∈ t :: l)) by left.
      by destruct (bool_decide (t ∈ l)).
    + rewrite lookup_delete_ne by done.
      rewrite (bool_decide_ext (k ∈ t :: l) (k ∈ l)); [done|].
      rewrite elem_of_cons. tauto.
Qed.

Lemma lookup_cleanup (l : list string) (h : gmap string SocketClient.Handler)
    (k : string) :
  SocketClient.cleanup l h !! k
  = if bool_decide (k = "error" ∨ k ∈ l) then None else h !! k.
Proof.
  unfold SocketClient.cleanup. destruct (decide (k = "error")) as [->|Hne].
  - rewrite lookup_delete_eq. by rewrite bool_decide_eq_true_2 by (by left).
  - rewrite lookup_delete_ne by done. rewrite lookup_foldl_delete.
    repeat case_bool_decide; try done; exfalso; tauto.
Qed.

Lemma lookup_waitFor p l (c : SocketClient.Client) (k : string) :
  SocketClient.messageHandlers (SocketClient.waitFor p l c) !! k
  = if bool_decide (k = "error") then Some (SocketClient.RejectOnError p l)
    else if bool_decide (k ∈ l) then Some (SocketClient.Resolve p l)
    else SocketClient.messageHandlers c !! k.
Proof.
  unfold SocketClient.waitFor. simpl. case_bool_decide as Hk.
  - subst k. by rewrite lookup_insert_eq.
  - rewrite lookup_insert_ne by done. apply lookup_foldl_insert.
Qed.

Lemma handlers_settle p o c :
  SocketClient.messageHandlers (SocketClient.settle p o c)
  = SocketClient.messageHandlers c.
Proof. unfold SocketClient.settle. by destruct (SocketClient.promises c !! p). Qed.

Lemma type_of_not_star msg : SocketClient.type_of msg ≠ "*".
Proof. by destruct msg. Qed.

Lemma handleMessage_unhandled msg c :
  SocketClient.messageHandlers c !! SocketClient.type_of msg = None →
  SocketClient.messageHandlers c !! "*" = None →
  SocketClient.handleMessage msg c = c.
Proof. intros H1 H2. unfold SocketClient.handleMessage. by rewrite H1, H2. Qed.

Lemma on_lines_no_handlers lines c :
  SocketClient.messageHandlers c = ∅ →
  SocketClient.on_lines lines c = c.
Proof.
  intros He. induction lines as [|[msg|] lines IH]; simpl; [done| |done].
  rewrite handleMessage_unhandled; [done|by rewrite He..].
Qed.

Lemma handlers_with h c :
  SocketClient.messageHandlers (SocketClient.with_messageHandlers h c) = h.
Proof. done. Qed.

Lemma handlers_removed_star p typeList c :
  SocketClient.messageHandlers c !! "*" = None →
  SocketClient.messageHandlers (handlers_removed p typeList c) !! "*" = None.
Proof.
  intros Hstar. unfold handlers_removed. rewrite handlers_with, lookup_cleanup.
  case_bool_decide as H; [done|]. rewrite lookup_waitFor.
  rewrite bool_decide_eq_false_2 by done.
  rewrite bool_decide_eq_false_2 by tauto. done.
Qed.

Lemma waitFor_error p typeList c requestId code message :
  SocketClient.messageHandlers c !! "*" = None →
  SocketClient.handleMessage (Error requestId code message)
    (SocketClient.waitFor p typeList c)
  = SocketClient.settle p (SocketClient.Rejected message)
      (handlers_removed p typeList c).
Proof.
  intros Hstar. unfold SocketClient.handleMessage.
  rewrite lookup_waitFor. simpl SocketClient.type_of.
  rewrite bool_decide_eq_true_2 by done.
  cbn [SocketClient.call]. fold (handlers_removed p typeList c).
  by rewrite handlers_settle, handlers_removed_star.
Qed.

Lemma waitFor_awaited p typeList c msg :
  SocketClient.messageHandlers c !! "*" = None →
  SocketClient.type_of msg ≠ "error" →
  SocketClient.type_of msg ∈ typeList →
  SocketClient.handleMessage msg (SocketClient.waitFor p typeList c)
  = SocketClient.settle p (SocketClient.Resolved msg)
      (handlers_removed p typeList c).
Proof.
  intros Hstar Hne Hin. unfold SocketClient.handleMessage.
  rewrite lookup_waitFor. rewrite bool_decide_eq_false_2 by done.
  rewrite bool_decide_eq_true_2 by done.
  cbn [SocketClient.call]. fold (handlers_removed p typeList c).
  by rewrite handlers_settle, handlers_removed_star.
Qed.

Lemma promises_settle p o c :
  SocketClient.promises c !! p = None →
  SocketClient.promises (SocketClient.settle p o c) !! p = Some o.
Proof.
  intros Hp. unfold SocketClient.settle. rewrite Hp. simpl.
  by rewrite lookup_insert_eq.
Qed.

(** X19. While [waitFor(types)] is pending, a message of one of the types
    resolves its promise with that message, and an error message rejects it
    with the text of the error, also when ["error"] is one of the types: the
    handler that [waitFor] sets for errors replaces the one set for the type.
    Either way all handlers of the call are removed.  A message of another
    type, for which nothing else is registered, is dropped: the client is
    left as it was, and the message is not kept for a later [waitFor]. *)
Theorem waitFor_settles_by_type
    (c : SocketClient.Client) (p : nat) (typeList : list string)
    (msg : ServerMessage) :
  SocketClient.promises c !! p = None →
  SocketClient.messageHandlers c !! "*" = None →
  let c' := SocketClient.handleMessage msg (SocketClient.waitFor p typeList c) in
  (∀ requestId code message,
     msg = Error requestId code message →
     SocketClient.promises c' !! p = Some (SocketClient.Rejected message))
  ∧ (SocketClient.type_of msg ≠ "error" →
     SocketClient.type_of msg ∈ typeList →
     SocketClient.promises c' !! p = Some (SocketClient.Resolved msg))
  ∧ (SocketClient.type_of msg = "error" ∨ SocketClient.type_of msg ∈ typeList →
     ∀ type, type = "error" ∨ type ∈ typeList →
             SocketClient.messageHandlers c' !! type = None)
  ∧ (SocketClient.type_of msg ≠ "error" →
     SocketClient.type_of msg ∉ typeList →
     "*" ∉ typeList →
     SocketClient.messageHandlers c !! SocketClient.type_of msg = None →
     c' = SocketClient.waitFor p typeList c).
Proof.
  intros Hp Hstar c'. subst c'. split_and!.
  - intros r code m ->. rewrite waitFor_error by done.
    by apply promises_settle.
  - intros Hne Hin. rewrite waitFor_awaited by done.
    by apply promises_settle.
  - intros Hm type Ht.
    assert (∃ o, SocketClient.handleMessage msg (SocketClient.waitFor p typeList c)
                 = SocketClient.settle p o (handlers_removed p typeList c))
      as [o ->].
    { destruct (decide (SocketClient.type_of msg = "error")) as [He|He].
      - destruct msg as [? ?|? ? ?|?|r code m]; try done.
        eexists. by apply waitFor_error.
      - eexists. apply waitFor_awaited; [done..|]. by destruct Hm. }
    rewrite handlers_settle. unfold handlers_removed.
    rewrite handlers_with, lookup_cleanup. by rewrite bool_decide_eq_true_2.
  - intros Hne Hnin Hs Hnone. apply handleMessage_unhandled.
    + rewrite lookup_waitFor. by rewrite !bool_decide_eq_false_2.
    + rewrite lookup_waitFor. by rewrite !bool_decide_eq_false_2.
Qed.

Lemma ask_after_ack requestId discordMessageId :
  SocketClient.messageHandlers
    (SocketClient.handleMessage (Ack requestId discordMessageId)
       (snd AskCommand.start)) = ∅
  ∧ SocketClient.promises
      (SocketClient.handleMessage (Ack requestId discordMessageId)
         (snd AskCommand.start))
    = {[ 0 := SocketClient.Resolved (Ack requestId discordMessageId) ]}.
Proof.
  unfold AskCommand.start. simpl snd.
  rewrite waitFor_awaited; [|done|done|by apply list_elem_of_singleton].
  split.
  - rewrite handlers_settle. apply map_eq. intros k. rewrite lookup_empty.
    unfold handlers_removed. rewrite handlers_with, lookup_cleanup.
    case_bool_decide as Hk; [done|]. rewrite lookup_waitFor.
    rewrite !bool_decide_eq_false_2; [done| |]; tauto.
  - done.
Qed.

(** X20. [askCommand] prints a response only if it arrives in a later chunk
    than the ack.  Whatever the chunk of the ack holds after the ack is
    handled before the command registers its second [waitFor], finds no
    handler and is dropped: the command is then in the state in which the
    ack alone leaves it, still waiting.  A response in a later chunk is
    printed and the command exits with 0; with [--no-wait] the command
    prints the request id and exits with 0 at the ack. *)
Theorem response_in_the_chunk_of_the_ack_is_dropped
    (requestId discordMessageId : string) (rest : list (option ServerMessage)) :
  let ack := Some (Ack requestId discordMessageId) in
  AskCommand.step false (AskCommand.Data (ack :: rest)) AskCommand.start
  = AskCommand.step false (AskCommand.Data [ack]) AskCommand.start
  ∧ fst (AskCommand.step false (AskCommand.Data (ack :: rest)) AskCommand.start)
    = AskCommand.Waiting AskCommand.AwaitResult
  ∧ (∀ rid response answeredAt,
       fst (AskCommand.run false
              [AskCommand.Data (ack :: rest);
               AskCommand.Data [Some (Response rid response answeredAt)]]
              AskCommand.start)
       = AskCommand.Exited 0 (Some response) None)
  ∧ fst (AskCommand.step true (AskCommand.Data (ack :: rest)) AskCommand.start)
    = AskCommand.Exited 0 (Some requestId) None.
Proof.
  intros ack.
  destruct (ask_after_ack requestId discordMessageId) as [Hh Hp].
  assert (Hstep : ∀ l noWait,
            AskCommand.step noWait (AskCommand.Data (ack :: l)) AskCommand.start
            = AskCommand.resume noWait
                (AskCommand.Waiting AskCommand.AwaitAck,
                 SocketClient.handleMessage
                   (Ack requestId discordMessageId) (snd AskCommand.start))).
  { intros l noWait. unfold AskCommand.step.
    change (fst AskCommand.start) with (AskCommand.Waiting AskCommand.AwaitAck).
    cbv iota beta. do 2 f_equal. unfold SocketClient.on_lines, ack.
    cbn [foldl]. by apply on_lines_no_handlers. }
  remember (SocketClient.handleMessage
              (Ack requestId discordMessageId) (snd AskCommand.start)) as c1.
  assert (Hwait : ∀ l,
            AskCommand.step false (AskCommand.Data (ack :: l)) AskCommand.start
            = (AskCommand.Waiting AskCommand.AwaitResult,
               SocketClient.waitFor 1 ["response"; "timeout"; "error"] c1)).
  { intros l. rewrite Hstep. unfold AskCommand.resume.
    rewrite Hp. cbn [AskCommand.promise_of]. by rewrite lookup_singleton_eq. }
  split_and!.
  - by rewrite !Hwait.
  - by rewrite Hwait.
  - intros rid response answeredAt. unfold AskCommand.run. cbn [foldl].
    rewrite Hwait. unfold AskCommand.step at 1. cbn [fst snd].
    unfold SocketClient.on_lines. cbn [foldl].
    rewrite waitFor_awaited; [|by rewrite Hh|done|left].
    unfold AskCommand.resume. cbn [AskCommand.promise_of].
    rewrite promises_settle; [done|].
    unfold handlers_removed. simpl. by rewrite Hp.
  - rewrite Hstep. unfold AskCommand.resume.
    rewrite Hp. cbn [AskCommand.promise_of]. by rewrite lookup_singleton_eq.
Qed.

(** X21. The timer of a [waitFor] outlives the call: when the timer of the
    first [waitFor] of [askCommand] fires while the command waits for the
    result, it removes the error handler of the second [waitFor] and leaves
    the other handlers.  From then on an error message is dropped, where
    before it ended the command with code 1; the command still ends when
    the timer of the second [waitFor] fires. *)
Theorem stale_timer_removes_the_error_handler
    (requestId discordMessageId : string) :
  let st := AskCommand.step false
              (AskCommand.Data [Some (Ack requestId discordMessageId)])
              AskCommand.start in
  let st' := AskCommand.step false (AskCommand.TimerFires AskCommand.AwaitAck) st in
  fst st' = AskCommand.Waiting AskCommand.AwaitResult
  ∧ SocketClient.messageHandlers (snd st') !! "error" = None
  ∧ SocketClient.messageHandlers (snd st') !! "response"
    = SocketClient.messageHandlers (snd st) !! "response"
  ∧ SocketClient.messageHandlers (snd st') !! "timeout"
    = SocketClient.messageHandlers (snd st) !! "timeout"
  ∧ (∀ rid code message,
       AskCommand.step false
         (AskCommand.Data [Some (Error rid code message)]) st' = st')
  ∧ (∀ rid code message,
       fst (AskCommand.step false
              (AskCommand.Data [Some (Error rid code message)]) st)
       = AskCommand.failed message)
  ∧ fst (AskCommand.step false (AskCommand.TimerFires AskCommand.AwaitResult) st')
    = AskCommand.failed SocketClient.timeout_message.
Proof.
  intros st st'. subst st' st. split_and!; intros; vm_compute; reflexivity.
Qed.

(** X22. The timeout of an ask made from the command line is the number
    that [--timeout] starts with (up to [2^53], where numbers are exact),
    also when it is negative or larger than [timeouts.maxAsk]; the daemon's
    [timeouts.defaultAsk] is used when the option is 0 or does not start
    with a number.  With the default of the option the request is stored
    with 300000 ms whatever the daemon's configuration says, and [--no-wait]
    is stored as [noWait]. *)
Theorem cli_timeout_reaches_the_request
    (cfg : Config) (id : string) (now : Z) (socket : nat)
    (question : string) (choices : option string) (wait : bool)
    (timeout : string) (sessionInfo : SessionInfo) (srv : Server) :
  let srv' :=
    Server.handleMessage cfg id now socket
      (Msg (Cli.ask_message question choices wait timeout sessionInfo)) srv in
  ∃ request,
    getRequest id (pendingManager srv') = Some request
    ∧ req_noWait request = negb wait
    ∧ (∀ n, JS.parseInt timeout = Some n → n ≠ 0%Z → (Z.abs n ≤ 2 ^ 53)%Z →
            req_timeout request = n)
    ∧ (JS.parseInt timeout = None ∨ JS.parseInt timeout = Some 0%Z →
       req_timeout request = timeouts_defaultAsk cfg)
    ∧ (timeout = Cli.default_timeout → req_timeout request = 300000%Z).
Proof.
  intros srv'. subst srv'. unfold Cli.ask_message. simpl.
  eexists. split.
  - unfold getRequest. simpl. apply lookup_insert_eq.
  - simpl. split_and!.
    + done.
    + intros n -> Hn _. simpl. by destruct (Z.eqb_spec n 0).
    + by intros [-> | ->].
    + by intros ->.
Qed.

(** ** The properties above on the sample deployment *)

Lemma daemon_and_cli_agree_on_socket_path_witness :
  ConfigFile.loadConfigForCLI Deployment.env = "/run/dn.sock".
Proof.
  rewrite <- (daemon_and_cli_agree_on_socket_path Deployment.env
                Deployment.config (Some "/home/u/.discord-notify")
                ltac:(reflexivity)).
  reflexivity.
Defined.

Lemma daemon_serves_only_a_configured_user_witness :
  discord_userId Deployment.config ≠ "".
Proof.
  exact (proj1 (proj2 (daemon_serves_only_a_configured_user Deployment.env
                         Deployment.config ltac:(reflexivity)))).
Defined.

Lemma button_token_round_trip_witness :
  DiscordHandler.handleButton_head {| customId := "req:r1:1" |} Sample.pm_asked
  = Some ("r1", "No").
Proof.
  destruct (button_token_round_trip Sample.pm_asked Deployment.request
              (Buttons.row Deployment.request ["Yes"; "No"]) 1
              {| Buttons.b_customId := "req:r1:1"; Buttons.b_label := "No" |}
              ltac:(vm_compute; reflexivity) ltac:(reflexivity)
              ltac:(reflexivity) ltac:(reflexivity) ltac:(reflexivity))
    as (options & label & Hopts & Hl & _ & Hhead & _).
  injection Hopts as <-. injection Hl as <-. exact Hhead.
Defined.

Lemma findSessionId_takes_the_latest_match_witness :
  SessionResolver.findSessionId (Some "/work") (Holds Deployment.history)
    (Some (Some 60%Z)) 1000000
  = Some "new".
Proof.
  exact (proj1 (findSessionId_takes_the_latest_match "/work" Deployment.history
                  60 1000000 2 _
                  ltac:(discriminate) ltac:(reflexivity) ltac:(reflexivity)
                  ltac:(intros [|[|[|[|j]]]] e Hj He; try lia;
                        [by injection He as <- | done]))).
Defined.

Lemma waitFor_settles_by_type_witness :
  SocketClient.promises
    (SocketClient.handleMessage (Timeout "r1")
       (SocketClient.waitFor 1 ["response"; "timeout"; "error"] SocketClient.new))
    !! 1
  = Some (SocketClient.Resolved (Timeout "r1")).
Proof.
  apply (waitFor_settles_by_type SocketClient.new 1
           ["response"; "timeout"; "error"] (Timeout "r1")
           ltac:(reflexivity) ltac:(reflexivity)).
  - discriminate.
  - right. left.
Defined.

Lemma loaded_config_is_complete_witness :
  timeouts_defaultAsk Deployment.config ≠ 0%Z.
Proof.
  destruct (proj1 (proj2 (loaded_config_is_complete Deployment.env))
              Deployment.config (Some "/home/u/.discord-notify") eq_refl)
    as (_ & _ & _ & H & _).
  exact H.
Defined.


Lemma findWindowByPid_is_sound_and_complete_witness :
  ∃ osWindow tab w,
    osWindow ∈ Deployment.listing ∧ tab ∈ Kitty.os_tabs osWindow
    ∧ w ∈ Kitty.t_windows tab ∧ Kitty.t_id tab = 7%Z ∧ Kitty.w_id w = 2%Z
    ∧ (Kitty.w_pid w = 100%Z
       ∨ ∃ fgs, Kitty.w_foreground_processes w = Some fgs ∧ 100%Z ∈ fgs).
Proof.
  exact (proj1 (findWindowByPid_is_sound_and_complete 100 Deployment.listing [])
           2%Z 7%Z eq_refl).
Defined.

Lemma escaped_text_as_the_shell_reads_it_witness :
  Kitty.sh_double_quoted (Kitty.escape "cd C:\work") = Kitty.Text "cd C:\work".
Proof.
  exact (proj1 (escaped_text_as_the_shell_reads_it "cd C:\work" eq_refl)
           eq_refl eq_refl).
Defined.

Lemma cli_timeout_reaches_the_request_witness :
  ∃ request,
    getRequest "r9"
      (pendingManager
         (Server.handleMessage Sample.cfg "r9" 1000 0
            (Msg (Cli.ask_message "Go?" None true "-5" Sample.session))
            Sample.srv0))
    = Some request
    ∧ req_timeout request = (-5)%Z.
Proof.
  destruct (cli_timeout_reaches_the_request Sample.cfg "r9" 1000 0 "Go?" None
              true "-5" Sample.session Sample.srv0)
    as (request & Hget & _ & Hn & _).
  exists request. split; [exact Hget|].
  apply (Hn (-5)%Z); [reflexivity | discriminate | vm_compute; discriminate].
Defined.
